(** * AIChildGame: the workflow generator and the skill sync tool

    A shallow embedding of [create_workflow.py] and [sync_skill.py].
    Both scripts are sequences of file-system calls guarded by a few
    conditionals, so the development has three layers:

    - [Py]: the handful of [str] and [datetime] methods the scripts call;
    - [Os]: a model of the file tree, of the exceptions of the library calls
      ([pathlib], [shutil], [tarfile]) and the state-and-exception monad in
      which the scripts run;
    - [CreateWorkflow] and [SyncSkill]: the two scripts, function by function.

    The properties follow the definitions. *)

From Stdlib Require Import Ascii.
From stdpp Require Import gmap strings list.

(** ** Python values *)

Module Py.

(** A [str] is the string of its code points; the model covers the code
    points below 256, which is the whole range of [ascii]. *)

(** [str.isspace] on one code point. *)
Definition isspace (c : ascii) : bool :=
  let n := nat_of_ascii c in
  ((9 <=? n) && (n <=? 13)) || ((28 <=? n) && (n <=? 32))
  || (n =? 133) || (n =? 160).

Fixpoint lstrip (s : string) : string :=
  match s with
  | String c s' => if isspace c then lstrip s' else s
  | EmptyString => EmptyString
  end.

Fixpoint rstrip (s : string) : string :=
  match s with
  | String c s' =>
      match rstrip s' with
      | EmptyString => if isspace c then EmptyString else String c EmptyString
      | t => String c t
      end
  | EmptyString => EmptyString
  end.

(** [s.strip()] *)
Definition strip (s : string) : string := rstrip (lstrip s).

Definition lower_char (c : ascii) : ascii :=
  let n := nat_of_ascii c in
  if ((65 <=? n) && (n <=? 90))
     || ((192 <=? n) && (n <=? 222) && negb (n =? 215))
  then ascii_of_nat (n + 32) else c.

(** [s.lower()] *)
Fixpoint lower (s : string) : string :=
  match s with
  | String c s' => String (lower_char c) (lower s')
  | EmptyString => EmptyString
  end.

(** [s * n] *)
Fixpoint times (s : string) (n : nat) : string :=
  match n with
  | O => EmptyString
  | S n' => s +:+ times s n'
  end.

Definition nl : string := String (ascii_of_nat 10) EmptyString.

(** [datetime]: the fields [strftime] can read. *)
Record datetime := Datetime {
  year : nat; month : nat; day : nat;
  hour : nat; minute : nat; second : nat;
  microsecond : nat
}.

Definition digit (n : nat) : ascii := ascii_of_nat (48 + n mod 10).

(** The last [width] decimal digits of [n], zero padded. *)
Fixpoint zpad (width n : nat) : string :=
  match width with
  | O => EmptyString
  | S w => zpad w (n / 10) +:+ String (digit n) EmptyString
  end.

(** [d.strftime("%Y%m%d_%H%M%S")], for a year of four digits. *)
Definition strftime (d : datetime) : string :=
  zpad 4 (year d) +:+ zpad 2 (month d) +:+ zpad 2 (day d) +:+ "_"
  +:+ zpad 2 (hour d) +:+ zpad 2 (minute d) +:+ zpad 2 (second d).

End Py.

(** ** The file tree and the library calls *)

Module Os.

(** A path is the list of its components below the root; [[]] is the root. *)
Abbreviation path := (list string).

(** [p.parent]: the root is its own parent. *)
Definition parent (p : path) : path := removelast p.

(** [p.name]: empty for the root. *)
Definition name (p : path) : string := default EmptyString (last p).

(** [p / c] *)
Definition child (p : path) (c : string) : path := p ++ [c].
Infix "//" := child (at level 40, left associativity).

(** [item.relative_to(base)]: [None] stands for the [ValueError] raised when
    [base] is not a prefix of [item]. *)
Fixpoint relative_to (item base : path) {struct base} : option path :=
  match base, item with
  | [], _ => Some item
  | b :: base', i :: item' =>
      if decide (b = i) then relative_to item' base' else None
  | _ :: _, [] => None
  end.

(** [tarfile.open] modes that write. *)
Inductive tar_mode := TarPlain | TarGz | TarBz2 | TarXz.

(** An entry of the tree is a regular file or a directory. A regular file
    holds text, or an archive with its members: the name each was added
    under and the entry that was read. *)
Inductive node :=
| File (d : data)
| Dir
with data :=
| Text (s : string)
| Archive (mode : tar_mode) (members : list (path * node)).

Inductive exn :=
| FileNotFoundError (p : path)
| FileExistsError (p : path)
| NotADirectoryError (p : path)
| IsADirectoryError (p : path)
| PermissionError (p : path)
| SameFileError (p : path)
| ShutilError (failed : list path)
| ValueError (msg : string)
| NotRelativeError (item base : path)   (* the [ValueError] of [relative_to] *)
| EOFError
| KeyboardInterrupt
| SystemExit (code : Z).

(** [isinstance(e, Exception)]: [KeyboardInterrupt] and [SystemExit] derive
    from [BaseException] only. *)
Definition is_Exception (e : exn) : bool :=
  match e with
  | KeyboardInterrupt | SystemExit _ => false
  | _ => true
  end.

(** The calls that change the tree, as the scripts issue them. *)
Inductive syscall :=
| Mkdir (p : path)
| Rmtree (p : path)
| Copytree (src dst : path)
| Unlink (p : path)
| TarOpen (p : path) (mode : tar_mode)
| TarAdd (archive item arcname : path)
| Copy2 (src dst : path)
| OpenW (p : path).

(** A printed line is an f-string: literal text and formatted values. *)
Inductive frag :=
| Lit (s : string)
| ShowPath (p : path)
| ShowExn (e : exn)
| ShowKb (n : node)     (* [st_size / 1024] of the entry [n], as [:.1f] *)
| ShowTraceback (e : exn).

Inductive tty :=
| Typed (s : string)
| CtrlC.

(** What a script reads from its process: the clock, the working directory,
    the home directory and the path of the script file. *)
Record env := Env {
  clock : Py.datetime;
  cwd : path;
  home : path;
  script_file : path
}.

(** The state a script runs in. [locked] are the paths at which the system
    refuses to create, overwrite or remove an entry (permissions, a
    read-only mount, a full disk); [trace] records every mutating call
    issued, whether it succeeded or not. *)
Record world := World {
  files : gmap path node;
  locked : gset path;
  process : env;
  stdin : list tty;
  trace : list syscall;
  stdout : list (list frag);
  stderr : list (list frag)
}.

Definition set_files (f : gmap path node → gmap path node) (w : world) : world :=
  World (f (files w)) (locked w) (process w) (stdin w)
        (trace w) (stdout w) (stderr w).

Definition set_stdin (l : list tty) (w : world) : world :=
  World (files w) (locked w) (process w) l
        (trace w) (stdout w) (stderr w).

Definition log (c : syscall) (w : world) : world :=
  World (files w) (locked w) (process w) (stdin w)
        (trace w ++ [c]) (stdout w) (stderr w).

Definition put_out (l : list frag) (w : world) : world :=
  World (files w) (locked w) (process w) (stdin w)
        (trace w) (stdout w ++ [l]) (stderr w).

Definition put_err (l : list frag) (w : world) : world :=
  World (files w) (locked w) (process w) (stdin w)
        (trace w) (stdout w) (stderr w ++ [l]).

(** The entry at [p]; the root is a directory that is always there. *)
Definition stat (fs : gmap path node) (p : path) : option node :=
  match p with
  | [] => Some Dir
  | _ => fs !! p
  end.

(** *** The monad of the scripts: state, and a result or an exception *)

Inductive result (A : Type) :=
| Ok (a : A)
| Raise (e : exn).
Arguments Ok {A} a.
Arguments Raise {A} e.

Definition M (A : Type) : Type := world → world * result A.

#[global] Instance M_ret : MRet M := λ A a w, (w, Ok a).

#[global] Instance M_bind : MBind M := λ A B k m w,
  match m w with
  | (w', Ok a) => k a w'
  | (w', Raise e) => (w', Raise e)
  end.

Definition raise {A} (e : exn) : M A := λ w, (w, Raise e).

(** A call that does not touch the state. *)
Definition lift {A} (r : result A) : M A := λ w, (w, r).

(** [try: body / except Exception as e: handler e] *)
Definition try_except {A} (body : M A) (handler : exn → M A) : M A := λ w,
  match body w with
  | (w', Ok a) => (w', Ok a)
  | (w', Raise e) => if is_Exception e then handler e w' else (w', Raise e)
  end.

(** [if b: body], without an [else]. *)
Definition when (b : bool) (body : M unit) : M unit :=
  if b then body else mret tt.

(** [for x in xs: body x] *)
Fixpoint for_each {A} (xs : list A) (body : A → M unit) : M unit :=
  match xs with
  | [] => mret tt
  | x :: xs' => body x ;; for_each xs' body
  end.

(** [print(...)] *)
Definition print (l : list frag) : M unit := λ w, (put_out l w, Ok tt).

(** [print(..., file=sys.stderr)] *)
Definition eprint (l : list frag) : M unit := λ w, (put_err l w, Ok tt).

(** [sys.exit(code)] *)
Definition sys_exit {A} (code : Z) : M A := raise (SystemExit code).

(** [input(prompt)] *)
Definition input (prompt : string) : M string := λ w,
  let w := put_out [Lit prompt] w in
  match stdin w with
  | [] => (w, Raise EOFError)
  | Typed s :: rest => (set_stdin rest w, Ok s)
  | CtrlC :: rest => (set_stdin rest w, Raise KeyboardInterrupt)
  end.

(** [datetime.now()] *)
Definition datetime_now : M Py.datetime := λ w, (w, Ok (clock (process w))).

(** [Path.cwd()] *)
Definition path_cwd : M path := λ w, (w, Ok (cwd (process w))).

(** [Path.home()] *)
Definition path_home : M path := λ w, (w, Ok (home (process w))).

(** [Path(__file__)], absolute. *)
Definition path_file : M path := λ w, (w, Ok (script_file (process w))).

(** [p.exists()] *)
Definition exists_ (p : path) : M bool := λ w,
  (w, Ok (bool_decide (is_Some (stat (files w) p)))).

(** [p.is_file()] *)
Definition is_file (p : path) : M bool := λ w,
  (w, Ok (match stat (files w) p with Some (File _) => true | _ => false end)).

(** *** The tree operations behind the library calls *)

(** The entries strictly below [base], each with its path relative to
    [base]. *)
Definition below (base : path) (fs : gmap path node) : list (path * node) :=
  omap (λ kv, match relative_to kv.1 base with
              | Some (c :: rel) => Some (c :: rel, kv.2)
              | _ => None
              end) (map_to_list fs).

(** Creating the directories on the way to [p], from the root down: what
    [p.mkdir(parents=True, exist_ok=True)] and [os.makedirs] do. [pre] is the
    part of the path already walked, [rest] what is left. *)
Fixpoint mkdir_walk (p pre rest : path) (fs : gmap path node) (lk : gset path)
  : gmap path node * option exn :=
  match rest with
  | [] => (fs, None)
  | c :: rest' =>
      let q := pre ++ [c] in
      match fs !! q with
      | Some Dir => mkdir_walk p q rest' fs lk
      | Some (File _) =>
          (fs, Some (match rest' with
                     | [] => FileExistsError p
                     | _ => NotADirectoryError p
                     end))
      | None =>
          if decide (q ∈ lk) then (fs, Some (PermissionError q))
          else mkdir_walk p q rest' (<[q := Dir]> fs) lk
      end
  end.

(** [p.mkdir(parents=True, exist_ok=True)] *)
Definition mkdir_parents (p : path) : M unit := λ w,
  let w := log (Mkdir p) w in
  match mkdir_walk p [] p (files w) (locked w) with
  | (fs, None) => (set_files (λ _, fs) w, Ok tt)
  | (fs, Some e) => (set_files (λ _, fs) w, Raise e)
  end.

(** [shutil.rmtree(p)]. The removal stops at the first entry the system
    refuses to remove; the order of a directory listing is not fixed, and
    the model takes the listing that meets such an entry first, so that a
    refused removal leaves the tree as it was. *)
Definition rmtree (p : path) : M unit := λ w,
  let w := log (Rmtree p) w in
  match stat (files w) p with
  | None => (w, Raise (FileNotFoundError p))
  | Some (File _) => (w, Raise (NotADirectoryError p))
  | Some Dir =>
      match filter (λ q, q ∈ locked w)
                   (p :: ((λ e, p ++ e.1) <$> below p (files w))) with
      | q :: _ => (w, Raise (PermissionError q))
      | [] => (set_files (filter (λ kv, ¬ p `prefix_of` kv.1)) w, Ok tt)
      end
  end.

(** The copy of [dst ++ rel] is refused when an entry on the way from [dst]
    (excluded) to [dst ++ rel] (included) is locked. *)
Definition blocked (lk : gset path) (dst rel : path) : Prop :=
  Exists (λ k, dst ++ take k rel ∈ lk) (seq 1 (length rel)).

#[global] Instance blocked_dec lk dst rel : Decision (blocked lk dst rel).
Proof. unfold blocked. apply _. Defined.

(** [shutil.copytree(src, dst)]: [dst] must not exist and is created with
    its parents; the entries that cannot be copied are skipped and reported
    together at the end. The entries are those listed when the call starts
    ([dst] is taken not to lie inside an existing sub-directory of [src]). *)
Definition copytree (src dst : path) : M unit := λ w,
  let w := log (Copytree src dst) w in
  match stat (files w) src with
  | None => (w, Raise (FileNotFoundError src))
  | Some (File _) => (w, Raise (NotADirectoryError src))
  | Some Dir =>
      match stat (files w) dst with
      | Some _ => (w, Raise (FileExistsError dst))
      | None =>
          let entries := below src (files w) in
          match mkdir_walk dst [] dst (files w) (locked w) with
          | (fs, Some e) => (set_files (λ _, fs) w, Raise e)
          | (fs, None) =>
              let skipped := filter (λ e, blocked (locked w) dst e.1) entries in
              let copied := filter (λ e, ¬ blocked (locked w) dst e.1) entries in
              let fs' := foldr (λ e m, <[dst ++ e.1 := e.2]> m) fs copied in
              (set_files (λ _, fs') w,
               match skipped with
               | [] => Ok tt
               | _ => Raise (ShutilError ((λ e, src ++ e.1) <$> skipped))
               end)
          end
      end
  end.

(** [p.unlink()] *)
Definition unlink (p : path) : M unit := λ w,
  let w := log (Unlink p) w in
  match stat (files w) p with
  | None => (w, Raise (FileNotFoundError p))
  | Some Dir => (w, Raise (IsADirectoryError p))
  | Some (File _) =>
      if decide (p ∈ locked w) then (w, Raise (PermissionError p))
      else (set_files (delete p) w, Ok tt)
  end.

(** Opening [p] for writing and storing [d]: the file is created, or
    replaced if it is there. *)
Definition create_file (p : path) (d : data) : M unit := λ w,
  match stat (files w) p with
  | Some Dir => (w, Raise (IsADirectoryError p))
  | _ =>
      match stat (files w) (parent p) with
      | None => (w, Raise (FileNotFoundError p))
      | Some (File _) => (w, Raise (NotADirectoryError p))
      | Some Dir =>
          if decide (p ∈ locked w) then (w, Raise (PermissionError p))
          else (set_files (<[p := File d]>) w, Ok tt)
      end
  end.

(** [with open(p, "w", encoding="utf-8") as f: f.write(s)] *)
Definition write_text (p : path) (s : string) : M unit := λ w,
  create_file p (Text s) (log (OpenW p) w).

(** [tarfile.open(p, mode)] for a writing mode: an archive without members. *)
Definition tar_open (p : path) (mode : tar_mode) : M unit := λ w,
  create_file p (Archive mode []) (log (TarOpen p mode) w).

(** [tar.add(item, arcname=arcname)] on the archive opened at [archive].
    The archive itself is never added; a directory is added with all that
    is below it. *)
Definition tar_add (archive item arcname : path) : M unit := λ w,
  let w := log (TarAdd archive item arcname) w in
  if decide (item = archive) then (w, Ok tt)
  else
    match stat (files w) item with
    | None => (w, Raise (FileNotFoundError item))
    | Some n =>
        let inner :=
          match n with
          | Dir => (λ e, (arcname ++ e.1, e.2)) <$>
                     filter (λ e, item ++ e.1 ≠ archive) (below item (files w))
          | File _ => []
          end in
        match files w !! archive with
        | Some (File (Archive mode ms)) =>
            (set_files (<[archive := File (Archive mode (ms ++ (arcname, n) :: inner))]>) w,
             Ok tt)
        | _ => (w, Ok tt)   (* the handle writes to a file no longer in the tree *)
        end
    end.

(** [item.relative_to(base)] as a call. *)
Definition path_relative_to (item base : path) : M path :=
  match relative_to item base with
  | Some rel => mret rel
  | None => raise (NotRelativeError item base)
  end.

(** [p.rglob("*")]: nothing unless [p] is a directory. *)
Definition rglob (p : path) : M (list path) := λ w,
  (w, Ok (match stat (files w) p with
          | Some Dir => (λ e, p ++ e.1) <$> below p (files w)
          | _ => []
          end)).

(** [p.stat()], of which the scripts read [st_size] only. *)
Definition path_stat (p : path) : M node := λ w,
  match stat (files w) p with
  | None => (w, Raise (FileNotFoundError p))
  | Some n => (w, Ok n)
  end.

(** [shutil.copy2(src, dst)] *)
Definition copy2 (src dst : path) : M unit := λ w,
  let w := log (Copy2 src dst) w in
  match stat (files w) src with
  | None => (w, Raise (FileNotFoundError src))
  | Some Dir => (w, Raise (IsADirectoryError src))
  | Some (File d) =>
      let target :=
        match stat (files w) dst with
        | Some Dir => dst // name src
        | _ => dst
        end in
      if decide (target = src) then (w, Raise (SameFileError src))
      else create_file target d w
  end.

End Os.

(** ** create_workflow.py *)

Module CreateWorkflow.
Import Os.

(** A text given line by line, each line ended by a newline. *)
Definition unlines (ls : list string) : string :=
  foldr (λ l s, l +:+ Py.nl +:+ s) EmptyString ls.

(** An empty line. *)
Definition blank : string := EmptyString.

(** The five template literals of [get_workflow_template], in the order of
    its branches. Two of them have one field, [repo_name]. *)
Definition vanilla_workflow : string :=
  unlines [
    "name: Deploy to GitHub Pages";
    blank;
    "on:";
    "  push:";
    "    branches: [ main ]";
    blank;
    "permissions:";
    "  contents: write";
    "  pages: write";
    "  id-token: write";
    blank;
    "jobs:";
    "  deploy:";
    "    runs-on: ubuntu-latest";
    "    steps:";
    "      - uses: actions/checkout@v4";
    blank;
    "      - name: Setup Pages";
    "        uses: actions/configure-pages@v4";
    blank;
    "      - name: Upload artifact";
    "        uses: actions/upload-pages-artifact@v3";
    "        with:";
    "          path: '.'";
    blank;
    "      - name: Deploy to GitHub Pages";
    "        id: deployment";
    "        uses: actions/deploy-pages@v4"
  ].

Definition react_vite_workflow (repo_name : string) : string :=
  unlines [
    "name: Deploy to GitHub Pages";
    blank;
    "on:";
    "  push:";
    "    branches: [ main ]";
    blank;
    "permissions:";
    "  contents: write";
    "  pages: write";
    "  id-token: write";
    blank;
    "jobs:";
    "  build-and-deploy:";
    "    runs-on: ubuntu-latest";
    "    steps:";
    "      - uses: actions/checkout@v4";
    blank;
    "      - name: Setup Node.js";
    "        uses: actions/setup-node@v4";
    "        with:";
    "          node-version: '20'";
    "          cache: 'npm'";
    blank;
    "      - name: Install dependencies";
    "        run: npm ci";
    blank;
    "      - name: Build";
    "        run: npm run build";
    "        env:";
    "          VITE_BASE_URL: /" +:+ repo_name +:+ "/";
    blank;
    "      - name: Setup Pages";
    "        uses: actions/configure-pages@v4";
    blank;
    "      - name: Upload artifact";
    "        uses: actions/upload-pages-artifact@v3";
    "        with:";
    "          path: dist";
    blank;
    "      - name: Deploy to GitHub Pages";
    "        id: deployment";
    "        uses: actions/deploy-pages@v4"
  ].

Definition cra_workflow (repo_name : string) : string :=
  unlines [
    "name: Deploy to GitHub Pages";
    blank;
    "on:";
    "  push:";
    "    branches: [ main ]";
    blank;
    "permissions:";
    "  contents: write";
    "  pages: write";
    "  id-token: write";
    blank;
    "jobs:";
    "  build-and-deploy:";
    "    runs-on: ubuntu-latest";
    "    steps:";
    "      - uses: actions/checkout@v4";
    blank;
    "      - name: Setup Node.js";
    "        uses: actions/setup-node@v4";
    "        with:";
    "          node-version: '20'";
    "          cache: 'npm'";
    blank;
    "      - name: Install dependencies";
    "        run: npm ci";
    blank;
    "      - name: Build";
    "        run: npm run build";
    "        env:";
    "          PUBLIC_URL: /" +:+ repo_name +:+ "/";
    blank;
    "      - name: Setup Pages";
    "        uses: actions/configure-pages@v4";
    blank;
    "      - name: Upload artifact";
    "        uses: actions/upload-pages-artifact@v3";
    "        with:";
    "          path: build";
    blank;
    "      - name: Deploy to GitHub Pages";
    "        id: deployment";
    "        uses: actions/deploy-pages@v4"
  ].

Definition vue_workflow : string :=
  unlines [
    "name: Deploy to GitHub Pages";
    blank;
    "on:";
    "  push:";
    "    branches: [ main ]";
    blank;
    "permissions:";
    "  contents: write";
    "  pages: write";
    "  id-token: write";
    blank;
    "jobs:";
    "  build-and-deploy:";
    "    runs-on: ubuntu-latest";
    "    steps:";
    "      - uses: actions/checkout@v4";
    blank;
    "      - name: Setup Node.js";
    "        uses: actions/setup-node@v4";
    "        with:";
    "          node-version: '20'";
    "          cache: 'npm'";
    blank;
    "      - name: Install dependencies";
    "        run: npm ci";
    blank;
    "      - name: Build";
    "        run: npm run build";
    blank;
    "      - name: Setup Pages";
    "        uses: actions/configure-pages@v4";
    blank;
    "      - name: Upload artifact";
    "        uses: actions/upload-pages-artifact@v3";
    "        with:";
    "          path: dist";
    blank;
    "      - name: Deploy to GitHub Pages";
    "        id: deployment";
    "        uses: actions/deploy-pages@v4"
  ].

Definition nextjs_workflow : string :=
  unlines [
    "name: Deploy to GitHub Pages";
    blank;
    "on:";
    "  push:";
    "    branches: [ main ]";
    blank;
    "permissions:";
    "  contents: write";
    "  pages: write";
    "  id-token: write";
    blank;
    "jobs:";
    "  build-and-deploy:";
    "    runs-on: ubuntu-latest";
    "    steps:";
    "      - uses: actions/checkout@v4";
    blank;
    "      - name: Setup Node.js";
    "        uses: actions/setup-node@v4";
    "        with:";
    "          node-version: '20'";
    "          cache: 'npm'";
    blank;
    "      - name: Install dependencies";
    "        run: npm ci";
    blank;
    "      - name: Build";
    "        run: npm run build";
    blank;
    "      - name: Setup Pages";
    "        uses: actions/configure-pages@v4";
    blank;
    "      - name: Upload artifact";
    "        uses: actions/upload-pages-artifact@v3";
    "        with:";
    "          path: out";
    blank;
    "      - name: Deploy to GitHub Pages";
    "        id: deployment";
    "        uses: actions/deploy-pages@v4"
  ].

(** [get_workflow_template(project_type, repo_name, build_dir=None)] *)
Definition get_workflow_template (project_type repo_name : string)
    (build_dir : option string) : result string :=
  if decide (project_type = "vanilla") then Ok vanilla_workflow
  else if decide (project_type = "react-vite") then Ok (react_vite_workflow repo_name)
  else if decide (project_type = "cra") then Ok (cra_workflow repo_name)
  else if decide (project_type = "vue") then Ok vue_workflow
  else if decide (project_type = "nextjs") then Ok nextjs_workflow
  else Raise (ValueError ("Unknown project type: " +:+ project_type)).

(** [create_workflow(project_type, repo_name, output_path=None)]. The
    argument is the path [Path(output_path)] denotes. *)
Definition create_workflow (project_type repo_name : string)
    (output_path : option path) : M path :=
  output_path ← match output_path with
                | None =>
                    cwd ← path_cwd;
                    mret (cwd // ".github" // "workflows" // "deploy.yml")
                | Some p => mret p
                end;
  (* Create directory if it doesn't exist *)
  mkdir_parents (parent output_path);;
  (* Get workflow template *)
  workflow ← lift (get_workflow_template project_type repo_name None);
  (* Write workflow file *)
  write_text output_path workflow;;
  print [Lit "[OK] Created GitHub Actions workflow at: "; ShowPath output_path];;
  mret output_path.

(** [sys.argv[i]], read after the length of [argv] was tested. *)
Definition arg (argv : list string) (i : nat) : string :=
  default EmptyString (argv !! i).

(** [main()]. [to_path] is [Path]: the path a string denotes for the
    process. *)
Definition main (to_path : string → path) (argv : list string) : M unit :=
  when (length argv <? 3)
    (print [Lit "Usage: python create_workflow.py <project_type> <repo_name> [output_path]"];;
     print [Lit (Py.nl +:+ "Project types:")];;
     print [Lit "  vanilla     - Plain HTML/CSS/JS"];;
     print [Lit "  react-vite  - React with Vite"];;
     print [Lit "  cra         - Create React App"];;
     print [Lit "  vue         - Vue with Vite"];;
     print [Lit "  nextjs      - Next.js static export"];;
     sys_exit 1);;
  let project_type := arg argv 1 in
  let repo_name := arg argv 2 in
  let output_path := if 3 <? length argv then Some (arg argv 3) else None in
  try_except
    (create_workflow project_type repo_name (to_path <$> output_path);;
     mret tt)
    (λ e,
     eprint [Lit "Error: "; ShowExn e];;
     sys_exit 1).

End CreateWorkflow.

(** ** sync_skill.py *)

Module SyncSkill.
Import Os.

(** [get_paths()] *)
Definition get_paths : M (path * path * path * path) :=
  (* Current project directory *)
  file ← path_file;
  let project_dir := parent file in
  (* Source skill directory in project *)
  let source_skill := project_dir // "github-pages-deploy-skill" in
  (* Destination: the skill installation directory *)
  home ← path_home;
  let dest_skill := home // ".claude" // "plugins" // "cache" //
                    "anthropic-agent-skills" // "example-skills" //
                    "a5bcdd7e58cd" // "skills" // "github-pages-deploy" in
  (* Skills directory (for packaging) *)
  let skills_dir := parent dest_skill in
  mret (project_dir, source_skill, dest_skill, skills_dir).

(** [backup_skill(dest_skill)] *)
Definition backup_skill (dest_skill : path) : M (option path) :=
  there ← exists_ dest_skill;
  if negb there then
    print [Lit "[INFO] No existing skill found, skipping backup"];;
    mret None
  else
    now ← datetime_now;
    let timestamp := Py.strftime now in
    let backup_path :=
      parent dest_skill // (name dest_skill +:+ "_backup_" +:+ timestamp) in
    try_except
      (copytree dest_skill backup_path;;
       print [Lit "[OK] Created backup: "; ShowPath backup_path];;
       mret (Some backup_path))
      (λ e,
       print [Lit "[ERROR] Failed to create backup: "; ShowExn e];;
       mret None).

(** [sync_skill_files(source_skill, dest_skill)] *)
Definition sync_skill_files (source_skill dest_skill : path) : M bool :=
  there ← exists_ source_skill;
  if negb there then
    print [Lit "[ERROR] Source skill directory not found: "; ShowPath source_skill];;
    mret false
  else
    (* Create destination directory if it doesn't exist *)
    mkdir_parents (parent dest_skill);;
    (* Remove existing destination directory *)
    old ← exists_ dest_skill;
    when old
      (print [Lit "[INFO] Removing existing skill directory: "; ShowPath dest_skill];;
       rmtree dest_skill);;
    (* Copy entire skill directory *)
    try_except
      (copytree source_skill dest_skill;;
       print [Lit "[OK] Synced skill files from "; ShowPath source_skill];;
       print [Lit "[OK] To "; ShowPath dest_skill];;
       mret true)
      (λ e,
       print [Lit "[ERROR] Failed to sync skill files: "; ShowExn e];;
       mret false).

(** [package_skill(skills_dir, dest_skill)] *)
Definition package_skill (skills_dir dest_skill : path) : M bool :=
  try_except
    ((* Remove old package if exists *)
     let old_package := skills_dir // "github-pages-deploy.skill" in
     old ← exists_ old_package;
     when old
       (unlink old_package;;
        print [Lit "[INFO] Removed old package: "; ShowPath old_package]);;
     (* Create new package using tar *)
     let package_path := skills_dir // "github-pages-deploy.skill" in
     tar_open package_path TarPlain;;
     items ← rglob dest_skill;
     for_each items (λ item,
       regular ← is_file item;
       when regular
         (arcname ← path_relative_to item (parent dest_skill // "github-pages-deploy");
          tar_add package_path item arcname));;
     print [Lit "[OK] Packaged skill to: "; ShowPath package_path];;
     (* Show file size *)
     st ← path_stat package_path;
     print [Lit "[OK] Package size: "; ShowKb st; Lit " KB"];;
     mret true)
    (λ e,
     print [Lit "[ERROR] Failed to package skill: "; ShowExn e];;
     mret false).

(** [update_project_package(project_dir, skills_dir)] *)
Definition update_project_package (project_dir skills_dir : path) : M bool :=
  let source_package := skills_dir // "github-pages-deploy.skill" in
  let dest_package := project_dir // "github-pages-deploy.skill" in
  there ← exists_ source_package;
  if negb there then
    print [Lit "[WARNING] Package not found: "; ShowPath source_package];;
    mret false
  else
    try_except
      (copy2 source_package dest_package;;
       print [Lit "[OK] Updated project package: "; ShowPath dest_package];;
       mret true)
      (λ e,
       print [Lit "[ERROR] Failed to update project package: "; ShowExn e];;
       mret false).

(** ["=" * 60] *)
Definition rule : string := Py.times "=" 60.

(** [show_summary(source_skill, dest_skill, success, packaged, updated_project)] *)
Definition show_summary (source_skill dest_skill : path)
    (success packaged updated_project : bool) : M unit :=
  print [Lit (Py.nl +:+ rule)];;
  print [Lit "SYNC SUMMARY"];;
  print [Lit rule];;
  print [Lit "Source:      "; ShowPath source_skill];;
  print [Lit "Destination: "; ShowPath dest_skill];;
  print [Lit "Status:      "; Lit (if success then "SUCCESS" else "FAILED")];;
  when packaged (print [Lit "Packaged:    YES"]);;
  when updated_project (print [Lit "Project:     UPDATED"]);;
  print [Lit rule].

(** [main()] *)
Definition main : M unit :=
  print [Lit (Py.nl +:+ rule)];;
  print [Lit "GitHub Pages Deployment Skill - Sync Tool"];;
  print [Lit (rule +:+ Py.nl)];;
  (* Get paths *)
  '(project_dir, source_skill, dest_skill, skills_dir) ← get_paths;
  print [Lit "Project directory: "; ShowPath project_dir];;
  print [Lit "Source skill:      "; ShowPath source_skill];;
  print [Lit "Destination:       "; ShowPath dest_skill; Lit Py.nl];;
  (* Check if source exists *)
  there ← exists_ source_skill;
  when (negb there)
    (print [Lit "[ERROR] Source skill directory not found!"];;
     print [Lit "[ERROR] Make sure 'github-pages-deploy-skill' folder exists in your project."];;
     sys_exit 1);;
  (* Ask for confirmation *)
  print [Lit "[WARNING] This will overwrite the installed skill with your project version."];;
  print [Lit ("[INFO] A backup will be created automatically." +:+ Py.nl)];;
  response ← input "Continue? (y/n): ";
  let response := Py.lower (Py.strip response) in
  when (negb (bool_decide (response ∈ ["y"; "yes"])))
    (print [Lit "[INFO] Sync cancelled."];;
     sys_exit 0);;
  (* Step 1: Backup existing skill *)
  print [Lit (Py.nl +:+ "[STEP 1] Creating backup...")];;
  backup ← backup_skill dest_skill;
  (* Step 2: Sync skill files *)
  print [Lit (Py.nl +:+ "[STEP 2] Syncing skill files...")];;
  success ← sync_skill_files source_skill dest_skill;
  when (negb success)
    (print [Lit (Py.nl +:+ "[ERROR] Sync failed! Please check the error messages above.")];;
     sys_exit 1);;
  (* Step 3: Package skill *)
  print [Lit (Py.nl +:+ "[STEP 3] Packaging skill...")];;
  packaged ← package_skill skills_dir dest_skill;
  (* Step 4: Update project package *)
  print [Lit (Py.nl +:+ "[STEP 4] Updating project package...")];;
  updated_project ← (if packaged then update_project_package project_dir skills_dir
                     else mret false);
  (* Show summary *)
  show_summary source_skill dest_skill success packaged updated_project;;
  (match backup with
   | Some b =>
       print [Lit (Py.nl +:+ "[INFO] Backup saved to: "); ShowPath b];;
       print [Lit "[INFO] You can restore it if something goes wrong."]
   | None => mret tt
   end);;
  print [Lit (Py.nl +:+ "[NEXT STEPS]")];;
  print [Lit "1. Restart Claude Code to reload the skill"];;
  print [Lit "2. Test the skill by asking: 'deploy to GitHub Pages'"];;
  print [Lit ("3. If something is wrong, restore from backup" +:+ Py.nl)].

(** The [if __name__ == "__main__"] block: the exit status of the process. *)
Definition run (w : world) : world * Z :=
  match main w with
  | (w', Ok _) => (w', 0%Z)
  | (w', Raise KeyboardInterrupt) =>
      (put_out [Lit (Py.nl +:+ Py.nl +:+ "[INFO] Sync cancelled by user.")] w', 0%Z)
  | (w', Raise (SystemExit code)) => (w', code)
  | (w', Raise e) =>
      (put_err [ShowTraceback e]
         (put_out [Lit (Py.nl +:+ "[ERROR] Unexpected error: "); ShowExn e] w'),
       1%Z)
  end.

End SyncSkill.

(** * Notions used in the statements *)

Import Os.

(** The five recognised tags. *)
Definition known_tags : list string :=
  ["vanilla"; "react-vite"; "cra"; "vue"; "nextjs"].

(** The members of the archive stored at [p], if there is one. *)
Definition archive_members (fs : gmap path node) (p : path) : list (path * node) :=
  match fs !! p with
  | Some (File (Archive _ ms)) => ms
  | _ => []
  end.

(** The entry at [q] does not stand in the way of creating directories: it
    is a directory, or it is missing and may be created. *)
Definition passable (fs : gmap path node) (lk : gset path) (q : path) : bool :=
  match fs !! q with
  | Some Dir => true
  | Some (File _) => false
  | None => bool_decide (q ∉ lk)
  end.

(** The directories on the way to [p] exist or can be created. *)
Definition can_make_dirs (fs : gmap path node) (lk : gset path) (p : path) : bool :=
  forallb (λ k, passable fs lk (take k p)) (seq 1 (length p)).

(** The path [create_workflow] writes to. *)
Definition resolved (output_path : option path) (w : world) : path :=
  default (cwd (process w) // ".github" // "workflows" // "deploy.yml") output_path.

(** A regular file, as [is_file] sees it. *)
Definition is_regular (n : node) : bool :=
  match n with File _ => true | Dir => false end.

(** The regular files among some entries. *)
Definition regular (es : list (path * node)) : list (path * node) :=
  filter (λ e, is_regular e.2) es.

(** The answers [main] takes for a yes. *)
Definition affirmative (s : string) : bool :=
  bool_decide (Py.lower (Py.strip s) ∈ ["y"; "yes"]).

(** The four paths of [get_paths] in the state [w]. *)
Definition project_dir_of (w : world) : path := parent (script_file (process w)).

Definition source_of (w : world) : path :=
  project_dir_of w // "github-pages-deploy-skill".

Definition skills_of (w : world) : path :=
  home (process w) // ".claude" // "plugins" // "cache" //
  "anthropic-agent-skills" // "example-skills" // "a5bcdd7e58cd" // "skills".

Definition dest_of (w : world) : path := skills_of w // "github-pages-deploy".

(** Printing some lines, one after the other. *)
Definition say (ls : list (list frag)) (w : world) : world :=
  foldl (λ w l, put_out l w) w ls.

(** What [main] prints up to and including its question. *)
Definition greeting (w : world) : list (list frag) :=
  [ [Lit (Py.nl +:+ SyncSkill.rule)];
    [Lit "GitHub Pages Deployment Skill - Sync Tool"];
    [Lit (SyncSkill.rule +:+ Py.nl)];
    [Lit "Project directory: "; ShowPath (project_dir_of w)];
    [Lit "Source skill:      "; ShowPath (source_of w)];
    [Lit "Destination:       "; ShowPath (dest_of w); Lit Py.nl];
    [Lit "[WARNING] This will overwrite the installed skill with your project version."];
    [Lit ("[INFO] A backup will be created automatically." +:+ Py.nl)];
    [Lit "Continue? (y/n): "] ].

(** The state in which [main] has read its answer, [rest] being the input
    that is left. *)
Definition asked (w : world) (rest : list tty) : world :=
  set_stdin rest (say (greeting w) w).

(** The headings of the four steps. *)
Definition step1 : list frag := [Lit (Py.nl +:+ "[STEP 1] Creating backup...")].
Definition step2 : list frag := [Lit (Py.nl +:+ "[STEP 2] Syncing skill files...")].
Definition step3 : list frag := [Lit (Py.nl +:+ "[STEP 3] Packaging skill...")].
Definition step4 : list frag := [Lit (Py.nl +:+ "[STEP 4] Updating project package...")].

(** The summary of a run that synced, did not package and did not update
    the project: no [Packaged] line and no [Project] line. *)
Definition summary_synced_only (source_skill dest_skill : path) : list (list frag) :=
  [ [Lit (Py.nl +:+ SyncSkill.rule)];
    [Lit "SYNC SUMMARY"];
    [Lit SyncSkill.rule];
    [Lit "Source:      "; ShowPath source_skill];
    [Lit "Destination: "; ShowPath dest_skill];
    [Lit "Status:      "; Lit "SUCCESS"];
    [Lit SyncSkill.rule] ].

(** What [main] prints after the summary. *)
Definition closing (backup : option path) : list (list frag) :=
  match backup with
  | Some b =>
      [ [Lit (Py.nl +:+ "[INFO] Backup saved to: "); ShowPath b];
        [Lit "[INFO] You can restore it if something goes wrong."] ]
  | None => []
  end
  ++ [ [Lit (Py.nl +:+ "[NEXT STEPS]")];
       [Lit "1. Restart Claude Code to reload the skill"];
       [Lit "2. Test the skill by asking: 'deploy to GitHub Pages'"];
       [Lit ("3. If something is wrong, restore from backup" +:+ Py.nl)] ].

(** A run only adds to the trace and to the output. *)
Definition extends (w w' : world) : Prop :=
  trace w `prefix_of` trace w' ∧ stdout w `prefix_of` stdout w'.

(** A call whose runs only add to the trace and to the output. *)
Definition monotone {A} (m : M A) : Prop :=
  ∀ w w' r, m w = (w', r) → extends w w'.

(** A call that raises nothing but instances of [Exception]. *)
Definition catchable {A} (m : M A) : Prop :=
  ∀ w w' e, m w = (w', Raise e) → is_Exception e = true.

(** The file tree is a tree: every entry other than the root lies in a
    directory. *)
Definition tree_shaped (fs : gmap path node) : bool :=
  forallb (λ kv : path * node,
             match kv.1 with
             | [] => true
             | _ => match stat fs (parent kv.1) with
                    | Some Dir => true
                    | _ => false
                    end
             end) (map_to_list fs).

(** No locked path lies at or below [p]. *)
Definition unlocked_below (lk : gset path) (p : path) : Prop :=
  ∀ q, q ∈ lk → ¬ p `prefix_of` q.

(** What [create_workflow.py] prints when it is given too few arguments. *)
Definition usage : list (list frag) :=
  [ [Lit "Usage: python create_workflow.py <project_type> <repo_name> [output_path]"];
    [Lit (Py.nl +:+ "Project types:")];
    [Lit "  vanilla     - Plain HTML/CSS/JS"];
    [Lit "  react-vite  - React with Vite"];
    [Lit "  cra         - Create React App"];
    [Lit "  vue         - Vue with Vite"];
    [Lit "  nextjs      - Next.js static export"] ].

(** A [Path] for the sample states: the components of an absolute path
    without dots. *)
Fixpoint components (acc : string) (s : string) : path :=
  match s with
  | EmptyString => match acc with EmptyString => [] | _ => [String.rev acc] end
  | String c s' =>
      if Ascii.eqb c "/"
      then match acc with
           | EmptyString => components EmptyString s'
           | _ => String.rev acc :: components EmptyString s'
           end
      else components (String c acc) s'
  end.

Definition sample_path (s : string) : path := components EmptyString s.

(** A call that, when it raises, raises an instance of [Exception], a
    [KeyboardInterrupt], or the [SystemExit] of status 0 or 1. *)
Definition tame {A} (m : M A) : Prop :=
  ∀ w w' e, m w = (w', Raise e) →
    e = SystemExit 0 ∨ e = SystemExit 1 ∨ e = KeyboardInterrupt
    ∨ is_Exception e = true.

(** What [main] prints before it tests the source directory. *)
Definition banner (w : world) : list (list frag) :=
  [ [Lit (Py.nl +:+ SyncSkill.rule)];
    [Lit "GitHub Pages Deployment Skill - Sync Tool"];
    [Lit (SyncSkill.rule +:+ Py.nl)];
    [Lit "Project directory: "; ShowPath (project_dir_of w)];
    [Lit "Source skill:      "; ShowPath (source_of w)];
    [Lit "Destination:       "; ShowPath (dest_of w); Lit Py.nl] ].

(** A call that leaves the locks and the process as they are. *)
Definition keeps_setup {A} (m : M A) : Prop :=
  ∀ w w' r, m w = (w', r) → locked w' = locked w ∧ process w' = process w.

(** A call that prints nothing on the standard output. *)
Definition quiet {A} (m : M A) : Prop :=
  ∀ w w' r, m w = (w', r) → stdout w' = stdout w.

(** A call that prints on the standard output only lines for which [P]
    holds. *)
Definition says_only (P : list frag → Prop) {A} (m : M A) : Prop :=
  ∀ w w' r, m w = (w', r) → ∃ ls, stdout w' = stdout w ++ ls ∧ Forall P ls.

(** A line that, if it is a status line of the summary, reports a success. *)
Definition no_failure (l : list frag) : Prop :=
  ∀ rest, l = Lit "Status:      " :: rest → rest = [Lit "SUCCESS"].

(** *** Sample states *)

Definition sample_env : env :=
  Env (Py.Datetime 2026 1 15 9 30 7 4120) ["work"] ["home"; "dev"]
      ["work"; "game"; "sync_skill.py"].

(** A state with the given entries, locked paths and typed input. *)
Definition sample_world (entries : list (path * node)) (lk : list path)
    (typed : list tty) : world :=
  World (list_to_map entries) (list_to_set lk) sample_env typed [] [] [].

(** A working directory without a [.github] folder. *)
Definition fresh_checkout : world :=
  sample_world [(["work"], Dir)] [] [].

(** A working directory in which [notes] is a regular file. *)
Definition checkout_with_notes : world :=
  sample_world [(["work"], Dir); (["work"; "notes"], File (Text "todo"))] [] [].

(** The directories on the way to [p], [p] included. *)
Definition ancestors (p : path) : list (path * node) :=
  (λ k, (take k p, Dir)) <$> seq 1 (length p).

(** The parent of the installed skill, below the sample home directory. *)
Definition sample_skills : path :=
  ["home"; "dev"; ".claude"; "plugins"; "cache"; "anthropic-agent-skills";
   "example-skills"; "a5bcdd7e58cd"; "skills"].

(** The entries of an installed skill of two files, next to an archive of
    an older one. *)
Definition sample_install : list (path * node) :=
  ancestors (sample_skills // "github-pages-deploy")
  ++ [(sample_skills // "github-pages-deploy" // "SKILL.md",
       File (Text "# deploy"));
      (sample_skills // "github-pages-deploy" // "scripts", Dir);
      (sample_skills // "github-pages-deploy" // "scripts" // "create_workflow.py",
       File (Text "import os"));
      (sample_skills // "github-pages-deploy.skill",
       File (Archive TarPlain [(["README.md"], File (Text "old"))]))].

(** The skill folder of the project, next to the script. *)
Definition sample_source : path := ["work"; "game"; "github-pages-deploy-skill"].

Definition sample_project : list (path * node) :=
  ancestors sample_source
  ++ [(sample_source // "SKILL.md", File (Text "# deploy, revised"));
      (sample_source // "scripts", Dir);
      (sample_source // "scripts" // "create_workflow.py", File (Text "import sys"))].

(** The skill is installed; there is no project folder. *)
Definition installed_skill : world := sample_world sample_install [] [].

(** The project folder is there and nothing is installed yet. *)
Definition first_install (typed : list tty) : world :=
  sample_world (sample_project ++ ancestors ["home"; "dev"]) [] typed.

(** The project folder is there and the skill is installed. *)
Definition reinstall (typed : list tty) : world :=
  sample_world (sample_project ++ sample_install) [] typed.

(** As [first_install], with an archive target that cannot be written. *)
Definition archive_locked (typed : list tty) : world :=
  sample_world (sample_project ++ ancestors ["home"; "dev"])
               [sample_skills // "github-pages-deploy.skill"] typed.

(** * Properties *)

(** ** Paths and strings *)

Lemma parent_child (p : path) (c : string) : parent (p // c) = p.
Proof. unfold parent, child. apply removelast_last. Qed.

Lemma name_child (p : path) (c : string) : name (p // c) = c.
Proof. unfold name, child. by rewrite last_snoc. Qed.

Lemma child_not_root (p : path) (c : string) : p // c ≠ [].
Proof. unfold child. by destruct p. Qed.

Lemma relative_to_Some (item base rel : path) :
  relative_to item base = Some rel ↔ item = base ++ rel.
Proof.
  revert item. induction base as [|b base IH]; intros item; simpl.
  - split; [by intros [= ->] | by intros ->].
  - destruct item as [|i item]; [split; [done | intros [=]] |].
    case_decide as Hbi.
    + subst i. rewrite IH. split; [by intros -> | by intros [= ->]].
    + split; [done | intros [= -> _]; done].
Qed.

Lemma relative_to_app (base rel : path) : relative_to (base ++ rel) base = Some rel.
Proof. by apply relative_to_Some. Qed.

Lemma string_app_assoc (a b c : string) : (a +:+ b) +:+ c = a +:+ (b +:+ c).
Proof.
  induction a as [|x a IH]; [done |].
  change (String x ((a +:+ b) +:+ c) = String x (a +:+ (b +:+ c))).
  by rewrite IH.
Qed.

(** ** The tree operations *)

Lemma elem_of_below (base rel : path) (n : node) (fs : gmap path node) :
  (rel, n) ∈ below base fs ↔ rel ≠ [] ∧ fs !! (base ++ rel) = Some n.
Proof.
  unfold below. rewrite list_elem_of_omap. split.
  - intros [[k m] [Hin Hsome]]. apply elem_of_map_to_list in Hin. simpl in Hsome.
    destruct (relative_to k base) as [[|c r]|] eqn:Hrel; simplify_eq.
    apply relative_to_Some in Hrel. by subst k.
  - intros [Hne Hlk]. exists (base ++ rel, n). split.
    + by apply elem_of_map_to_list.
    + simpl. rewrite relative_to_app. by destruct rel.
Qed.

Lemma stat_not_root (fs : gmap path node) (p : path) :
  p ≠ [] → stat fs p = fs !! p.
Proof. by destruct p. Qed.

Lemma stat_delete_ne (fs : gmap path node) (p q : path) :
  p ≠ q → stat (delete q fs) p = stat fs p.
Proof. intros Hne. destruct p; [done |]. simpl. by rewrite lookup_delete_ne. Qed.

Lemma stat_insert_ne (fs : gmap path node) (p q : path) (n : node) :
  p ≠ q → stat (<[q := n]> fs) p = stat fs p.
Proof. intros Hne. destruct p; [done |]. simpl. by rewrite lookup_insert_ne. Qed.

(** Running a sequence whose first call returns. *)
Lemma bind_run {A B} (m : M A) (k : A → M B) (w w1 : world) (a : A) :
  m w = (w1, Ok a) → (m ≫= k) w = k a w1.
Proof. intros Hm. unfold mbind, M_bind. by rewrite Hm. Qed.

(** Running a sequence whose first call raises. *)
Lemma bind_raise {A B} (m : M A) (k : A → M B) (w w1 : world) (e : exn) :
  m w = (w1, Raise e) → (m ≫= k) w = (w1, Raise e).
Proof. intros Hm. unfold mbind, M_bind. by rewrite Hm. Qed.

(** [mkdir_walk] only adds directories. *)
Lemma mkdir_walk_frame (p rest pre : path) (fs fs' : gmap path node)
    (lk : gset path) (r : option exn) :
  mkdir_walk p pre rest fs lk = (fs', r) →
  ∀ q, fs' !! q = fs !! q ∨ (fs !! q = None ∧ fs' !! q = Some Dir).
Proof.
  revert pre fs. induction rest as [|c rest IH]; intros pre fs Hwalk q; simpl in Hwalk.
  - left. congruence.
  - destruct (fs !! (pre ++ [c])) as [[d|]|] eqn:Hq.
    + left. congruence.
    + by apply (IH _ _ Hwalk).
    + case_decide; [left; congruence |].
      destruct (IH _ _ Hwalk q) as [Heq | [Hnone Hdir]].
      * destruct (decide (q = pre ++ [c])) as [-> | Hne].
        -- right. rewrite Heq, lookup_insert_eq. done.
        -- left. by rewrite Heq, lookup_insert_ne.
      * right. split; [| done].
        destruct (decide (q = pre ++ [c])) as [-> | Hne]; [done |].
        by rewrite lookup_insert_ne in Hnone.
Qed.

Lemma mkdir_walk_keeps_files (p rest pre : path) (fs fs' : gmap path node)
    (lk : gset path) (r : option exn) :
  mkdir_walk p pre rest fs lk = (fs', r) →
  ∀ q d, fs' !! q = Some (File d) ↔ fs !! q = Some (File d).
Proof.
  intros Hwalk q d.
  destruct (mkdir_walk_frame _ _ _ _ _ _ _ Hwalk q) as [-> | [Hnone Hdir]]; [done |].
  rewrite Hnone, Hdir. split; intros [=].
Qed.

Lemma mkdir_walk_raises_Exception (p rest pre : path) (fs fs' : gmap path node)
    (lk : gset path) (e : exn) :
  mkdir_walk p pre rest fs lk = (fs', Some e) → is_Exception e = true.
Proof.
  revert pre fs. induction rest as [|c rest IH]; intros pre fs Hwalk; simpl in Hwalk.
  - congruence.
  - destruct (fs !! (pre ++ [c])) as [[d|]|].
    + destruct rest; by simplify_eq.
    + by eapply IH.
    + case_decide; [by simplify_eq | by eapply IH].
Qed.

(** [mkdir_walk] succeeds when nothing stands in the way, and the whole path
    is a directory afterwards. *)
Lemma mkdir_walk_passable (p rest pre : path) (fs : gmap path node) (lk : gset path) :
  stat fs pre = Some Dir →
  (∀ k, 1 ≤ k ≤ length rest → passable fs lk (pre ++ take k rest) = true) →
  ∃ fs', mkdir_walk p pre rest fs lk = (fs', None)
         ∧ stat fs' (pre ++ rest) = Some Dir.
Proof.
  revert pre fs. induction rest as [|c rest IH]; intros pre fs Hpre Hpass; simpl.
  - exists fs. by rewrite app_nil_r.
  - assert (Hc : passable fs lk (pre ++ [c]) = true).
    { apply (Hpass 1). simpl. lia. }
    assert (Hq : pre ++ [c] ≠ []) by by destruct pre.
    replace (pre ++ c :: rest) with ((pre ++ [c]) ++ rest) by by rewrite <- app_assoc.
    unfold passable in Hc.
    destruct (fs !! (pre ++ [c])) as [[d|]|] eqn:Hlk; [done | |].
    + apply IH.
      * by rewrite stat_not_root.
      * intros k Hk. rewrite <- app_assoc. apply (Hpass (S k)). simpl. lia.
    + apply bool_decide_eq_true in Hc. rewrite decide_False by done.
      apply IH.
      * by rewrite stat_not_root, lookup_insert_eq.
      * intros k Hk. unfold passable.
        rewrite lookup_insert_ne.
        -- rewrite <- app_assoc. apply (Hpass (S k)). simpl. lia.
        -- intros Heq. apply (f_equal length) in Heq.
           rewrite !length_app, length_take in Heq. simpl in Heq. lia.
Qed.

Lemma can_make_dirs_walk (p : path) (fs : gmap path node) (lk : gset path) :
  can_make_dirs fs lk p = true →
  ∃ fs', mkdir_walk p [] p fs lk = (fs', None) ∧ stat fs' p = Some Dir.
Proof.
  intros Hcan. apply (mkdir_walk_passable p p [] fs lk); [done |].
  intros k Hk. unfold can_make_dirs in Hcan.
  rewrite forallb_forall in Hcan. apply Hcan, in_seq. lia.
Qed.

(** ** Runs only add to the trace and to the output *)

Lemma extends_refl (w : world) : extends w w.
Proof. by split. Qed.

Lemma extends_trans (w1 w2 w3 : world) :
  extends w1 w2 → extends w2 w3 → extends w1 w3.
Proof. intros [? ?] [? ?]. split; by etrans. Qed.

Lemma extends_log (c : syscall) (w : world) : extends w (log c w).
Proof. split; simpl; [by apply prefix_app_r | done]. Qed.

Lemma extends_put_out (l : list frag) (w : world) : extends w (put_out l w).
Proof. split; simpl; [done | by apply prefix_app_r]. Qed.

Lemma extends_set_files (f : gmap path node → gmap path node) (w : world) :
  extends w (set_files f w).
Proof. by split. Qed.

Lemma monotone_ret {A} (a : A) : monotone (mret a).
Proof. intros w w' r [= <- _]. apply extends_refl. Qed.

Lemma monotone_bind {A B} (m : M A) (k : A → M B) :
  monotone m → (∀ a, monotone (k a)) → monotone (m ≫= k).
Proof.
  intros Hm Hk w w' r. unfold mbind, M_bind.
  destruct (m w) as [w1 [a|e]] eqn:Hrun.
  - intros Hka. eapply extends_trans; [by eapply Hm | by eapply Hk].
  - intros [= <- _]. by eapply Hm.
Qed.

Lemma monotone_try_except {A} (body : M A) (handler : exn → M A) :
  monotone body → (∀ e, monotone (handler e)) → monotone (try_except body handler).
Proof.
  intros Hb Hh w w' r. unfold try_except.
  destruct (body w) as [w1 [a|e]] eqn:Hrun.
  - intros [= <- _]. by eapply Hb.
  - destruct (is_Exception e).
    + intros Hhe. eapply extends_trans; [by eapply Hb | by eapply Hh].
    + intros [= <- _]. by eapply Hb.
Qed.

Lemma monotone_when (b : bool) (body : M unit) :
  monotone body → monotone (when b body).
Proof. intros Hb. destruct b; [done | apply monotone_ret]. Qed.

Lemma monotone_for_each {A} (xs : list A) (body : A → M unit) :
  (∀ x, monotone (body x)) → monotone (for_each xs body).
Proof.
  intros Hb. induction xs as [|x xs IH]; simpl.
  - apply monotone_ret.
  - by apply monotone_bind.
Qed.

(** Settles the calls that log, then touch the files at most. *)
Ltac monotone_call :=
  intros ? ? ? Hrun; cbv beta zeta in Hrun;
  repeat (case_match; simplify_eq); simplify_eq;
  first [ apply extends_refl
        | apply extends_log
        | apply extends_put_out
        | eapply extends_trans; [apply extends_log | apply extends_set_files]
        | by split; simpl; try apply prefix_app_r ].

Lemma monotone_raise {A} (e : exn) : monotone (raise (A := A) e).
Proof. unfold raise. monotone_call. Qed.

Lemma monotone_lift {A} (r : result A) : monotone (lift r).
Proof. unfold lift. monotone_call. Qed.

Lemma monotone_sys_exit {A} (code : Z) : monotone (sys_exit (A := A) code).
Proof. apply monotone_raise. Qed.

Lemma monotone_print (l : list frag) : monotone (print l).
Proof. unfold print. monotone_call. Qed.

Lemma monotone_input (prompt : string) : monotone (input prompt).
Proof.
  intros w w' r. unfold input.
  assert (Hout := extends_put_out [Lit prompt] w).
  destruct (stdin (put_out [Lit prompt] w)) as [|[s|] rest];
    intros [= <- _]; [done | |]; destruct Hout; by split.
Qed.

Lemma monotone_datetime_now : monotone datetime_now.
Proof. unfold datetime_now. monotone_call. Qed.

Lemma monotone_path_cwd : monotone path_cwd.
Proof. unfold path_cwd. monotone_call. Qed.

Lemma monotone_path_home : monotone path_home.
Proof. unfold path_home. monotone_call. Qed.

Lemma monotone_path_file : monotone path_file.
Proof. unfold path_file. monotone_call. Qed.

Lemma monotone_exists (p : path) : monotone (exists_ p).
Proof. unfold exists_. monotone_call. Qed.

Lemma monotone_is_file (p : path) : monotone (is_file p).
Proof. unfold is_file. monotone_call. Qed.

Lemma monotone_mkdir_parents (p : path) : monotone (mkdir_parents p).
Proof. unfold mkdir_parents. monotone_call. Qed.

Lemma monotone_rmtree (p : path) : monotone (rmtree p).
Proof. unfold rmtree. monotone_call. Qed.

Lemma monotone_copytree (src dst : path) : monotone (copytree src dst).
Proof. unfold copytree. monotone_call. Qed.

Lemma monotone_unlink (p : path) : monotone (unlink p).
Proof. unfold unlink. monotone_call. Qed.

Lemma monotone_create_file (p : path) (d : data) : monotone (create_file p d).
Proof. unfold create_file. monotone_call. Qed.

Lemma monotone_tar_open (p : path) (mode : tar_mode) : monotone (tar_open p mode).
Proof.
  intros w w' r Hrun. unfold tar_open in Hrun.
  eapply extends_trans; [apply extends_log | by eapply monotone_create_file].
Qed.

Lemma monotone_tar_add (archive item arcname : path) :
  monotone (tar_add archive item arcname).
Proof. unfold tar_add. monotone_call. Qed.

Lemma monotone_rglob (p : path) : monotone (rglob p).
Proof. unfold rglob. monotone_call. Qed.

Lemma monotone_path_stat (p : path) : monotone (path_stat p).
Proof. unfold path_stat. monotone_call. Qed.

Lemma monotone_path_relative_to (item base : path) :
  monotone (path_relative_to item base).
Proof.
  unfold path_relative_to. destruct (relative_to item base);
    [apply monotone_ret | apply monotone_raise].
Qed.

Lemma monotone_copy2 (src dst : path) : monotone (copy2 src dst).
Proof.
  intros w w' r Hrun. unfold copy2 in Hrun.
  eapply extends_trans; [apply (extends_log (Copy2 src dst)) |].
  repeat (case_match; simplify_eq); try apply extends_refl;
    by eapply monotone_create_file.
Qed.

Create HintDb monotone.
#[local] Hint Resolve monotone_ret monotone_raise monotone_lift monotone_sys_exit
  monotone_print monotone_input monotone_datetime_now monotone_path_cwd
  monotone_path_home monotone_path_file monotone_exists monotone_is_file
  monotone_mkdir_parents monotone_rmtree monotone_copytree monotone_unlink
  monotone_create_file monotone_tar_open monotone_tar_add monotone_rglob
  monotone_path_stat monotone_path_relative_to monotone_copy2 : monotone.

(** Walks through a script, call by call. *)
Ltac monotone_script :=
  repeat first
    [ progress intros
    | apply monotone_bind
    | apply monotone_try_except
    | apply monotone_when
    | apply monotone_for_each
    | solve [auto with monotone]
    | match goal with
      | |- monotone (match ?x with _ => _ end) => destruct x
      | |- monotone (if ?b then _ else _) => destruct b
      | |- monotone (let '(_, _) := ?x in _) => destruct x
      end ].

(** ** The workflow templates *)

Section Templates.
Import CreateWorkflow.

Lemma unlines_cons (l : string) (ls : list string) :
  unlines (l :: ls) = l +:+ Py.nl +:+ unlines ls.
Proof. reflexivity. Qed.

Lemma unknown_tag_raises (tag repo : string) (b : option string) :
  tag ∉ known_tags →
  get_workflow_template tag repo b
  = Raise (ValueError ("Unknown project type: " +:+ tag)).
Proof.
  intros Hnot. unfold get_workflow_template.
  repeat case_decide; try reflexivity; subst tag;
    exfalso; apply Hnot; unfold known_tags; set_solver.
Qed.

(** C9: the text returned by [get_workflow_template] does not depend on its
    third argument [build_dir]: any two values, [None] included, give the
    same result for every tag and repository name. *)
Theorem template_ignores_build_dir (project_type repo_name : string)
    (build_dir build_dir' : option string) :
  get_workflow_template project_type repo_name build_dir
  = get_workflow_template project_type repo_name build_dir'.
Proof. unfold get_workflow_template. by repeat case_decide. Qed.

(** C5: for [react-vite] and [cra] the repository name [r] enters the text
    once, as the fragment [/r/] that ends the line of the base-path
    variable; the texts for [vanilla], [vue] and [nextjs] are the same for
    every repository name. *)
Theorem template_repo_name_fragment :
  (∃ pre post, ∀ r b,
      get_workflow_template "react-vite" r b
      = Ok (pre +:+ "VITE_BASE_URL: /" +:+ r +:+ "/" +:+ Py.nl +:+ post))
  ∧ (∃ pre post, ∀ r b,
      get_workflow_template "cra" r b
      = Ok (pre +:+ "PUBLIC_URL: /" +:+ r +:+ "/" +:+ Py.nl +:+ post))
  ∧ (∀ r r' b b',
      get_workflow_template "vanilla" r b = get_workflow_template "vanilla" r' b')
  ∧ (∀ r r' b b',
      get_workflow_template "vue" r b = get_workflow_template "vue" r' b')
  ∧ (∀ r r' b b',
      get_workflow_template "nextjs" r b = get_workflow_template "nextjs" r' b').
Proof.
  split; [| split; [| by repeat split]].
  - let t := eval cbv delta [react_vite_workflow] beta in
               (react_vite_workflow EmptyString) in
    match t with
    | unlines ?l =>
        exists (unlines (take 29 l) +:+ "          "), (unlines (drop 30 l))
    end.
    intros r b. unfold get_workflow_template.
    repeat case_decide; try done. f_equal.
    cbv [react_vite_workflow unlines foldr take drop blank].
    rewrite !string_app_assoc. reflexivity.
  - let t := eval cbv delta [cra_workflow] beta in (cra_workflow EmptyString) in
    match t with
    | unlines ?l =>
        exists (unlines (take 29 l) +:+ "          "), (unlines (drop 30 l))
    end.
    intros r b. unfold get_workflow_template.
    repeat case_decide; try done. f_equal.
    cbv [cra_workflow unlines foldr take drop blank].
    rewrite !string_app_assoc. reflexivity.
Qed.

End Templates.

(** ** The workflow generator *)

Section Generator.
Import CreateWorkflow.

(** With an unrecognised tag, [create_workflow] is the creation of the parent
    directories followed by the [ValueError] of the template selector. *)
Lemma create_workflow_unknown (tag repo : string) (output_path : option path)
    (w : world) :
  tag ∉ known_tags →
  create_workflow tag repo output_path w
  = (mkdir_parents (parent (resolved output_path w)) ;;
     raise (ValueError ("Unknown project type: " +:+ tag))) w.
Proof.
  intros Htag. unfold create_workflow, resolved, mbind, M_bind, path_cwd, mret, M_ret, lift.
  destruct output_path as [p|]; simpl;
    (destruct (mkdir_parents _ w) as [w1 [[]|e]]; [| done]);
    by rewrite unknown_tag_raises.
Qed.

(** C4, amended: with a tag outside the five, [get_workflow_template] raises
    the [ValueError] naming the tag, and [create_workflow] fails without
    writing a file: no regular file of the tree changes and no file is
    opened. The error of [create_workflow] is that [ValueError] when the
    parent directories of the output path exist or can be created, and the
    error of the directory creation otherwise. *)
Theorem unknown_tag_fails_without_writing (tag repo : string)
    (output_path : option path) (w : world) :
  tag ∉ known_tags →
  let out := resolved output_path w in
  get_workflow_template tag repo None
  = Raise (ValueError ("Unknown project type: " +:+ tag))
  ∧ ∃ w' e,
      create_workflow tag repo output_path w = (w', Raise e)
      ∧ e = match (mkdir_walk (parent out) [] (parent out) (files w) (locked w)).2 with
            | None => ValueError ("Unknown project type: " +:+ tag)
            | Some e' => e'
            end
      ∧ (∀ q d, files w' !! q = Some (File d) ↔ files w !! q = Some (File d))
      ∧ trace w' = trace w ++ [Mkdir (parent out)].
Proof.
  intros Htag out. split; [by apply unknown_tag_raises |].
  rewrite create_workflow_unknown by done. fold out.
  unfold mbind, M_bind, mkdir_parents, raise. simpl.
  destruct (mkdir_walk (parent out) [] (parent out) (files w) (locked w))
    as [fs r] eqn:Hwalk.
  pose proof (mkdir_walk_keeps_files _ _ _ _ _ _ _ Hwalk) as Hkeep.
  destruct r as [e|]; simpl; eexists _, _; (split; [reflexivity |]);
    simpl; repeat split; try done; apply Hkeep.
Qed.

(** C10: with an unrecognised tag, [create_workflow] still runs the creation
    of the parent directories of the output path before the tag is looked
    at. When nothing stands in their way they are directories afterwards,
    although the call raises the [ValueError] and writes no file. *)
Theorem unknown_tag_still_makes_dirs (tag repo : string)
    (output_path : option path) (w : world) :
  tag ∉ known_tags →
  let out := resolved output_path w in
  can_make_dirs (files w) (locked w) (parent out) = true →
  create_workflow tag repo output_path w
  = (mkdir_parents (parent out) ;;
     raise (ValueError ("Unknown project type: " +:+ tag))) w
  ∧ ∃ w',
      create_workflow tag repo output_path w
      = (w', Raise (ValueError ("Unknown project type: " +:+ tag)))
      ∧ stat (files w') (parent out) = Some Dir
      ∧ (∀ q d, files w' !! q = Some (File d) ↔ files w !! q = Some (File d))
      ∧ trace w' = trace w ++ [Mkdir (parent out)].
Proof.
  intros Htag out Hcan. split; [by apply create_workflow_unknown |].
  rewrite create_workflow_unknown by done. fold out.
  destruct (can_make_dirs_walk _ _ _ Hcan) as (fs & Hwalk & Hdir).
  pose proof (mkdir_walk_keeps_files _ _ _ _ _ _ _ Hwalk) as Hkeep.
  unfold mbind, M_bind, mkdir_parents, raise. simpl. rewrite Hwalk. simpl.
  eexists. split; [reflexivity |]. simpl. repeat split; try done; apply Hkeep.
Qed.

(** C4 as stated fails: when a regular file stands where a parent directory
    of the output path should be, the unrecognised tag [angular] is never
    looked at, and the error is that of the directory creation. *)
Lemma unknown_tag_error_is_not_always_ValueError :
("angular" ∉ known_tags)
  ∧ snd (create_workflow "angular" "game" (Some ["work"; "notes"; "deploy.yml"])
           checkout_with_notes)
    = Raise (FileExistsError ["work"; "notes"])
  ∧ ¬ ∃ msg,
      snd (create_workflow "angular" "game" (Some ["work"; "notes"; "deploy.yml"])
             checkout_with_notes)
      = Raise (ValueError msg).
Proof.
  split; [| split].
  - apply (bool_decide_unpack _). by vm_compute.
  - by vm_compute.
  - intros [msg Hrun]. vm_compute in Hrun. discriminate Hrun.
Qed.

(** C10 as stated fails: the creation of the parent directories comes first,
    but it can fail. With the unrecognised tag [angular], when a regular
    file stands where the parent directory should be, the call raises
    [FileExistsError] and that path is still the regular file; and when
    [.github] may not be created in the working directory, the call raises
    [PermissionError] and neither [.github] nor [.github/workflows] is there
    afterwards. *)
Lemma unknown_tag_may_leave_dirs_unmade :
("angular" ∉ known_tags)
  ∧ (let w := checkout_with_notes in
     let output_path := Some ["work"; "notes"; "deploy.yml"] in
     let r := create_workflow "angular" "game" output_path w in
     can_make_dirs (files w) (locked w) (parent (resolved output_path w)) = false
     ∧ r.2 = Raise (FileExistsError ["work"; "notes"])
     ∧ stat (files r.1) ["work"; "notes"] = Some (File (Text "todo"))
     ∧ trace r.1 = [Mkdir ["work"; "notes"]])
  ∧ (let w := sample_world [(["work"], Dir)] [["work"; ".github"]] [] in
     let r := create_workflow "angular" "game" None w in
     parent (resolved None w) = ["work"; ".github"; "workflows"]
     ∧ can_make_dirs (files w) (locked w) (parent (resolved None w)) = false
     ∧ r.2 = Raise (PermissionError ["work"; ".github"])
     ∧ stat (files r.1) ["work"; ".github"] = None
     ∧ stat (files r.1) ["work"; ".github"; "workflows"] = None
     ∧ trace r.1 = [Mkdir ["work"; ".github"; "workflows"]]).
Proof.
  split; [| split].
  - apply (bool_decide_unpack _). by vm_compute.
  - intros w output_path r.
    split; [by vm_compute |]. split; [by vm_compute |].
    split; by vm_compute.
  - intros w r.
    split; [by vm_compute |]. split; [by vm_compute |]. split; [by vm_compute |].
    split; [by vm_compute |]. split; by vm_compute.
Qed.

Lemma unknown_tag_fails_without_writing_witness :
("angular" ∉ known_tags)
  ∧ ∃ w' e,
      create_workflow "angular" "game" None fresh_checkout = (w', Raise e)
      ∧ e = ValueError "Unknown project type: angular"
      ∧ (∀ q d, files w' !! q = Some (File d)
                ↔ files fresh_checkout !! q = Some (File d))
      ∧ trace w' = [Mkdir ["work"; ".github"; "workflows"]].
Proof.
  assert (Htag : "angular" ∉ known_tags) by (apply (bool_decide_unpack _); by vm_compute).
  split; [exact Htag |].
  exact (proj2 (unknown_tag_fails_without_writing
                  "angular" "game" None fresh_checkout Htag)).
Defined.

Lemma unknown_tag_still_makes_dirs_witness :
  stat (files fresh_checkout) ["work"; ".github"; "workflows"] = None
  ∧ ∃ w',
      create_workflow "angular" "game" None fresh_checkout
      = (w', Raise (ValueError "Unknown project type: angular"))
      ∧ stat (files w') ["work"; ".github"; "workflows"] = Some Dir
      ∧ (∀ q d, files w' !! q = Some (File d)
                ↔ files fresh_checkout !! q = Some (File d))
      ∧ trace w' = [Mkdir ["work"; ".github"; "workflows"]].
Proof.
  split; [by vm_compute |].
  refine (proj2 (unknown_tag_still_makes_dirs
                   "angular" "game" None fresh_checkout _ _)).
  - apply (bool_decide_unpack _). by vm_compute.
  - by vm_compute.
Defined.

End Generator.

(** ** The package step *)

Section Package.
Import SyncSkill.

Lemma below_sublist (base : path) (l : list (path * node)) :
  (λ e : path * node, (base ++ e.1, e.2)) <$>
    omap (λ kv : path * node,
            match relative_to kv.1 base with
            | Some (c :: rel) => Some (c :: rel, kv.2)
            | _ => None
            end) l
  `sublist_of` l.
Proof.
  induction l as [|[k n] l IH]; simpl; [constructor |].
  destruct (relative_to k base) as [[|c rel]|] eqn:Hrel; simpl;
    try by apply sublist_cons.
  apply relative_to_Some in Hrel. subst k. by apply sublist_skip.
Qed.

(** No entry is listed twice. *)
Lemma below_NoDup (base : path) (fs : gmap path node) : NoDup (below base fs).*1.
Proof.
  assert (Hkeys : NoDup ((λ e : path * node, (base ++ e.1, e.2)) <$> below base fs).*1).
  { eapply sublist_NoDup; [apply (NoDup_fst_map_to_list fs) |].
    apply fmap_sublist, below_sublist. }
  rewrite <- list_fmap_compose in Hkeys.
  rewrite (list_fmap_ext _ ((base ++.) ∘ fst) (below base fs)) in Hkeys
    by done.
  rewrite list_fmap_compose in Hkeys.
  by apply NoDup_fmap_1 in Hkeys.
Qed.

Lemma regular_NoDup (es : list (path * node)) : NoDup es.*1 → NoDup (regular es).*1.
Proof.
  intros Hes. eapply sublist_NoDup; [exact Hes |].
  apply fmap_sublist, sublist_filter.
Qed.

Lemma elem_of_regular (e : path * node) (es : list (path * node)) :
  e ∈ regular es ↔ is_regular e.2 ∧ e ∈ es.
Proof. unfold regular. by rewrite list_elem_of_filter. Qed.

Lemma dest_not_package (skills rel : path) :
  skills // "github-pages-deploy" ++ rel ≠ skills // "github-pages-deploy.skill".
Proof.
  unfold child. rewrite <- app_assoc. intros Heq.
  apply app_inv_head in Heq. simpl in Heq. by simplify_eq.
Qed.

Lemma world_eta (w : world) :
  w = World (files w) (locked w) (process w) (stdin w) (trace w) (stdout w) (stderr w).
Proof. by destruct w. Qed.

(** The loop of [package_skill] over some entries below the destination:
    each regular file is appended to the archive under its path relative to
    the destination, and nothing else changes. *)
Lemma package_loop (skills : path) (mode : tar_mode) (es ms : list (path * node))
    (w : world) :
  let dest := skills // "github-pages-deploy" in
  let pkg := skills // "github-pages-deploy.skill" in
  files w !! pkg = Some (File (Archive mode ms)) →
  (∀ e, e ∈ es → e.1 ≠ [] ∧ files w !! (dest ++ e.1) = Some e.2) →
  for_each ((λ e : path * node, dest ++ e.1) <$> es)
    (λ item,
       regular ← is_file item;
       when regular
         (arcname ← path_relative_to item (parent dest // "github-pages-deploy");
          tar_add pkg item arcname)) w
  = (World (<[pkg := File (Archive mode (ms ++ regular es))]> (files w))
           (locked w) (process w) (stdin w)
           (trace w ++ ((λ e : path * node, TarAdd pkg (dest ++ e.1) e.1) <$> regular es))
           (stdout w) (stderr w),
     Ok tt).
Proof.
  intros dest pkg. revert ms w.
  induction es as [|[rel n] es IH]; intros ms w Hpkg Hin.
  - simpl. unfold mret, M_ret. rewrite !app_nil_r, insert_id by done.
    by rewrite <- world_eta.
  - destruct (Hin (rel, n)) as [Hrel Hlk]; [left |]. simpl in Hrel, Hlk.
    assert (Hstat : stat (files w) (dest ++ rel) = Some n).
    { rewrite stat_not_root; [done |]. by destruct dest. }
    rewrite fmap_cons. cbn [for_each fst snd].
    unfold mbind at 1. unfold M_bind at 1.
    unfold mbind at 1. unfold M_bind at 1. unfold is_file at 1.
    rewrite Hstat.
    destruct n as [d|].
    + unfold when. unfold mbind at 1. unfold M_bind at 1.
      assert (Hrt : path_relative_to (dest ++ rel) (parent dest // "github-pages-deploy")
                    = mret rel).
      { unfold path_relative_to, dest. by rewrite parent_child, relative_to_app. }
      rewrite Hrt. unfold mret at 1. unfold M_ret at 1.
      unfold tar_add. cbn [files log].
      rewrite decide_False by apply dest_not_package.
      rewrite Hstat, Hpkg.
      rewrite (IH (ms ++ [(rel, File d)]));
        cbn [files locked process stdin trace stdout stderr set_files log].
      * unfold regular. rewrite filter_cons_True by done.
        rewrite insert_insert_eq, <- !app_assoc. reflexivity.
      * by rewrite lookup_insert_eq.
      * intros e He. destruct (Hin e) as [? ?]; [by right |].
        split; [done |]. rewrite lookup_insert_ne; [done |].
        intros Heq. by apply (dest_not_package skills e.1).
    + unfold when, mret at 1. unfold M_ret at 1.
      rewrite (IH ms); [| done | intros e He; apply Hin; by right].
      unfold regular. by rewrite filter_cons_False by (simpl; tauto).
Qed.

(** What [package_skill] does when it is given the destination and its parent
    as [get_paths] forms them, when the parent and the destination are
    directories and the archive can be written. *)
Lemma package_skill_run (skills : path) (w : world) :
  let dest := skills // "github-pages-deploy" in
  let pkg := skills // "github-pages-deploy.skill" in
  stat (files w) skills = Some Dir →
  stat (files w) dest = Some Dir →
  stat (files w) pkg ≠ Some Dir →
  pkg ∉ locked w →
  ∃ w' ms,
    package_skill skills dest w = (w', Ok true)
    ∧ files w' = <[pkg := File (Archive TarPlain ms)]> (files w)
    ∧ (∀ arc n, (arc, n) ∈ ms
                ↔ arc ≠ [] ∧ is_regular n ∧ files w !! (dest ++ arc) = Some n)
    ∧ NoDup ms.*1
    ∧ trace w'
      = trace w
        ++ (if bool_decide (is_Some (stat (files w) pkg)) then [Unlink pkg] else [])
        ++ TarOpen pkg TarPlain
           :: ((λ e : path * node, TarAdd pkg (dest ++ e.1) e.1) <$> ms).
Proof.
  intros dest pkg Hskills Hdest Hpkg Hlock.
  assert (Hpkg0 : pkg ≠ []) by apply child_not_root.
  assert (Hdest0 : dest ≠ []) by apply child_not_root.
  rewrite stat_not_root in Hpkg, Hdest by done.
  rewrite (stat_not_root _ pkg) by done.
  set (fs1 := <[pkg := File (Archive TarPlain [])]> (files w)).
  assert (Hdest1 : fs1 !! dest = Some Dir).
  { unfold fs1. rewrite lookup_insert_ne; [done |].
    intros Heq. apply (dest_not_package skills []). by rewrite app_nil_r. }
  exists (World (<[pkg := File (Archive TarPlain (regular (below dest fs1)))]> (files w))
            (locked w) (process w) (stdin w)
            (trace w
             ++ (if bool_decide (is_Some (files w !! pkg)) then [Unlink pkg] else [])
             ++ TarOpen pkg TarPlain
                :: ((λ e : path * node, TarAdd pkg (dest ++ e.1) e.1)
                      <$> regular (below dest fs1)))
            (stdout w
             ++ (if bool_decide (is_Some (files w !! pkg))
                 then [[Lit "[INFO] Removed old package: "; ShowPath pkg]] else [])
             ++ [[Lit "[OK] Packaged skill to: "; ShowPath pkg];
                 [Lit "[OK] Package size: ";
                  ShowKb (File (Archive TarPlain (regular (below dest fs1))));
                  Lit " KB"]])
            (stderr w)),
         (regular (below dest fs1)).
  split; [| split; [done | split; [| split; [| done]]]].
  - unfold package_skill, try_except. fold dest pkg.
    set (old := bool_decide (is_Some (files w !! pkg))).
    set (wa := World (delete pkg (files w)) (locked w) (process w) (stdin w)
                     (trace w ++ (if old then [Unlink pkg] else []))
                     (stdout w ++ (if old
                                   then [[Lit "[INFO] Removed old package: "; ShowPath pkg]]
                                   else []))
                     (stderr w)).
    assert (Hremove :
      when old (unlink pkg ;; print [Lit "[INFO] Removed old package: "; ShowPath pkg]) w
      = (wa, Ok tt)).
    { unfold old, wa. destruct (files w !! pkg) as [[d|]|] eqn:Hlk; [| done |].
      - rewrite bool_decide_eq_true_2 by eauto.
        unfold when, mbind, M_bind, unlink, print. cbn [files log locked].
        rewrite stat_not_root, Hlk by done. by rewrite decide_False by done.
      - rewrite bool_decide_eq_false_2 by (by intros [? ?]).
        unfold when, mret, M_ret. rewrite delete_id, !app_nil_r by done.
        by rewrite <- world_eta. }
    set (w1 := World fs1 (locked w) (process w) (stdin w)
                     (trace wa ++ [TarOpen pkg TarPlain]) (stdout wa) (stderr w)).
    assert (Hopen : tar_open pkg TarPlain wa = (w1, Ok tt)).
    { unfold tar_open, create_file. cbn [files log locked wa].
      rewrite (stat_not_root _ pkg), lookup_delete_eq by done.
      replace (parent pkg) with skills by (unfold pkg; by rewrite parent_child).
      rewrite stat_delete_ne, Hskills.
      - rewrite decide_False by done. unfold w1, set_files, fs1.
        cbn [files locked process stdin trace stdout stderr wa log].
        by rewrite insert_delete_eq.
      - intros Heq. apply (f_equal length) in Heq. unfold pkg, child in Heq.
        rewrite length_app in Heq. simpl in Heq. lia. }
    assert (Hloop := package_loop skills TarPlain (below dest fs1) [] w1).
    cbv zeta in Hloop. fold dest pkg in Hloop.
    erewrite bind_run;
      [| unfold exists_; rewrite stat_not_root by done; reflexivity].
    erewrite bind_run by exact Hremove.
    erewrite bind_run by exact Hopen.
    erewrite bind_run;
      [| unfold rglob; cbn [files w1]; rewrite stat_not_root, Hdest1 by done;
         reflexivity].
    erewrite bind_run; cycle 1.
    { apply Hloop.
      - cbn [files w1]. unfold fs1. by rewrite lookup_insert_eq.
      - intros [rel n] He. by apply elem_of_below in He. }
    unfold mbind, M_bind, print, path_stat, mret, M_ret.
    cbn [files put_out locked process stdin trace stdout stderr w1 wa].
    rewrite stat_not_root, lookup_insert_eq by done.
    unfold put_out. cbn [files locked process stdin trace stdout stderr app].
    f_equal. f_equal.
    + unfold fs1. by rewrite insert_insert_eq.
    + by rewrite <- !app_assoc.
    + by rewrite <- !app_assoc.
  - intros arc n. rewrite elem_of_regular, elem_of_below. simpl.
    unfold fs1. rewrite lookup_insert_ne; [tauto |].
    intros Heq. by apply (dest_not_package skills arc).
  - apply regular_NoDup, below_NoDup.
Qed.

(** C2 as stated fails: [SKILL.md], directly below the destination, is
    added under the name [SKILL.md], not under
    [github-pages-deploy/SKILL.md], its path relative to the parent of the
    destination. *)
Lemma package_names_are_not_rooted_at_dest_name :
  let dest := sample_skills // "github-pages-deploy" in
  let pkg := sample_skills // "github-pages-deploy.skill" in
  let run := package_skill sample_skills dest installed_skill in
  run.2 = Ok true
  ∧ (is_file (dest // "SKILL.md") installed_skill).2 = Ok true
  ∧ relative_to (dest // "SKILL.md") (parent dest)
    = Some ["github-pages-deploy"; "SKILL.md"]
  ∧ (archive_members (files run.1) pkg).*1
    = [["scripts"; "create_workflow.py"]; ["SKILL.md"]]
  ∧ ¬ Forall (λ arcname, head arcname = Some (name dest))
        (archive_members (files run.1) pkg).*1.
Proof.
  intros dest pkg run.
  assert (Hnames : (archive_members (files run.1) pkg).*1
                   = [["scripts"; "create_workflow.py"]; ["SKILL.md"]])
    by by vm_compute.
  split; [by vm_compute |]. split; [by vm_compute |].
  split; [by vm_compute |]. split; [exact Hnames |].
  rewrite Hnames. intros Hall. apply Forall_cons in Hall as [Hhead _].
  vm_compute in Hhead. discriminate Hhead.
Qed.

(** C2, amended: every regular file below the destination is added to the
    archive under its path relative to the destination itself. *)
Theorem package_members_named_relative_to_dest (skills : path) (w : world) :
  let dest := skills // "github-pages-deploy" in
  let pkg := skills // "github-pages-deploy.skill" in
  stat (files w) skills = Some Dir →
  stat (files w) dest = Some Dir →
  stat (files w) pkg ≠ Some Dir →
  pkg ∉ locked w →
  ∃ w',
    package_skill skills dest w = (w', Ok true)
    ∧ ∀ rel d,
        rel ≠ [] →
        files w !! (dest ++ rel) = Some (File d) →
        relative_to (dest ++ rel) dest = Some rel
        ∧ TarAdd pkg (dest ++ rel) rel ∈ trace w'
        ∧ (rel, File d) ∈ archive_members (files w') pkg.
Proof.
  intros dest pkg Hskills Hdest Hpkg Hlock.
  destruct (package_skill_run skills w Hskills Hdest Hpkg Hlock)
    as (w' & ms & Hrun & Hfiles & Hms & _ & Htrace).
  exists w'. split; [exact Hrun |].
  intros rel d Hrel Hlk.
  assert (Hin : (rel, File d) ∈ ms) by by apply Hms.
  split; [apply relative_to_app | split].
  - fold dest pkg in Htrace. rewrite Htrace.
    apply elem_of_app. right. apply elem_of_app. right. right.
    apply (list_elem_of_fmap_2 (λ e : path * node, TarAdd pkg (dest ++ e.1) e.1)) in Hin.
    exact Hin.
  - unfold archive_members. fold dest pkg in Hfiles.
    by rewrite Hfiles, lookup_insert_eq.
Qed.

Lemma package_members_named_relative_to_dest_witness :
  let dest := sample_skills // "github-pages-deploy" in
  let pkg := sample_skills // "github-pages-deploy.skill" in
  ∃ w',
    package_skill sample_skills dest installed_skill = (w', Ok true)
    ∧ ∀ rel d,
        rel ≠ [] →
        files installed_skill !! (dest ++ rel) = Some (File d) →
        relative_to (dest ++ rel) dest = Some rel
        ∧ TarAdd pkg (dest ++ rel) rel ∈ trace w'
        ∧ (rel, File d) ∈ archive_members (files w') pkg.
Proof.
  apply (package_members_named_relative_to_dest sample_skills installed_skill).
  - by vm_compute.
  - by vm_compute.
  - by vm_compute.
  - apply (bool_decide_unpack _). by vm_compute.
Defined.

(** C3: [package_skill] first removes an archive already at the target path,
    then writes an uncompressed tar archive there. Its members are exactly
    the regular files below the destination directory, each once and under
    its path relative to that directory; directories are not members, and
    nothing else in the tree changes. *)
Theorem package_archive_contents (skills : path) (w : world) :
  let dest := skills // "github-pages-deploy" in
  let pkg := skills // "github-pages-deploy.skill" in
  stat (files w) skills = Some Dir →
  stat (files w) dest = Some Dir →
  stat (files w) pkg ≠ Some Dir →
  pkg ∉ locked w →
  ∃ w' ms,
    package_skill skills dest w = (w', Ok true)
    ∧ files w' !! pkg = Some (File (Archive TarPlain ms))
    ∧ (∀ arc n, (arc, n) ∈ ms
                ↔ arc ≠ [] ∧ ∃ d, n = File d ∧ files w !! (dest ++ arc) = Some (File d))
    ∧ NoDup ms.*1
    ∧ (∀ q, q ≠ pkg → files w' !! q = files w !! q)
    ∧ ∃ adds,
        trace w'
        = trace w
          ++ (if bool_decide (is_Some (stat (files w) pkg)) then [Unlink pkg] else [])
          ++ TarOpen pkg TarPlain :: adds.
Proof.
  intros dest pkg Hskills Hdest Hpkg Hlock.
  destruct (package_skill_run skills w Hskills Hdest Hpkg Hlock)
    as (w' & ms & Hrun & Hfiles & Hms & Hnodup & Htrace).
  fold dest pkg in Hfiles, Htrace.
  exists w', ms. split; [exact Hrun |].
  split; [by rewrite Hfiles, lookup_insert_eq |].
  split; [| split; [exact Hnodup | split]].
  - intros arc n. rewrite Hms. split.
    + intros (Harc & Hreg & Hlk). split; [done |].
      destruct n as [d|]; [| done]. by exists d.
    + by intros (Harc & d & -> & Hlk).
  - intros q Hq. by rewrite Hfiles, lookup_insert_ne.
  - eexists. exact Htrace.
Qed.

Lemma package_archive_contents_witness :
  let dest := sample_skills // "github-pages-deploy" in
  let pkg := sample_skills // "github-pages-deploy.skill" in
  archive_members (files installed_skill) pkg = [(["README.md"], File (Text "old"))]
  ∧ ∃ w' ms,
      package_skill sample_skills dest installed_skill = (w', Ok true)
      ∧ files w' !! pkg = Some (File (Archive TarPlain ms))
      ∧ (∀ arc n, (arc, n) ∈ ms
                  ↔ arc ≠ []
                    ∧ ∃ d, n = File d
                           ∧ files installed_skill !! (dest ++ arc) = Some (File d))
      ∧ NoDup ms.*1
      ∧ (∀ q, q ≠ pkg → files w' !! q = files installed_skill !! q)
      ∧ ∃ adds,
          trace w'
          = trace installed_skill
            ++ (if bool_decide (is_Some (stat (files installed_skill) pkg))
                then [Unlink pkg] else [])
            ++ TarOpen pkg TarPlain :: adds.
Proof.
  split; [by vm_compute |].
  apply (package_archive_contents sample_skills installed_skill).
  - by vm_compute.
  - by vm_compute.
  - by vm_compute.
  - apply (bool_decide_unpack _). by vm_compute.
Defined.

End Package.

(** ** The sync step *)

Section Sync.
Import SyncSkill.

(** Unfolds the monad of the scripts. *)
Ltac monad :=
  unfold mbind, M_bind, mret, M_ret, when, raise, lift, sys_exit,
         print, eprint, exists_, is_file, datetime_now, path_cwd, path_home,
         path_file; simpl.

(** C1: when the source directory does not exist, [sync_skill_files] reports
    it and returns [False] before any call that changes the tree: the files,
    the destination among them, and the trace of calls are as before. *)
Theorem sync_source_absent (source_skill dest_skill : path) (w : world) :
  stat (files w) source_skill = None →
  ∃ w',
    sync_skill_files source_skill dest_skill w = (w', Ok false)
    ∧ w' = put_out [Lit "[ERROR] Source skill directory not found: ";
                    ShowPath source_skill] w
    ∧ files w' = files w
    ∧ stat (files w') dest_skill = stat (files w) dest_skill
    ∧ trace w' = trace w.
Proof.
  intros Habsent. eexists. split; [| split; [reflexivity | done]].
  unfold sync_skill_files. monad. rewrite Habsent.
  rewrite bool_decide_eq_false_2; [done |]. by intros [? ?].
Qed.

Lemma sync_source_absent_witness :
  let dest := sample_skills // "github-pages-deploy" in
  stat (files installed_skill) dest = Some Dir
  ∧ ∃ w',
      sync_skill_files sample_source dest installed_skill = (w', Ok false)
      ∧ w' = put_out [Lit "[ERROR] Source skill directory not found: ";
                      ShowPath sample_source] installed_skill
      ∧ files w' = files installed_skill
      ∧ stat (files w') dest = stat (files installed_skill) dest
      ∧ trace w' = trace installed_skill.
Proof.
  split; [by vm_compute |].
  apply (sync_source_absent sample_source _ installed_skill).
  by vm_compute.
Defined.

End Sync.

(** ** The pipeline *)

Section Pipeline.
Import SyncSkill.

Lemma get_paths_run (w : world) :
  get_paths w = (w, Ok (project_dir_of w, source_of w, dest_of w, skills_of w)).
Proof.
  unfold get_paths, mbind, M_bind, path_file, path_home, mret, M_ret.
  by rewrite parent_child.
Qed.

Lemma files_say (ls : list (list frag)) (w : world) : files (say ls w) = files w.
Proof. revert w. induction ls as [|l ls IH]; intros w; simpl; [done | by rewrite IH]. Qed.

Lemma trace_say (ls : list (list frag)) (w : world) : trace (say ls w) = trace w.
Proof. revert w. induction ls as [|l ls IH]; intros w; simpl; [done | by rewrite IH]. Qed.

Lemma stdout_say (ls : list (list frag)) (w : world) :
  stdout (say ls w) = stdout w ++ ls.
Proof.
  revert w. induction ls as [|l ls IH]; intros w; simpl.
  - by rewrite app_nil_r.
  - rewrite IH. simpl. by rewrite <- app_assoc.
Qed.

Lemma copytree_catchable (src dst : path) : catchable (copytree src dst).
Proof.
  intros w w' e Hrun. unfold copytree in Hrun.
  repeat (case_match; simplify_eq); try done.
  by eapply mkdir_walk_raises_Exception.
Qed.

(** *** The scripts of [sync_skill.py] only add to the trace and the output *)

Lemma monotone_backup_skill (dest_skill : path) : monotone (backup_skill dest_skill).
Proof. unfold backup_skill. monotone_script. Qed.

Lemma monotone_sync_skill_files (source_skill dest_skill : path) :
  monotone (sync_skill_files source_skill dest_skill).
Proof. unfold sync_skill_files. monotone_script. Qed.

Lemma monotone_package_skill (skills_dir dest_skill : path) :
  monotone (package_skill skills_dir dest_skill).
Proof. unfold package_skill. monotone_script. Qed.

Lemma monotone_update_project_package (project_dir skills_dir : path) :
  monotone (update_project_package project_dir skills_dir).
Proof. unfold update_project_package. monotone_script. Qed.

Lemma monotone_show_summary (source_skill dest_skill : path)
    (success packaged updated_project : bool) :
  monotone (show_summary source_skill dest_skill success packaged updated_project).
Proof. unfold show_summary. monotone_script. Qed.

#[local] Hint Resolve monotone_backup_skill monotone_sync_skill_files
  monotone_package_skill monotone_update_project_package
  monotone_show_summary : monotone.

(** The state reached by the first call of a sequence is extended by the
    whole sequence. *)
Lemma bind_extends {A B} (m : M A) (k : A → M B) (w w1 : world) (r : result A) :
  m w = (w1, r) → (∀ a, monotone (k a)) → extends w1 ((m ≫= k) w).1.
Proof.
  intros Hm Hk. unfold mbind, M_bind. rewrite Hm.
  destruct r as [a|e]; simpl; [| apply extends_refl].
  destruct (k a w1) as [w2 r2] eqn:Hrun. simpl. by eapply Hk.
Qed.

(** *** The backup step *)

Lemma backup_absent (dest_skill : path) (w : world) :
  stat (files w) dest_skill = None →
  backup_skill dest_skill w
  = (put_out [Lit "[INFO] No existing skill found, skipping backup"] w, Ok None).
Proof.
  intros Habsent. unfold backup_skill, mbind, M_bind, exists_.
  rewrite Habsent. by rewrite bool_decide_eq_false_2 by (by intros [? ?]).
Qed.

Lemma backup_present (dest_skill : path) (w : world) :
  is_Some (stat (files w) dest_skill) →
  let backup_path :=
    parent dest_skill
    // (name dest_skill +:+ "_backup_" +:+ Py.strftime (clock (process w))) in
  ∃ wc r,
    copytree dest_skill backup_path w = (wc, r)
    ∧ backup_skill dest_skill w
      = match r with
        | Ok _ => (put_out [Lit "[OK] Created backup: "; ShowPath backup_path] wc,
                   Ok (Some backup_path))
        | Raise e => (put_out [Lit "[ERROR] Failed to create backup: "; ShowExn e] wc,
                      Ok None)
        end.
Proof.
  intros Hthere backup_path.
  destruct (copytree dest_skill backup_path w) as [wc r] eqn:Hcopy.
  exists wc, r. split; [done |].
  unfold backup_skill, mbind, M_bind, exists_, datetime_now, try_except.
  rewrite (bool_decide_eq_true_2 _ Hthere). cbn [negb].
  fold backup_path. rewrite Hcopy.
  destruct r as [[]|e]; [done |].
  by rewrite (copytree_catchable _ _ _ _ _ Hcopy).
Qed.

Lemma backup_skill_returns (dest_skill : path) (w : world) :
  ∃ wb backup, backup_skill dest_skill w = (wb, Ok backup).
Proof.
  destruct (stat (files w) dest_skill) as [n|] eqn:Hstat.
  - destruct (backup_present dest_skill w) as (wc & r & _ & Hrun); [by eauto |].
    rewrite Hrun. destruct r; eauto.
  - rewrite backup_absent by done. eauto.
Qed.

(** Runs [main] up to the answer [s] it reads. *)
Ltac main_until_answer w Hin Hsrc :=
  unfold main;
  do 3 (erewrite bind_run by reflexivity);
  erewrite bind_run by apply get_paths_run;
  cbv beta iota;
  change (project_dir_of (put_out _ _)) with (project_dir_of w);
  change (source_of (put_out _ _)) with (source_of w);
  change (dest_of (put_out _ _)) with (dest_of w);
  change (skills_of (put_out _ _)) with (skills_of w);
  do 3 (erewrite bind_run by reflexivity);
  erewrite bind_run by reflexivity;
  cbn [files put_out];
  rewrite (bool_decide_eq_true_2 _ Hsrc);
  do 3 (erewrite bind_run by reflexivity);
  erewrite bind_run
    by (unfold input; cbn [stdin put_out]; rewrite Hin; reflexivity).

(** Runs [main] from the answer to the end of the backup step. *)
Ltac main_through_backup Haff Hbackup :=
  unfold affirmative in Haff; rewrite Haff;
  do 2 (erewrite bind_run by reflexivity);
  erewrite bind_run by exact Hbackup;
  erewrite bind_run by reflexivity.

(** Once the answer is a yes, [main] reaches the sync step whatever the
    backup step did. *)
Lemma main_reaches_sync (w : world) (s : string) (rest : list tty) :
  stdin w = Typed s :: rest →
  is_Some (stat (files w) (source_of w)) →
  affirmative s = true →
  ∃ wb backup ws r,
    backup_skill (dest_of w) (put_out step1 (asked w rest)) = (wb, Ok backup)
    ∧ sync_skill_files (source_of w) (dest_of w) (put_out step2 wb) = (ws, r)
    ∧ extends ws (main w).1.
Proof.
  intros Hin Hsrc Haff.
  destruct (backup_skill_returns (dest_of w) (put_out step1 (asked w rest)))
    as (wb & backup & Hbackup).
  destruct (sync_skill_files (source_of w) (dest_of w) (put_out step2 wb))
    as [ws r] eqn:Hsync.
  exists wb, backup, ws, r. split; [done | split; [done |]].
  main_until_answer w Hin Hsrc. main_through_backup Haff Hbackup.
  eapply bind_extends; [exact Hsync |].
  monotone_script.
Qed.

(** Splitting a run into its state and its result. *)
Lemma run_eq {A} (x : world * result A) (r : result A) : x.2 = r → x = (x.1, r).
Proof. destruct x. simpl. by intros ->. Qed.

(** C6: [backup_skill] returns nothing, and changes nothing, when the
    destination does not exist. When it exists, the destination is copied to
    the sibling path named after it with the suffix [_backup_] and the time
    to the second, and that path is returned; when the copy fails the
    exception is caught and nothing is returned. Whatever the backup step
    did, [main] goes on to the sync step. *)
Theorem backup_step_is_soft :
  (∀ dest w,
     stat (files w) dest = None →
     backup_skill dest w
     = (put_out [Lit "[INFO] No existing skill found, skipping backup"] w, Ok None))
  ∧ (∀ dest w,
       is_Some (stat (files w) dest) →
       let backup_path :=
         parent dest // (name dest +:+ "_backup_" +:+ Py.strftime (clock (process w))) in
       parent backup_path = parent dest
       ∧ ∃ wc r,
           copytree dest backup_path w = (wc, r)
           ∧ backup_skill dest w
             = match r with
               | Ok _ =>
                   (put_out [Lit "[OK] Created backup: "; ShowPath backup_path] wc,
                    Ok (Some backup_path))
               | Raise e =>
                   (put_out [Lit "[ERROR] Failed to create backup: "; ShowExn e] wc,
                    Ok None)
               end)
  ∧ (∀ y mo d h mi sec us us',
       Py.strftime (Py.Datetime y mo d h mi sec us)
       = Py.strftime (Py.Datetime y mo d h mi sec us'))
  ∧ (∀ dest w, ∃ wb backup, backup_skill dest w = (wb, Ok backup))
  ∧ (∀ w s rest,
       stdin w = Typed s :: rest →
       is_Some (stat (files w) (source_of w)) →
       affirmative s = true →
       ∃ wb backup ws r,
         backup_skill (dest_of w) (put_out step1 (asked w rest)) = (wb, Ok backup)
         ∧ sync_skill_files (source_of w) (dest_of w) (put_out step2 wb) = (ws, r)
         ∧ extends ws (main w).1).
Proof.
  split; [exact backup_absent |].
  split; [| split; [done | split; [exact backup_skill_returns | exact main_reaches_sync]]].
  intros dest w Hthere backup_path.
  split; [apply parent_child | by apply backup_present].
Qed.

Lemma backup_step_is_soft_witness :
  let w := reinstall [Typed "y"] in
  let w1 := put_out step1 (asked w []) in
  let backup_path := sample_skills // "github-pages-deploy_backup_20260115_093007" in
  (backup_skill (dest_of w) w1).2 = Ok (Some backup_path)
  ∧ (parent backup_path = parent (dest_of w)
     ∧ ∃ wc r,
         copytree (dest_of w) backup_path w1 = (wc, r)
         ∧ backup_skill (dest_of w) w1
           = match r with
             | Ok _ =>
                 (put_out [Lit "[OK] Created backup: "; ShowPath backup_path] wc,
                  Ok (Some backup_path))
             | Raise e =>
                 (put_out [Lit "[ERROR] Failed to create backup: "; ShowExn e] wc,
                  Ok None)
             end)
  ∧ ∃ wb backup ws r,
      backup_skill (dest_of w) w1 = (wb, Ok backup)
      ∧ sync_skill_files (source_of w) (dest_of w) (put_out step2 wb) = (ws, r)
      ∧ extends ws (main w).1.
Proof.
  intros w w1 backup_path.
  destruct backup_step_is_soft as (_ & Hpresent & _ & _ & Hmain).
  split; [by vm_compute | split].
  - apply (Hpresent (dest_of w) w1). vm_compute. by eexists.
  - apply (Hmain w "y" []).
    + reflexivity.
    + vm_compute. by eexists.
    + by vm_compute.
Defined.

(** C7 as stated fails: the answer [Y] is neither [y] nor [yes], and the
    tool takes it for a yes and installs the skill. *)
Lemma uppercase_answer_is_taken_for_yes :
  let w := first_install [Typed "Y"] in
  ("Y" ∉ ["y"; "yes"])
  ∧ (run w).2 = 0%Z
  ∧ stat (files w) (dest_of w) = None
  ∧ stat (files (run w).1) (dest_of w) = Some Dir
  ∧ trace w = []
  ∧ head (trace (run w).1) = Some (Mkdir sample_skills).
Proof.
  intros w.
  split; [apply (bool_decide_unpack _); by vm_compute |].
  split; [by vm_compute |]. split; [by vm_compute |].
  split; [by vm_compute |]. split; by vm_compute.
Qed.

(** C7, amended: when the answer, stripped and in lower case, is neither [y]
    nor [yes], the tool says so and exits with status 0; no call that
    changes the tree was issued and the files are as before. The question is
    asked only when the source directory exists. *)
Theorem declined_run_changes_nothing (w : world) (s : string) (rest : list tty) :
  stdin w = Typed s :: rest →
  is_Some (stat (files w) (source_of w)) →
  affirmative s = false →
  ∃ w',
    run w = (w', 0%Z)
    ∧ main w = (w', Raise (SystemExit 0))
    ∧ w' = put_out [Lit "[INFO] Sync cancelled."] (asked w rest)
    ∧ files w' = files w
    ∧ trace w' = trace w.
Proof.
  intros Hin Hsrc Haff.
  assert (Hmain : main w = (put_out [Lit "[INFO] Sync cancelled."] (asked w rest),
                            Raise (SystemExit 0))).
  { main_until_answer w Hin Hsrc. unfold affirmative in Haff. rewrite Haff.
    by erewrite bind_raise by reflexivity. }
  eexists. split; [| split; [exact Hmain | split; [reflexivity |]]].
  - unfold run. by rewrite Hmain.
  - unfold asked, put_out, set_stdin. cbn [files trace].
    split; [apply files_say | apply trace_say].
Qed.

Lemma declined_run_changes_nothing_witness :
  let w := first_install [Typed " No "] in
  ∃ w',
    run w = (w', 0%Z)
    ∧ main w = (w', Raise (SystemExit 0))
    ∧ w' = put_out [Lit "[INFO] Sync cancelled."] (asked w [])
    ∧ files w' = files w
    ∧ trace w' = trace w.
Proof.
  intros w. apply (declined_run_changes_nothing w " No " []).
  - reflexivity.
  - vm_compute. by eexists.
  - by vm_compute.
Defined.

(** C8: in a run in which the sync step returns [True] and the package step
    returns [False], [update_project_package] is not called: after the
    package step no call that changes the tree is issued and the files stay
    as they are. The summary is that of [show_summary] with the flags
    [True], [False], [False]: the status line says [SUCCESS] and there is
    neither a [Packaged] nor a [Project] line. The run ends with status 0. *)
Theorem summary_after_failed_packaging (w : world) (s : string) (rest : list tty)
    (wb ws wp : world) (backup : option path) :
  stdin w = Typed s :: rest →
  is_Some (stat (files w) (source_of w)) →
  affirmative s = true →
  backup_skill (dest_of w) (put_out step1 (asked w rest)) = (wb, Ok backup) →
  sync_skill_files (source_of w) (dest_of w) (put_out step2 wb) = (ws, Ok true) →
  package_skill (skills_of w) (dest_of w) (put_out step3 ws) = (wp, Ok false) →
  ∃ w',
    main w = (w', Ok tt)
    ∧ run w = (w', 0%Z)
    ∧ files w' = files wp
    ∧ trace w' = trace wp
    ∧ stdout w'
      = stdout wp
        ++ step4 :: summary_synced_only (source_of w) (dest_of w) ++ closing backup
    ∧ ∀ w0,
        show_summary (source_of w) (dest_of w) true false false w0
        = (say (summary_synced_only (source_of w) (dest_of w)) w0, Ok tt).
Proof.
  intros Hin Hsrc Haff Hbackup Hsync Hpackage.
  assert (Hmain :
    main w
    = (say (step4 :: summary_synced_only (source_of w) (dest_of w) ++ closing backup) wp,
       Ok tt)).
  { main_until_answer w Hin Hsrc. main_through_backup Haff Hbackup.
    erewrite bind_run by exact Hsync.
    do 2 (erewrite bind_run by reflexivity).
    erewrite bind_run by exact Hpackage.
    do 3 (erewrite bind_run by reflexivity).
    by destruct backup. }
  eexists. split; [exact Hmain |].
  split; [unfold run; by rewrite Hmain |].
  split; [apply files_say |]. split; [apply trace_say |].
  split; [apply stdout_say | done].
Qed.

Lemma summary_after_failed_packaging_witness :
  let w := archive_locked [Typed "yes"] in
  let wb := (backup_skill (dest_of w) (put_out step1 (asked w []))).1 in
  let ws := (sync_skill_files (source_of w) (dest_of w) (put_out step2 wb)).1 in
  let wp := (package_skill (skills_of w) (dest_of w) (put_out step3 ws)).1 in
  ∃ w',
    main w = (w', Ok tt)
    ∧ run w = (w', 0%Z)
    ∧ files w' = files wp
    ∧ trace w' = trace wp
    ∧ stdout w'
      = stdout wp
        ++ step4 :: summary_synced_only (source_of w) (dest_of w) ++ closing None
    ∧ ∀ w0,
        show_summary (source_of w) (dest_of w) true false false w0
        = (say (summary_synced_only (source_of w) (dest_of w)) w0, Ok tt).
Proof.
  intros w wb ws wp.
  apply (summary_after_failed_packaging w "yes" [] wb ws wp None).
  - reflexivity.
  - vm_compute. by eexists.
  - by vm_compute.
  - subst wb. apply run_eq. by vm_compute.
  - subst ws. apply run_eq. by vm_compute.
  - subst wp. apply run_eq. by vm_compute.
Defined.

End Pipeline.

(** * More on the two scripts *)

(** ** Paths and directory creation *)

Lemma path_split (p : path) : p ≠ [] → p = parent p // name p.
Proof.
  intros Hp. unfold parent, child, name.
  destruct (exists_last Hp) as (q & c & ->).
  by rewrite removelast_last, last_snoc.
Qed.

Lemma prefix_of_parent (p : path) : parent p `prefix_of` p.
Proof.
  destruct (decide (p = [])) as [-> | Hp]; [done |].
  rewrite (path_split p Hp) at 2. by apply prefix_app_r.
Qed.

Lemma not_prefix_of_parent (p : path) : p ≠ [] → ¬ p `prefix_of` parent p.
Proof.
  intros Hp Hpre. apply prefix_length in Hpre.
  rewrite (path_split p Hp) in Hpre at 1. unfold child in Hpre.
  rewrite length_app in Hpre. simpl in Hpre. lia.
Qed.

(** [mkdir_walk] changes nothing off the path it walks. *)
Lemma mkdir_walk_outside (p rest pre : path) (fs fs' : gmap path node)
    (lk : gset path) (r : option exn) (q : path) :
  mkdir_walk p pre rest fs lk = (fs', r) →
  ¬ q `prefix_of` pre ++ rest →
  fs' !! q = fs !! q.
Proof.
  revert pre fs. induction rest as [|c rest IH]; intros pre fs Hwalk Hq; simpl in Hwalk.
  - congruence.
  - assert (Hq' : ¬ q `prefix_of` (pre ++ [c]) ++ rest) by by rewrite <- app_assoc.
    assert (Hne : q ≠ pre ++ [c]).
    { intros ->. apply Hq'. by apply prefix_app_r. }
    destruct (fs !! (pre ++ [c])) as [[d|]|] eqn:Hlk.
    + congruence.
    + by apply (IH _ _ Hwalk).
    + case_decide; [congruence |].
      rewrite (IH _ _ Hwalk Hq'). by rewrite lookup_insert_ne.
Qed.

(** After a walk that succeeded, the whole way is made of directories. *)
Lemma mkdir_walk_dirs (p rest pre : path) (fs fs' : gmap path node) (lk : gset path) :
  mkdir_walk p pre rest fs lk = (fs', None) →
  ∀ k, 1 ≤ k ≤ length rest → fs' !! (pre ++ take k rest) = Some Dir.
Proof.
  revert pre fs. induction rest as [|c rest IH]; intros pre fs Hwalk k Hk;
    simpl in Hwalk, Hk; [lia |].
  destruct k as [|k]; [lia |]. simpl.
  replace (pre ++ c :: take k rest) with ((pre ++ [c]) ++ take k rest)
    by by rewrite <- app_assoc.
  destruct (fs !! (pre ++ [c])) as [[d|]|] eqn:Hlk.
  - destruct rest; congruence.
  - destruct k as [|k].
    + rewrite take_0, app_nil_r.
      destruct (mkdir_walk_frame _ _ _ _ _ _ _ Hwalk (pre ++ [c])) as [-> | [? ?]];
        congruence.
    + apply (IH _ _ Hwalk). lia.
  - case_decide; [congruence |].
    destruct k as [|k].
    + rewrite take_0, app_nil_r.
      destruct (mkdir_walk_frame _ _ _ _ _ _ _ Hwalk (pre ++ [c])) as [-> | [? ?]];
        [by rewrite lookup_insert_eq | done].
    + apply (IH _ _ Hwalk). lia.
Qed.

(** A walk along directories that are all there changes nothing. *)
Lemma mkdir_walk_noop (p rest pre : path) (fs : gmap path node) (lk : gset path) :
  (∀ k, 1 ≤ k ≤ length rest → fs !! (pre ++ take k rest) = Some Dir) →
  mkdir_walk p pre rest fs lk = (fs, None).
Proof.
  revert pre. induction rest as [|c rest IH]; intros pre Hdirs; simpl; [done |].
  assert (H1 := Hdirs 1). simpl in H1. rewrite take_0 in H1.
  rewrite H1 by lia. apply IH.
  intros k Hk. rewrite <- app_assoc. apply (Hdirs (S k)). simpl. lia.
Qed.

Lemma create_file_ok (p : path) (d : data) (w : world) :
  stat (files w) p ≠ Some Dir →
  stat (files w) (parent p) = Some Dir →
  p ∉ locked w →
  create_file p d w = (set_files (<[p := File d]>) w, Ok tt).
Proof.
  intros Hp Hparent Hlock. unfold create_file. rewrite Hparent.
  rewrite decide_False by done.
  by destruct (stat (files w) p) as [[?|]|].
Qed.

(** ** Which exceptions the calls raise *)

Lemma catchable_ret {A} (a : A) : catchable (mret a).
Proof. intros w w' e Hrun. discriminate Hrun. Qed.

Lemma catchable_bind {A B} (m : M A) (k : A → M B) :
  catchable m → (∀ a, catchable (k a)) → catchable (m ≫= k).
Proof.
  intros Hm Hk w w' e. unfold mbind, M_bind.
  destruct (m w) as [w1 [a|e1]] eqn:Hrun.
  - by apply Hk.
  - intros [= <- <-]. by eapply Hm.
Qed.

Lemma catchable_try_except {A} (body : M A) (handler : exn → M A) :
  catchable body → (∀ e, catchable (handler e)) → catchable (try_except body handler).
Proof.
  intros Hb Hh w w' e. unfold try_except.
  destruct (body w) as [w1 [a|e1]] eqn:Hrun; [done |].
  rewrite (Hb _ _ _ Hrun). by apply Hh.
Qed.

Lemma catchable_when (b : bool) (body : M unit) :
  catchable body → catchable (when b body).
Proof. intros Hb. destruct b; [done | apply catchable_ret]. Qed.

Lemma catchable_for_each {A} (xs : list A) (body : A → M unit) :
  (∀ x, catchable (body x)) → catchable (for_each xs body).
Proof.
  intros Hb. induction xs as [|x xs IH]; simpl.
  - apply catchable_ret.
  - by apply catchable_bind.
Qed.

(** Settles a library call by its cases. *)
Ltac catchable_call :=
  intros ? ? ? Hrun; cbv beta zeta in Hrun;
  repeat (case_match; simplify_eq); simplify_eq;
  first [ done | by eapply mkdir_walk_raises_Exception ].

Lemma catchable_lift {A} (r : result A) :
  (∀ e, r = Raise e → is_Exception e = true) → catchable (lift r).
Proof. intros Hr w w' e [= <- ->]. by apply Hr. Qed.

Lemma catchable_print (l : list frag) : catchable (print l).
Proof. unfold print. catchable_call. Qed.

Lemma catchable_eprint (l : list frag) : catchable (eprint l).
Proof. unfold eprint. catchable_call. Qed.

Lemma catchable_datetime_now : catchable datetime_now.
Proof. unfold datetime_now. catchable_call. Qed.

Lemma catchable_path_cwd : catchable path_cwd.
Proof. unfold path_cwd. catchable_call. Qed.

Lemma catchable_path_home : catchable path_home.
Proof. unfold path_home. catchable_call. Qed.

Lemma catchable_path_file : catchable path_file.
Proof. unfold path_file. catchable_call. Qed.

Lemma catchable_exists (p : path) : catchable (exists_ p).
Proof. unfold exists_. catchable_call. Qed.

Lemma catchable_is_file (p : path) : catchable (is_file p).
Proof. unfold is_file. catchable_call. Qed.

Lemma catchable_mkdir_parents (p : path) : catchable (mkdir_parents p).
Proof. unfold mkdir_parents. catchable_call. Qed.

Lemma catchable_rmtree (p : path) : catchable (rmtree p).
Proof. unfold rmtree. catchable_call. Qed.

Lemma catchable_unlink (p : path) : catchable (unlink p).
Proof. unfold unlink. catchable_call. Qed.

Lemma catchable_create_file (p : path) (d : data) : catchable (create_file p d).
Proof. unfold create_file. catchable_call. Qed.

Lemma catchable_write_text (p : path) (s : string) : catchable (write_text p s).
Proof. intros w w' e Hrun. by eapply catchable_create_file. Qed.

Lemma catchable_tar_open (p : path) (mode : tar_mode) : catchable (tar_open p mode).
Proof. intros w w' e Hrun. by eapply catchable_create_file. Qed.

Lemma catchable_tar_add (archive item arcname : path) :
  catchable (tar_add archive item arcname).
Proof. unfold tar_add. catchable_call. Qed.

Lemma catchable_rglob (p : path) : catchable (rglob p).
Proof. unfold rglob. catchable_call. Qed.

Lemma catchable_path_stat (p : path) : catchable (path_stat p).
Proof. unfold path_stat. catchable_call. Qed.

Lemma catchable_path_relative_to (item base : path) :
  catchable (path_relative_to item base).
Proof.
  unfold path_relative_to. destruct (relative_to item base).
  - apply catchable_ret.
  - by intros w w' e [= _ <-].
Qed.

Lemma catchable_copy2 (src dst : path) : catchable (copy2 src dst).
Proof.
  intros w w' e Hrun. unfold copy2 in Hrun.
  repeat (case_match; simplify_eq); try done; by eapply catchable_create_file.
Qed.

Create HintDb catchable.
#[local] Hint Resolve catchable_ret catchable_print catchable_eprint
  catchable_datetime_now catchable_path_cwd catchable_path_home
  catchable_path_file catchable_exists catchable_is_file
  catchable_mkdir_parents catchable_rmtree catchable_unlink catchable_create_file
  catchable_write_text catchable_tar_open catchable_tar_add catchable_rglob
  catchable_path_stat catchable_path_relative_to catchable_copy2
  copytree_catchable : catchable.

(** Walks through a script, call by call. *)
Ltac catchable_script :=
  repeat first
    [ progress intros
    | apply catchable_bind
    | apply catchable_try_except
    | apply catchable_when
    | apply catchable_for_each
    | solve [auto with catchable]
    | match goal with
      | |- catchable (match ?x with _ => _ end) => destruct x
      | |- catchable (if ?b then _ else _) => destruct b
      end ].

(** ** The workflow generator, from the tag to the command line *)

Section GeneratorRuns.
Import CreateWorkflow.

(** X1: [get_workflow_template] returns a text exactly for the five tags. *)
Theorem template_exists_iff_known (tag repo : string) (b : option string) :
  (∃ text, get_workflow_template tag repo b = Ok text) ↔ tag ∈ known_tags.
Proof.
  split.
  - intros [text Htext]. destruct (decide (tag ∈ known_tags)) as [|Hnot]; [done |].
    by rewrite unknown_tag_raises in Htext.
  - unfold known_tags. rewrite !elem_of_cons, elem_of_nil.
    intros [-> | [-> | [-> | [-> | [-> | []]]]]]; by eexists.
Qed.

Lemma get_workflow_template_catchable (tag repo : string) (b : option string) (e : exn) :
  get_workflow_template tag repo b = Raise e → is_Exception e = true.
Proof.
  unfold get_workflow_template. repeat case_decide; try done. by intros [= <-].
Qed.

Lemma create_workflow_catchable (tag repo : string) (output_path : option path) :
  catchable (create_workflow tag repo output_path).
Proof.
  unfold create_workflow. catchable_script.
  apply catchable_lift, get_workflow_template_catchable.
Qed.

(** The run of [create_workflow] with a recognised tag, when the directories
    can be made and the file can be written. *)
Lemma create_workflow_run (tag repo text : string) (output_path : option path)
    (w : world) :
  let out := resolved output_path w in
  get_workflow_template tag repo None = Ok text →
  can_make_dirs (files w) (locked w) (parent out) = true →
  stat (files w) out ≠ Some Dir →
  out ∉ locked w →
  ∃ fs,
    mkdir_walk (parent out) [] (parent out) (files w) (locked w) = (fs, None)
    ∧ stat fs (parent out) = Some Dir
    ∧ create_workflow tag repo output_path w
      = (World (<[out := File (Text text)]> fs) (locked w) (process w) (stdin w)
               (trace w ++ [Mkdir (parent out); OpenW out])
               (stdout w ++ [[Lit "[OK] Created GitHub Actions workflow at: ";
                              ShowPath out]])
               (stderr w),
         Ok out).
Proof.
  intros out Htext Hcan Hout Hlock.
  destruct (can_make_dirs_walk _ _ _ Hcan) as (fs & Hwalk & Hdir).
  exists fs. split; [done | split; [done |]].
  assert (Hroot : out ≠ []) by (by intros Heq; rewrite Heq in Hout).
  assert (Hsame : fs !! out = files w !! out).
  { eapply mkdir_walk_outside; [exact Hwalk |]. by apply not_prefix_of_parent. }
  assert (Hresolve :
    (match output_path with
     | None => cwd ← path_cwd; mret (cwd // ".github" // "workflows" // "deploy.yml")
     | Some p => mret p
     end) w = (w, Ok out)).
  { unfold out, resolved. by destruct output_path. }
  unfold create_workflow.
  erewrite bind_run by exact Hresolve.
  erewrite bind_run by (unfold mkdir_parents; cbn [files locked log];
                        rewrite Hwalk; reflexivity).
  erewrite bind_run by (unfold lift; rewrite Htext; reflexivity).
  erewrite bind_run; cycle 1.
  { unfold write_text. apply create_file_ok; cbn [files locked log set_files].
    - by rewrite stat_not_root, Hsame, <- stat_not_root.
    - done.
    - done. }
  unfold mbind, M_bind, print, mret, M_ret, set_files, log, put_out.
  cbn [files locked process stdin trace stdout stderr].
  by rewrite <- app_assoc.
Qed.

(** X2: with a recognised tag, when the parent directories exist or can be
    made and the output path is neither a directory nor locked,
    [create_workflow] returns the output path, and afterwards the file there
    holds the text of [get_workflow_template]; its parent is a directory; no
    other regular file appeared, changed or went away. *)
Theorem create_workflow_writes_template (tag repo text : string)
    (output_path : option path) (w : world) :
  let out := resolved output_path w in
  get_workflow_template tag repo None = Ok text →
  can_make_dirs (files w) (locked w) (parent out) = true →
  stat (files w) out ≠ Some Dir →
  out ∉ locked w →
  ∃ w',
    create_workflow tag repo output_path w = (w', Ok out)
    ∧ files w' !! out = Some (File (Text text))
    ∧ stat (files w') (parent out) = Some Dir
    ∧ (∀ q d, q ≠ out →
         files w' !! q = Some (File d) ↔ files w !! q = Some (File d))
    ∧ trace w' = trace w ++ [Mkdir (parent out); OpenW out].
Proof.
  intros out Htext Hcan Hout Hlock.
  destruct (create_workflow_run tag repo text output_path w Htext Hcan Hout Hlock)
    as (fs & Hwalk & Hdir & Hrun).
  fold out in Hwalk, Hdir, Hrun.
  eexists. split; [exact Hrun |]. cbn [files trace].
  assert (Hroot : out ≠ []) by (by intros Heq; rewrite Heq in Hout).
  split; [by rewrite lookup_insert_eq |].
  split; [| split; [| done]].
  - rewrite stat_insert_ne; [done |].
    intros Heq. apply (not_prefix_of_parent out Hroot). by rewrite Heq.
  - intros q d Hq. rewrite lookup_insert_ne by done.
    by apply (mkdir_walk_keeps_files _ _ _ _ _ _ _ Hwalk).
Qed.

(** X3: a second run of [create_workflow] with the same arguments succeeds
    as the first did and leaves the files exactly as the first run left
    them. *)
Theorem create_workflow_twice (tag repo text : string)
    (output_path : option path) (w : world) :
  let out := resolved output_path w in
  get_workflow_template tag repo None = Ok text →
  can_make_dirs (files w) (locked w) (parent out) = true →
  stat (files w) out ≠ Some Dir →
  out ∉ locked w →
  ∃ w1 w2,
    create_workflow tag repo output_path w = (w1, Ok out)
    ∧ create_workflow tag repo output_path w1 = (w2, Ok out)
    ∧ files w2 = files w1.
Proof.
  intros out Htext Hcan Hout Hlock.
  destruct (create_workflow_run tag repo text output_path w Htext Hcan Hout Hlock)
    as (fs & Hwalk & Hdir & Hrun).
  fold out in Hwalk, Hdir, Hrun.
  assert (Hroot : out ≠ []) by (by intros Heq; rewrite Heq in Hout).
  assert (Hne : ∀ k, take k (parent out) ≠ out).
  { intros k Heq. apply (not_prefix_of_parent out Hroot).
    pose proof (prefix_take (parent out) k) as Hpre. by rewrite Heq in Hpre. }
  set (w1 := World (<[out := File (Text text)]> fs) (locked w) (process w) (stdin w)
                   (trace w ++ [Mkdir (parent out); OpenW out])
                   (stdout w ++ [[Lit "[OK] Created GitHub Actions workflow at: ";
                                  ShowPath out]])
                   (stderr w)) in *.
  assert (Hout1 : resolved output_path w1 = out) by done.
  assert (Hdirs : ∀ k, 1 ≤ k ≤ length (parent out) →
                       files w1 !! ([] ++ take k (parent out)) = Some Dir).
  { intros k Hk.
    change (<[out := File (Text text)]> fs !! take k (parent out) = Some Dir).
    rewrite lookup_insert_ne by (by apply not_eq_sym).
    apply (mkdir_walk_dirs _ _ _ _ _ _ Hwalk k Hk). }
  destruct (create_workflow_run tag repo text output_path w1) as (fs2 & Hwalk2 & _ & Hrun2).
  - done.
  - rewrite Hout1. unfold can_make_dirs. apply forallb_forall.
    intros k Hk. apply in_seq in Hk. unfold passable.
    assert (Hd : files w1 !! take k (parent out) = Some Dir)
      by (apply (Hdirs k); lia).
    by rewrite Hd.
  - rewrite Hout1. cbn [files w1]. by rewrite stat_not_root, lookup_insert_eq.
  - by rewrite Hout1.
  - rewrite Hout1 in Hwalk2, Hrun2.
    rewrite (mkdir_walk_noop _ _ _ _ _ Hdirs) in Hwalk2.
    injection Hwalk2 as <-.
    eexists w1, _. split; [exact Hrun | split; [exact Hrun2 |]].
    cbn [files w1]. by rewrite insert_insert_eq.
Qed.

(** X4: whatever its arguments and however it ends, [create_workflow] leaves
    every entry of the tree other than the output path as it was, and adds
    no regular file other than the output file. *)
Theorem create_workflow_keeps_other_files (tag repo : string)
    (output_path : option path) (w w' : world) (r : result path) :
  create_workflow tag repo output_path w = (w', r) →
  ∀ q, q ≠ resolved output_path w →
    (∀ n, files w !! q = Some n → files w' !! q = Some n)
    ∧ (∀ d, files w' !! q = Some (File d) → files w !! q = Some (File d)).
Proof.
  intros Hrun q Hq.
  set (out := resolved output_path w) in *.
  assert (Hstep : ∃ fs e,
    mkdir_walk (parent out) [] (parent out) (files w) (locked w) = (fs, e)
    ∧ (files w' = fs ∨ files w' = <[out := File (Text (default EmptyString
           (match get_workflow_template tag repo None with
            | Ok t => Some t | Raise _ => None end)))]> fs)).
  { destruct (mkdir_walk (parent out) [] (parent out) (files w) (locked w))
      as [fs e] eqn:Hwalk.
    exists fs, e. split; [done |].
    assert (Hresolve :
      (match output_path with
       | None => cwd ← path_cwd; mret (cwd // ".github" // "workflows" // "deploy.yml")
       | Some p => mret p
       end) w = (w, Ok out)).
    { unfold out, resolved. by destruct output_path. }
    unfold create_workflow in Hrun.
    erewrite bind_run in Hrun by exact Hresolve.
    unfold mbind, M_bind, mkdir_parents in Hrun.
    cbn [files locked log] in Hrun. rewrite Hwalk in Hrun.
    destruct e as [e|]; [left; by simplify_eq |].
    unfold lift in Hrun.
    destruct (get_workflow_template tag repo None) as [text|e]; [| left; by simplify_eq].
    unfold write_text, create_file, print, mret, M_ret in Hrun.
    cbn [files locked log set_files] in Hrun.
    repeat (case_match; simplify_eq); simplify_eq; cbn [files]; by eauto. }
  destruct Hstep as (fs & e & Hwalk & Hfiles).
  assert (Hother : files w' !! q = fs !! q).
  { destruct Hfiles as [-> | ->]; [done | by rewrite lookup_insert_ne]. }
  rewrite Hother. split.
  - intros n Hn.
    destruct (mkdir_walk_frame _ _ _ _ _ _ _ Hwalk q) as [-> | [? ?]]; congruence.
  - intros d. by apply (mkdir_walk_keeps_files _ _ _ _ _ _ _ Hwalk).
Qed.

Lemma create_workflow_writes_template_witness :
  let out := ["work"; ".github"; "workflows"; "deploy.yml"] in
  stat (files fresh_checkout) (parent out) = None
  ∧ ∃ w',
      create_workflow "cra" "game" None fresh_checkout = (w', Ok out)
      ∧ files w' !! out = Some (File (Text (cra_workflow "game")))
      ∧ stat (files w') (parent out) = Some Dir
      ∧ (∀ q d, q ≠ out →
           files w' !! q = Some (File d) ↔ files fresh_checkout !! q = Some (File d))
      ∧ trace w' = trace fresh_checkout ++ [Mkdir (parent out); OpenW out].
Proof.
  intros out. split; [by vm_compute |].
  apply (create_workflow_writes_template "cra" "game" (cra_workflow "game")
           None fresh_checkout).
  - reflexivity.
  - by vm_compute.
  - by vm_compute.
  - apply (bool_decide_unpack _). by vm_compute.
Defined.

Lemma create_workflow_twice_witness :
  let out := ["work"; "ci"; "deploy.yml"] in
  ∃ w1 w2,
    create_workflow "vanilla" "game" (Some out) fresh_checkout = (w1, Ok out)
    ∧ create_workflow "vanilla" "game" (Some out) w1 = (w2, Ok out)
    ∧ files w2 = files w1.
Proof.
  intros out.
  apply (create_workflow_twice "vanilla" "game" vanilla_workflow (Some out)
           fresh_checkout).
  - reflexivity.
  - by vm_compute.
  - by vm_compute.
  - apply (bool_decide_unpack _). by vm_compute.
Defined.

Lemma create_workflow_keeps_other_files_witness :
  let out := ["work"; "ci"; "deploy.yml"] in
  let run := create_workflow "vue" "game" (Some out) checkout_with_notes in
  run.2 = Ok out
  ∧ ∀ q, q ≠ out →
      (∀ n, files checkout_with_notes !! q = Some n → files run.1 !! q = Some n)
      ∧ (∀ d, files run.1 !! q = Some (File d)
              → files checkout_with_notes !! q = Some (File d)).
Proof.
  intros out run. split; [by vm_compute |].
  apply (create_workflow_keeps_other_files "vue" "game" (Some out)
           checkout_with_notes run.1 run.2).
  subst run. apply surjective_pairing.
Defined.

(** The output path [main] passes on. *)
Lemma main_with_arguments (to_path : string → path) (argv : list string) (w : world) :
  3 ≤ length argv →
  main to_path argv w
  = match create_workflow (arg argv 1) (arg argv 2)
            (to_path <$> (if 3 <? length argv then Some (arg argv 3) else None)) w with
    | (w1, Ok _) => (w1, Ok tt)
    | (w1, Raise e) => (put_err [Lit "Error: "; ShowExn e] w1, Raise (SystemExit 1))
    end.
Proof.
  intros Hlen. unfold main.
  assert (Hltb : (length argv <? 3) = false) by (apply Nat.ltb_ge; lia).
  rewrite Hltb. erewrite bind_run by reflexivity.
  unfold try_except, mbind, M_bind.
  destruct (create_workflow _ _ _ w) as [w1 [out|e]] eqn:Hrun; [done |].
  by rewrite (create_workflow_catchable _ _ _ _ _ _ Hrun).
Qed.

(** X5: with fewer than two arguments after the script name, [main] prints
    the usage text on the standard output and exits with status 1; no call
    that changes the tree is issued and nothing goes to the error stream. *)
Theorem main_without_arguments (to_path : string → path) (argv : list string)
    (w : world) :
  length argv < 3 →
  ∃ w',
    main to_path argv w = (w', Raise (SystemExit 1))
    ∧ stdout w' = stdout w ++ usage
    ∧ stderr w' = stderr w
    ∧ files w' = files w
    ∧ trace w' = trace w.
Proof.
  intros Hlen. unfold main.
  assert (Hltb : (length argv <? 3) = true) by (apply Nat.ltb_lt; lia).
  rewrite Hltb. eexists. split.
  - by erewrite bind_raise by reflexivity.
  - cbn [stdout stderr files trace put_out]. repeat split.
    by rewrite <- !app_assoc.
Qed.

Lemma main_without_arguments_witness :
  ∃ w',
    main sample_path ["create_workflow.py"; "vanilla"] fresh_checkout
    = (w', Raise (SystemExit 1))
    ∧ stdout w' = stdout fresh_checkout ++ usage
    ∧ stderr w' = stderr fresh_checkout
    ∧ files w' = files fresh_checkout
    ∧ trace w' = trace fresh_checkout.
Proof.
  apply (main_without_arguments sample_path ["create_workflow.py"; "vanilla"]
           fresh_checkout).
  simpl. lia.
Defined.

(** X6: [main] ends in one of two ways only: it returns, or it exits with
    status 1. With two arguments or more it returns exactly when
    [create_workflow] returns, and an exception of [create_workflow] becomes
    one line [Error: ...] on the error stream followed by the exit. *)
Theorem main_returns_or_exits_1 (to_path : string → path) (argv : list string)
    (w : world) :
  ((main to_path argv w).2 = Ok tt ∨ (main to_path argv w).2 = Raise (SystemExit 1))
  ∧ (3 ≤ length argv →
     main to_path argv w
     = match create_workflow (arg argv 1) (arg argv 2)
             (to_path <$> (if 3 <? length argv then Some (arg argv 3) else None)) w with
       | (w1, Ok _) => (w1, Ok tt)
       | (w1, Raise e) => (put_err [Lit "Error: "; ShowExn e] w1, Raise (SystemExit 1))
       end).
Proof.
  split; [| apply main_with_arguments].
  destruct (decide (length argv < 3)) as [Hlt | Hge].
  - right. unfold main.
    assert (Hltb : (length argv <? 3) = true) by (apply Nat.ltb_lt; lia).
    rewrite Hltb. by erewrite bind_raise by reflexivity.
  - rewrite main_with_arguments by lia.
    destruct (create_workflow _ _ _ w) as [w1 [out|e]]; [by left | by right].
Qed.

Lemma main_returns_or_exits_1_witness :
  (main sample_path ["create_workflow.py"; "vue"; "game"; "/work/ci/deploy.yml"]
        fresh_checkout).2 = Ok tt
  ∧ (main sample_path ["create_workflow.py"; "Vue"; "game"] fresh_checkout).2
    = Raise (SystemExit 1)
  ∧ main sample_path ["create_workflow.py"; "Vue"; "game"] fresh_checkout
    = match create_workflow "Vue" "game" None fresh_checkout with
      | (w1, Ok _) => (w1, Ok tt)
      | (w1, Raise e) => (put_err [Lit "Error: "; ShowExn e] w1, Raise (SystemExit 1))
      end.
Proof.
  split; [by vm_compute | split; [by vm_compute |]].
  apply (proj2 (main_returns_or_exits_1 sample_path
                  ["create_workflow.py"; "Vue"; "game"] fresh_checkout)).
  simpl. lia.
Defined.

(** X7: on the command line, a tag outside the five ends the run with status
    1 and the line [Error: Unknown project type: <tag>] on the error stream,
    provided the parent directories of the output path exist or can be made;
    nothing is printed on the standard output and no regular file appears or
    changes. *)
Theorem main_unknown_tag (to_path : string → path) (argv : list string) (w : world) :
  3 ≤ length argv →
  arg argv 1 ∉ known_tags →
  let output_path := to_path <$> (if 3 <? length argv then Some (arg argv 3) else None) in
  can_make_dirs (files w) (locked w) (parent (resolved output_path w)) = true →
  ∃ w',
    main to_path argv w = (w', Raise (SystemExit 1))
    ∧ stderr w'
      = stderr w
        ++ [[Lit "Error: ";
             ShowExn (ValueError ("Unknown project type: " +:+ arg argv 1))]]
    ∧ stdout w' = stdout w
    ∧ (∀ q d, files w' !! q = Some (File d) ↔ files w !! q = Some (File d)).
Proof.
  intros Hlen Htag output_path Hcan.
  rewrite main_with_arguments by done. fold output_path.
  rewrite create_workflow_unknown by done.
  destruct (can_make_dirs_walk _ _ _ Hcan) as (fs & Hwalk & _).
  pose proof (mkdir_walk_keeps_files _ _ _ _ _ _ _ Hwalk) as Hkeep.
  unfold mbind, M_bind, mkdir_parents, raise. cbn [files locked log].
  rewrite Hwalk. eexists. split; [reflexivity |].
  cbn [stderr stdout files put_err set_files log].
  split; [done | split; [done | exact Hkeep]].
Qed.

Lemma main_unknown_tag_witness :
  ∃ w',
    main sample_path ["create_workflow.py"; "angular"; "game"] fresh_checkout
    = (w', Raise (SystemExit 1))
    ∧ stderr w'
      = stderr fresh_checkout
        ++ [[Lit "Error: "; ShowExn (ValueError "Unknown project type: angular")]]
    ∧ stdout w' = stdout fresh_checkout
    ∧ (∀ q d, files w' !! q = Some (File d)
              ↔ files fresh_checkout !! q = Some (File d)).
Proof.
  apply (main_unknown_tag sample_path ["create_workflow.py"; "angular"; "game"]
           fresh_checkout).
  - simpl. lia.
  - apply (bool_decide_unpack _). by vm_compute.
  - by vm_compute.
Defined.

(** X8: on the command line, with a recognised tag, when the parent
    directories of the output path exist or can be made and the output path
    is neither a directory nor locked, [main] returns (the process ends with
    status 0): the output file holds the text of [get_workflow_template], the
    one line [[OK] Created GitHub Actions workflow at: <path>] is on the
    standard output and nothing is on the error stream. *)
Theorem main_creates_workflow (to_path : string → path) (argv : list string)
    (text : string) (w : world) :
  let output_path := to_path <$> (if 3 <? length argv then Some (arg argv 3) else None) in
  let out := resolved output_path w in
  3 ≤ length argv →
  get_workflow_template (arg argv 1) (arg argv 2) None = Ok text →
  can_make_dirs (files w) (locked w) (parent out) = true →
  stat (files w) out ≠ Some Dir →
  out ∉ locked w →
  ∃ w',
    main to_path argv w = (w', Ok tt)
    ∧ files w' !! out = Some (File (Text text))
    ∧ stdout w'
      = stdout w ++ [[Lit "[OK] Created GitHub Actions workflow at: "; ShowPath out]]
    ∧ stderr w' = stderr w.
Proof.
  intros output_path out Hlen Htext Hcan Hout Hlock.
  rewrite main_with_arguments by done. fold output_path.
  destruct (create_workflow_run _ _ _ output_path w Htext Hcan Hout Hlock)
    as (fs & _ & _ & ->).
  eexists. split; [reflexivity |].
  cbn [files stdout stderr]. fold out.
  by rewrite lookup_insert_eq.
Qed.

Lemma main_creates_workflow_witness :
  let out := ["site"; "ci"; "pages.yml"] in
  let argv := ["create_workflow.py"; "vue"; "game"; "/site/ci/pages.yml"] in
  let w := fresh_checkout in
  sample_path "/site/ci/pages.yml" = out
  ∧ ∃ w',
      main sample_path argv w = (w', Ok tt)
      ∧ files w' !! out = Some (File (Text vue_workflow))
      ∧ stdout w'
        = stdout w ++ [[Lit "[OK] Created GitHub Actions workflow at: "; ShowPath out]]
      ∧ stderr w' = stderr w.
Proof.
  intros out argv w. split; [by vm_compute |].
  apply (main_creates_workflow sample_path argv vue_workflow w).
  - simpl. lia.
  - reflexivity.
  - by vm_compute.
  - by vm_compute.
  - apply (bool_decide_unpack _). by vm_compute.
Defined.

End GeneratorRuns.

(** ** Trees, removal and copy *)

Lemma tree_shaped_parent (fs : gmap path node) (p : path) (n : node) :
  tree_shaped fs = true → fs !! p = Some n → p ≠ [] →
  stat fs (parent p) = Some Dir.
Proof.
  intros Htree Hp Hroot. unfold tree_shaped in Htree.
  rewrite forallb_forall in Htree.
  assert (Hin : In (p, n) (map_to_list fs)).
  { apply list_elem_of_In. by apply elem_of_map_to_list. }
  specialize (Htree _ Hin). simpl in Htree.
  destruct p as [|c p]; [done |].
  by destruct (stat fs (parent (c :: p))) as [[?|]|].
Qed.

(** In a tree nothing lies below a path that is not there. *)
Lemma nothing_below_absent (fs : gmap path node) (p rel : path) :
  tree_shaped fs = true → stat fs p = None → fs !! (p ++ rel) = None.
Proof.
  intros Htree Habsent.
  assert (Hp : p ≠ []) by (by intros ->).
  induction rel as [|c rel IH] using rev_ind.
  - by rewrite app_nil_r, <- stat_not_root.
  - destruct (fs !! (p ++ rel ++ [c])) as [n|] eqn:Hlk; [| done].
    apply tree_shaped_parent in Hlk; [| done | by destruct p].
    replace (p ++ rel ++ [c]) with ((p ++ rel) // c) in Hlk
      by (unfold child; by rewrite app_assoc).
    rewrite parent_child, stat_not_root in Hlk by (by destruct p).
    congruence.
Qed.

Lemma prefix_app_cases (p s r : path) :
  p `prefix_of` s ++ r → p `prefix_of` s ∨ s `prefix_of` p.
Proof.
  revert s. induction p as [|c p IH]; intros s Hpre.
  - left. apply prefix_nil.
  - destruct s as [|c' s]; [right; apply prefix_nil |].
    simpl in Hpre. destruct Hpre as [t Ht]. simplify_eq/=.
    destruct (IH s) as [Hl | Hr]; [by eexists | |].
    + left. by apply prefix_cons.
    + right. by apply prefix_cons.
Qed.

Lemma filter_none {A} (P : A → Prop) `{∀ x, Decision (P x)} (l : list A) :
  (∀ x, x ∈ l → ¬ P x) → filter P l = [].
Proof.
  induction l as [|x l IH]; intros Hl; [done |].
  rewrite filter_cons_False by (apply Hl; left).
  apply IH. intros y Hy. apply Hl. by right.
Qed.

Lemma filter_all {A} (P : A → Prop) `{∀ x, Decision (P x)} (l : list A) :
  (∀ x, x ∈ l → P x) → filter P l = l.
Proof.
  induction l as [|x l IH]; intros Hl; [done |].
  rewrite filter_cons_True by (apply Hl; left).
  f_equal. apply IH. intros y Hy. apply Hl. by right.
Qed.

(** Looking up in a tree without the entries at and below [p]. *)
Lemma lookup_without (p q : path) (fs : gmap path node) :
  filter (λ kv : path * node, ¬ p `prefix_of` kv.1) fs !! q
  = if decide (p `prefix_of` q) then None else fs !! q.
Proof.
  case_decide as Hpre.
  - apply map_lookup_filter_None. right. intros n _. simpl. tauto.
  - destruct (fs !! q) as [n|] eqn:Hlk.
    + by apply map_lookup_filter_Some.
    + apply map_lookup_filter_None. by left.
Qed.

(** Looking up among entries written below [dst]. *)
Lemma lookup_written_in (dst rel : path) (n : node) (es : list (path * node))
    (fs : gmap path node) :
  NoDup es.*1 → (rel, n) ∈ es →
  foldr (λ e m, <[dst ++ e.1 := e.2]> m) fs es !! (dst ++ rel) = Some n.
Proof.
  induction es as [|[rel' n'] es IH]; intros Hnodup Hin; [by apply elem_of_nil in Hin |].
  simpl in *. apply NoDup_cons in Hnodup as [Hfresh Hnodup].
  apply elem_of_cons in Hin as [[= -> ->] | Hin].
  - by rewrite lookup_insert_eq.
  - rewrite lookup_insert_ne; [by apply IH |].
    intros Heq. apply app_inv_head in Heq. subst rel'.
    apply Hfresh. by apply (list_elem_of_fmap_2 fst) in Hin.
Qed.

Lemma lookup_written_out (dst q : path) (es : list (path * node))
    (fs : gmap path node) :
  (∀ e, e ∈ es → q ≠ dst ++ e.1) →
  foldr (λ e m, <[dst ++ e.1 := e.2]> m) fs es !! q = fs !! q.
Proof.
  induction es as [|e es IH]; intros Hout; [done |].
  simpl. rewrite lookup_insert_ne.
  - apply IH. intros e' He'. apply Hout. by right.
  - apply not_eq_sym, Hout. by left.
Qed.

(** The last step of a walk: every directory on the way is there, the
    directory itself is missing and may be created. *)
Lemma mkdir_walk_last (p pre rest : path) (c : string) (fs : gmap path node)
    (lk : gset path) :
  (∀ k, 1 ≤ k ≤ length rest → fs !! (pre ++ take k rest) = Some Dir) →
  fs !! (pre ++ rest ++ [c]) = None →
  pre ++ rest ++ [c] ∉ lk →
  mkdir_walk p pre (rest ++ [c]) fs lk = (<[pre ++ rest ++ [c] := Dir]> fs, None).
Proof.
  revert pre. induction rest as [|c' rest IH]; intros pre Hdirs Hlast Hlock.
  - simpl in *. rewrite Hlast. by rewrite decide_False.
  - assert (H1 : fs !! (pre ++ [c']) = Some Dir) by (apply (Hdirs 1); simpl; lia).
    assert (Heq : pre ++ (c' :: rest) ++ [c] = (pre ++ [c']) ++ rest ++ [c])
      by (by rewrite <- !app_assoc).
    rewrite Heq in *. cbn [app mkdir_walk]. rewrite H1.
    apply IH; [| done | done].
    intros k Hk. rewrite <- app_assoc. apply (Hdirs (S k)). simpl. lia.
Qed.

Lemma rmtree_run (p : path) (w : world) :
  stat (files w) p = Some Dir →
  unlocked_below (locked w) p →
  rmtree p w
  = (set_files (filter (λ kv : path * node, ¬ p `prefix_of` kv.1))
               (log (Rmtree p) w), Ok tt).
Proof.
  intros Hdir Hunlocked. unfold rmtree. cbn [files locked log].
  rewrite Hdir. rewrite filter_none; [done |].
  intros q Hq Hlocked. apply (Hunlocked q Hlocked).
  apply elem_of_cons in Hq as [-> | Hq]; [done |].
  apply list_elem_of_fmap in Hq as (e & -> & _). by apply prefix_app_r.
Qed.

Lemma not_blocked (lk : gset path) (dst rel : path) :
  unlocked_below lk dst → ¬ blocked lk dst rel.
Proof.
  intros Hunlocked Hblocked. unfold blocked in Hblocked.
  apply Exists_exists in Hblocked as (k & _ & Hlocked).
  apply (Hunlocked _ Hlocked). by apply prefix_app_r.
Qed.

Lemma copytree_run (src dst : path) (w : world) :
  stat (files w) src = Some Dir →
  stat (files w) dst = None →
  (∀ k, 1 ≤ k ≤ length (parent dst) → files w !! take k (parent dst) = Some Dir) →
  unlocked_below (locked w) dst →
  copytree src dst w
  = (set_files (λ fs, foldr (λ e m, <[dst ++ e.1 := e.2]> m) (<[dst := Dir]> fs)
                            (below src fs))
               (log (Copytree src dst) w), Ok tt).
Proof.
  intros Hsrc Hdst Hdirs Hunlocked. unfold copytree. cbn [files locked log].
  rewrite Hsrc, Hdst.
  assert (Hroot : dst ≠ []) by (by intros ->).
  assert (Hwalk : mkdir_walk dst [] dst (files w) (locked w)
                  = (<[dst := Dir]> (files w), None)).
  { pose proof (mkdir_walk_last dst [] (parent dst) (name dst) (files w) (locked w))
      as Hlast.
    cbn [app] in Hlast. fold (child (parent dst) (name dst)) in Hlast.
    rewrite <- (path_split dst Hroot) in Hlast. apply Hlast.
    - done.
    - by rewrite <- stat_not_root.
    - intros Hlocked. by apply (Hunlocked dst Hlocked). }
  rewrite Hwalk.
  rewrite (filter_none (λ e : path * node, blocked (locked w) dst e.1))
    by (intros e _; exact (not_blocked _ _ _ Hunlocked)).
  rewrite (filter_all (λ e : path * node, ¬ blocked (locked w) dst e.1))
    by (intros e _; exact (not_blocked _ _ _ Hunlocked)).
  done.
Qed.

(** ** The sync step, when it succeeds *)

Section SyncRuns.
Import SyncSkill.

(** The copy at the end of [sync_skill_files]. *)
Lemma sync_copy_run (source_skill dest_skill : path) (w : world) :
  stat (files w) source_skill = Some Dir →
  stat (files w) dest_skill = None →
  (∀ k, 1 ≤ k ≤ length (parent dest_skill) →
        files w !! take k (parent dest_skill) = Some Dir) →
  unlocked_below (locked w) dest_skill →
  try_except
    (copytree source_skill dest_skill;;
     print [Lit "[OK] Synced skill files from "; ShowPath source_skill];;
     print [Lit "[OK] To "; ShowPath dest_skill];;
     mret true)
    (λ e,
     print [Lit "[ERROR] Failed to sync skill files: "; ShowExn e];;
     mret false) w
  = (World (foldr (λ e m, <[dest_skill ++ e.1 := e.2]> m)
                  (<[dest_skill := Dir]> (files w)) (below source_skill (files w)))
           (locked w) (process w) (stdin w)
           (trace w ++ [Copytree source_skill dest_skill])
           (stdout w ++ [[Lit "[OK] Synced skill files from "; ShowPath source_skill];
                         [Lit "[OK] To "; ShowPath dest_skill]])
           (stderr w),
     Ok true).
Proof.
  intros Hsrc Hdst Hdirs Hunlocked. unfold try_except.
  erewrite bind_run by (by apply copytree_run).
  unfold mbind, M_bind, print, mret, M_ret, put_out, set_files, log.
  cbn [files locked process stdin trace stdout stderr].
  by rewrite <- app_assoc.
Qed.

(** The tree [sync_skill_files] leaves: [fs1] with the destination removed,
    made again and filled with the entries below the source. *)
Lemma synced_tree (source_skill dest_skill : path) (fs fs1 fs4 : gmap path node) :
  let fs2 := filter (λ kv : path * node, ¬ dest_skill `prefix_of` kv.1) fs1 in
  fs4 = foldr (λ e m, <[dest_skill ++ e.1 := e.2]> m)
              (<[dest_skill := Dir]> fs2) (below source_skill fs2) →
  ¬ dest_skill `prefix_of` source_skill →
  ¬ source_skill `prefix_of` dest_skill →
  (∀ q, ¬ q `prefix_of` parent dest_skill → fs1 !! q = fs !! q) →
  (∀ q, fs1 !! q = fs !! q ∨ (fs !! q = None ∧ fs1 !! q = Some Dir)) →
  stat fs1 (parent dest_skill) = Some Dir →
  stat fs4 dest_skill = Some Dir
  ∧ stat fs4 (parent dest_skill) = Some Dir
  ∧ (∀ rel, rel ≠ [] → fs4 !! (dest_skill ++ rel) = fs !! (source_skill ++ rel))
  ∧ (∀ q n, ¬ dest_skill `prefix_of` q → fs !! q = Some n → fs4 !! q = Some n)
  ∧ (∀ q d, ¬ dest_skill `prefix_of` q →
            fs4 !! q = Some (File d) → fs !! q = Some (File d))
  ∧ (∀ q, ¬ dest_skill `prefix_of` q → ¬ q `prefix_of` parent dest_skill →
          fs4 !! q = fs !! q).
Proof.
  intros fs2 -> Hds Hsd Hout Hframe Hparent.
  assert (Hroot : dest_skill ≠ []).
  { intros ->. apply Hds, prefix_nil. }
  assert (Hwritten_out : ∀ q, ¬ dest_skill `prefix_of` q →
    foldr (λ e m, <[dest_skill ++ e.1 := e.2]> m)
          (<[dest_skill := Dir]> fs2) (below source_skill fs2) !! q = fs1 !! q).
  { intros q Hq. rewrite lookup_written_out.
    - rewrite lookup_insert_ne by (by intros ->).
      unfold fs2. rewrite lookup_without. by rewrite decide_False.
    - intros e _ ->. apply Hq. by apply prefix_app_r. }
  assert (Hsource : ∀ rel, fs2 !! (source_skill ++ rel) = fs !! (source_skill ++ rel)).
  { intros rel. unfold fs2. rewrite lookup_without.
    rewrite decide_False.
    - apply Hout. intros Hpre. apply Hsd.
      etrans; [| apply (prefix_of_parent dest_skill)].
      etrans; [| exact Hpre]. by apply prefix_app_r.
    - intros Hpre. by destruct (prefix_app_cases _ _ _ Hpre). }
  split; [| split; [| split; [| split; [| split]]]].
  - rewrite stat_not_root by done. rewrite lookup_written_out.
    + by rewrite lookup_insert_eq.
    + intros [rel n] He Heq. apply elem_of_below in He as [Hrel _].
      simpl in Heq. rewrite <- (app_nil_r dest_skill) in Heq at 1.
      apply app_inv_head in Heq. by subst rel.
  - destruct (parent dest_skill) as [|c p] eqn:Hp; [done |].
    rewrite stat_not_root in * by done. rewrite Hwritten_out; [done |].
    rewrite <- Hp. by apply not_prefix_of_parent.
  - intros rel Hrel. rewrite <- Hsource.
    destruct (fs2 !! (source_skill ++ rel)) as [n|] eqn:Hlk.
    + apply lookup_written_in; [apply below_NoDup | by apply elem_of_below].
    + rewrite lookup_written_out.
      * rewrite lookup_insert_ne.
        -- unfold fs2. rewrite lookup_without.
           by rewrite decide_True by (by apply prefix_app_r).
        -- intros Heq. rewrite <- (app_nil_r dest_skill) in Heq at 1.
           apply app_inv_head in Heq. by subst rel.
      * intros [rel' n'] He Heq. simpl in Heq. apply app_inv_head in Heq. subst rel'.
        apply elem_of_below in He as [_ He]. congruence.
  - intros q n Hq Hn. rewrite Hwritten_out by done.
    destruct (Hframe q) as [-> | [? ?]]; congruence.
  - intros q d Hq. rewrite Hwritten_out by done.
    destruct (Hframe q) as [-> | [? ->]]; [done | by intros [=]].
  - intros q Hq Hoff. rewrite Hwritten_out by done. by apply Hout.
Qed.

(** The run of [sync_skill_files] that succeeds. *)
Lemma sync_skill_files_run (source_skill dest_skill : path) (w : world) :
  (stat (files w) dest_skill = None →
   ∀ rel, files w !! (dest_skill ++ rel) = None) →
  stat (files w) source_skill = Some Dir →
  can_make_dirs (files w) (locked w) (parent dest_skill) = true →
  (∀ d, stat (files w) dest_skill ≠ Some (File d)) →
  unlocked_below (locked w) dest_skill →
  ¬ dest_skill `prefix_of` source_skill →
  ¬ source_skill `prefix_of` dest_skill →
  ∃ w',
    sync_skill_files source_skill dest_skill w = (w', Ok true)
    ∧ stat (files w') dest_skill = Some Dir
    ∧ stat (files w') (parent dest_skill) = Some Dir
    ∧ (∀ rel, rel ≠ [] →
         files w' !! (dest_skill ++ rel) = files w !! (source_skill ++ rel))
    ∧ (∀ q n, ¬ dest_skill `prefix_of` q →
         files w !! q = Some n → files w' !! q = Some n)
    ∧ (∀ q d, ¬ dest_skill `prefix_of` q →
         files w' !! q = Some (File d) → files w !! q = Some (File d))
    ∧ (∀ q, ¬ dest_skill `prefix_of` q → ¬ q `prefix_of` parent dest_skill →
         files w' !! q = files w !! q)
    ∧ locked w' = locked w
    ∧ trace w'
      = trace w
        ++ Mkdir (parent dest_skill)
           :: (if bool_decide (is_Some (stat (files w) dest_skill))
               then [Rmtree dest_skill] else [])
        ++ [Copytree source_skill dest_skill].
Proof.
  intros Htree Hsrc Hcan Hdest Hunlocked Hds Hsd.
  assert (Hroot : dest_skill ≠ []) by (intros ->; apply Hds, prefix_nil).
  assert (Hsroot : source_skill ≠ []) by (intros ->; apply Hsd, prefix_nil).
  destruct (can_make_dirs_walk _ _ _ Hcan) as (fs1 & Hwalk & Hparent).
  pose proof (mkdir_walk_dirs _ _ _ _ _ _ Hwalk) as Hdirs. cbn [app] in Hdirs.
  pose proof (mkdir_walk_frame _ _ _ _ _ _ _ Hwalk) as Hframe.
  assert (Hout : ∀ q, ¬ q `prefix_of` parent dest_skill → fs1 !! q = files w !! q).
  { intros q Hq. by apply (mkdir_walk_outside _ _ _ _ _ _ _ _ Hwalk). }
  assert (Hdest1 : fs1 !! dest_skill = files w !! dest_skill)
    by (by apply Hout, not_prefix_of_parent).
  set (fs2 := filter (λ kv : path * node, ¬ dest_skill `prefix_of` kv.1) fs1).
  set (fs4 := foldr (λ e m, <[dest_skill ++ e.1 := e.2]> m)
                    (<[dest_skill := Dir]> fs2) (below source_skill fs2)).
  assert (Hsrc2 : stat fs2 source_skill = Some Dir).
  { rewrite stat_not_root in * by done. unfold fs2.
    rewrite lookup_without, decide_False by done.
    destruct (Hframe source_skill) as [-> | [? ?]]; congruence. }
  assert (Hdst2 : stat fs2 dest_skill = None).
  { rewrite stat_not_root by done. unfold fs2.
    by rewrite lookup_without, decide_True. }
  assert (Hdirs2 : ∀ k, 1 ≤ k ≤ length (parent dest_skill) →
                        fs2 !! take k (parent dest_skill) = Some Dir).
  { intros k Hk. unfold fs2. rewrite lookup_without, decide_False; [by apply Hdirs |].
    intros Hpre. apply (not_prefix_of_parent dest_skill Hroot).
    etrans; [exact Hpre | apply prefix_take]. }
  destruct (synced_tree source_skill dest_skill (files w) fs1 fs4 eq_refl Hds Hsd
              Hout Hframe Hparent) as (H1 & H2 & H3 & H4 & H5 & H6).
  set (w1 := set_files (λ _, fs1) (log (Mkdir (parent dest_skill)) w)).
  assert (Hmkdir : mkdir_parents (parent dest_skill) w = (w1, Ok tt)).
  { unfold mkdir_parents. cbn [files locked log]. by rewrite Hwalk. }
  assert (Hthere : exists_ source_skill w = (w, Ok true)).
  { unfold exists_. rewrite Hsrc. by rewrite bool_decide_eq_true_2 by eauto. }
  unfold sync_skill_files.
  erewrite bind_run by exact Hthere. cbn [negb].
  erewrite bind_run by exact Hmkdir.
  erewrite bind_run by reflexivity.
  cbn [files w1 set_files]. rewrite stat_not_root, Hdest1, <- stat_not_root by done.
  destruct (stat (files w) dest_skill) as [[d|]|] eqn:Hstat.
  - by destruct (Hdest d).
  - rewrite bool_decide_eq_true_2 by eauto.
    erewrite bind_run; cycle 1.
    { unfold when. erewrite bind_run by reflexivity.
      apply rmtree_run; cbn [files locked put_out w1 set_files log].
      - by rewrite stat_not_root, Hdest1, <- stat_not_root.
      - done. }
    rewrite sync_copy_run; cbn [files locked put_out w1 set_files log]; try done.
    eexists. split; [reflexivity |].
    cbn [files locked trace]. fold fs2 fs4.
    repeat (split; [done |]).
    cbn [trace set_files log put_out w1]. by rewrite <- !app_assoc.
  - rewrite bool_decide_eq_false_2 by (by intros [? ?]).
    erewrite bind_run by reflexivity.
    assert (Hid : fs2 = fs1).
    { unfold fs2. apply map_filter_id. intros q n Hq Hpre. simpl in Hpre.
      destruct Hpre as [rel ->].
      rewrite Hout in Hq.
      - by rewrite Htree in Hq.
      - intros Hpre. apply (not_prefix_of_parent dest_skill Hroot).
        etrans; [| exact Hpre]. by apply prefix_app_r. }
    rewrite Hid in Hsrc2, Hdst2, Hdirs2.
    rewrite sync_copy_run by done.
    eexists. split; [reflexivity |].
    cbn [files locked trace w1 set_files log]. rewrite <- Hid. fold fs4.
    repeat (split; [done |]).
    cbn [trace set_files log put_out w1]. by rewrite <- !app_assoc.
Qed.

(** X9: when the source is a directory, the way to the destination can be
    made, the destination is a directory or is missing, nothing at or below
    it is locked and neither tree lies inside the other,
    [sync_skill_files] returns [True] and the destination is a copy of the
    source: below the destination there is exactly what is below the
    source, so that files of an older installation are gone. Every entry
    outside the destination is kept and no regular file appears there. *)
Theorem sync_replaces_destination (source_skill dest_skill : path) (w : world) :
  tree_shaped (files w) = true →
  stat (files w) source_skill = Some Dir →
  can_make_dirs (files w) (locked w) (parent dest_skill) = true →
  (∀ d, stat (files w) dest_skill ≠ Some (File d)) →
  unlocked_below (locked w) dest_skill →
  ¬ dest_skill `prefix_of` source_skill →
  ¬ source_skill `prefix_of` dest_skill →
  ∃ w',
    sync_skill_files source_skill dest_skill w = (w', Ok true)
    ∧ stat (files w') dest_skill = Some Dir
    ∧ stat (files w') (parent dest_skill) = Some Dir
    ∧ (∀ rel, rel ≠ [] →
         files w' !! (dest_skill ++ rel) = files w !! (source_skill ++ rel))
    ∧ (∀ q n, ¬ dest_skill `prefix_of` q →
         files w !! q = Some n → files w' !! q = Some n)
    ∧ (∀ q d, ¬ dest_skill `prefix_of` q →
         files w' !! q = Some (File d) → files w !! q = Some (File d))
    ∧ (∀ q, ¬ dest_skill `prefix_of` q → ¬ q `prefix_of` parent dest_skill →
         files w' !! q = files w !! q)
    ∧ locked w' = locked w
    ∧ trace w'
      = trace w
        ++ Mkdir (parent dest_skill)
           :: (if bool_decide (is_Some (stat (files w) dest_skill))
               then [Rmtree dest_skill] else [])
        ++ [Copytree source_skill dest_skill].
Proof.
  intros Htree. apply sync_skill_files_run.
  intros Habsent rel. by apply nothing_below_absent.
Qed.

Lemma sync_replaces_destination_witness :
  let dest := sample_skills // "github-pages-deploy" in
  let w := reinstall [] in
  files w !! (dest // "SKILL.md") = Some (File (Text "# deploy"))
  ∧ ∃ w',
      sync_skill_files sample_source dest w = (w', Ok true)
      ∧ stat (files w') dest = Some Dir
      ∧ stat (files w') (parent dest) = Some Dir
      ∧ (∀ rel, rel ≠ [] →
           files w' !! (dest ++ rel) = files w !! (sample_source ++ rel))
      ∧ (∀ q n, ¬ dest `prefix_of` q →
           files w !! q = Some n → files w' !! q = Some n)
      ∧ (∀ q d, ¬ dest `prefix_of` q →
           files w' !! q = Some (File d) → files w !! q = Some (File d))
      ∧ (∀ q, ¬ dest `prefix_of` q → ¬ q `prefix_of` parent dest →
           files w' !! q = files w !! q)
      ∧ locked w' = locked w
      ∧ trace w'
        = trace w
          ++ Mkdir (parent dest)
             :: (if bool_decide (is_Some (stat (files w) dest))
                 then [Rmtree dest] else [])
          ++ [Copytree sample_source dest].
Proof.
  intros dest w. split; [by vm_compute |].
  apply (sync_replaces_destination sample_source dest w).
  - by vm_compute.
  - by vm_compute.
  - by vm_compute.
  - intros d. by vm_compute.
  - intros q Hq. by apply elem_of_empty in Hq.
  - apply (bool_decide_unpack _). by vm_compute.
  - apply (bool_decide_unpack _). by vm_compute.
Defined.

(** X10: when a regular file stands where the destination directory should
    be, [sync_skill_files] does not return [False]: the removal raises
    [NotADirectoryError], outside the [try] of the function, and no regular
    file has changed by then. *)
Theorem sync_raises_when_destination_is_a_file (source_skill dest_skill : path)
    (d : data) (w : world) :
  is_Some (stat (files w) source_skill) →
  can_make_dirs (files w) (locked w) (parent dest_skill) = true →
  stat (files w) dest_skill = Some (File d) →
  ∃ w',
    sync_skill_files source_skill dest_skill w
    = (w', Raise (NotADirectoryError dest_skill))
    ∧ (∀ q d', files w' !! q = Some (File d') ↔ files w !! q = Some (File d'))
    ∧ trace w' = trace w ++ [Mkdir (parent dest_skill); Rmtree dest_skill].
Proof.
  intros Hsrc Hcan Hdest.
  assert (Hroot : dest_skill ≠ []) by (by intros ->).
  destruct (can_make_dirs_walk _ _ _ Hcan) as (fs1 & Hwalk & _).
  pose proof (mkdir_walk_keeps_files _ _ _ _ _ _ _ Hwalk) as Hkeep.
  assert (Hdest1 : stat fs1 dest_skill = Some (File d)).
  { rewrite stat_not_root in * by done. by apply Hkeep. }
  unfold sync_skill_files.
  erewrite bind_run
    by (unfold exists_; rewrite (bool_decide_eq_true_2 _ Hsrc); reflexivity).
  cbn [negb].
  erewrite bind_run
    by (unfold mkdir_parents; cbn [files locked log]; rewrite Hwalk; reflexivity).
  erewrite bind_run by reflexivity.
  cbn [files set_files log]. rewrite Hdest1.
  rewrite bool_decide_eq_true_2 by eauto.
  erewrite bind_raise; cycle 1.
  { unfold when. erewrite bind_run by reflexivity.
    unfold rmtree. cbn [files set_files log put_out]. rewrite Hdest1. reflexivity. }
  eexists. split; [reflexivity |].
  cbn [files trace log set_files put_out]. split; [exact Hkeep |].
  by rewrite <- app_assoc.
Qed.

Lemma sync_raises_when_destination_is_a_file_witness :
  ∃ w',
    sync_skill_files ["work"] ["work"; "notes"] checkout_with_notes
    = (w', Raise (NotADirectoryError ["work"; "notes"]))
    ∧ (∀ q d', files w' !! q = Some (File d')
               ↔ files checkout_with_notes !! q = Some (File d'))
    ∧ trace w' = trace checkout_with_notes ++ [Mkdir (parent ["work"; "notes"]);
                                               Rmtree ["work"; "notes"]].
Proof.
  apply (sync_raises_when_destination_is_a_file ["work"] ["work"; "notes"]
           (Text "todo") checkout_with_notes).
  - vm_compute. by eexists.
  - by vm_compute.
  - by vm_compute.
Defined.

End SyncRuns.

(** ** The steps that fail softly *)

Section SoftSteps.
Import SyncSkill.

(** A [try] whose body raises instances of [Exception] only and whose
    handler returns always returns. *)
Lemma try_except_returns {A} (body : M A) (handler : exn → M A) (w : world) :
  catchable body →
  (∀ e w1, ∃ w2 a, handler e w1 = (w2, Ok a)) →
  ∃ w' a, try_except body handler w = (w', Ok a).
Proof.
  intros Hbody Hhandler. unfold try_except.
  destruct (body w) as [w1 [a|e]] eqn:Hrun; [by eauto |].
  rewrite (Hbody _ _ _ Hrun). apply Hhandler.
Qed.

(** No exception leaves the two steps that fail softly. *)
Lemma soft_steps_return (project_dir skills_dir dest_skill : path)
    (w : world) :
  (∃ w' packaged, package_skill skills_dir dest_skill w = (w', Ok packaged))
  ∧ (∃ w' updated, update_project_package project_dir skills_dir w = (w', Ok updated)).
Proof.
  split.
  - unfold package_skill. apply try_except_returns.
    + catchable_script.
    + intros e w1. by eexists _, _.
  - unfold update_project_package.
    erewrite bind_run by reflexivity.
    destruct (negb _); [by eexists _, _ |].
    apply try_except_returns.
    + catchable_script.
    + intros e w1. by eexists _, _.
Qed.

(** X11: [package_skill] and [update_project_package] always return a
    boolean: whatever the tree and the locks, no exception leaves them. *)
Theorem soft_steps_always_return (project_dir skills_dir dest_skill : path)
    (w : world) :
  (∃ w' packaged, package_skill skills_dir dest_skill w = (w', Ok packaged))
  ∧ (∃ w' updated, update_project_package project_dir skills_dir w = (w', Ok updated)).
Proof. exact (soft_steps_return project_dir skills_dir dest_skill w). Qed.

(** The two ordinary runs of [update_project_package]. *)
Lemma update_project_package_run (project_dir skills_dir : path) (w : world) :
  let source_package := skills_dir // "github-pages-deploy.skill" in
  let dest_package := project_dir // "github-pages-deploy.skill" in
  (stat (files w) source_package = None →
   update_project_package project_dir skills_dir w
   = (put_out [Lit "[WARNING] Package not found: "; ShowPath source_package] w,
      Ok false))
  ∧ (∀ d,
       stat (files w) source_package = Some (File d) →
       project_dir ≠ skills_dir →
       stat (files w) project_dir = Some Dir →
       (∀ n, stat (files w) dest_package = Some n → ∃ d', n = File d') →
       dest_package ∉ locked w →
       ∃ w',
         update_project_package project_dir skills_dir w = (w', Ok true)
         ∧ files w' = <[dest_package := File d]> (files w)
         ∧ trace w' = trace w ++ [Copy2 source_package dest_package]).
Proof.
  intros source_package dest_package. split.
  - intros Habsent. unfold update_project_package. fold source_package.
    unfold mbind, M_bind, exists_. rewrite Habsent.
    by rewrite bool_decide_eq_false_2 by (by intros [? ?]).
  - intros d Hsrc Hne Hproject Hdest Hlock.
    assert (Hdiff : dest_package ≠ source_package).
    { unfold dest_package, source_package, child. intros Heq.
      by apply app_inj_tail in Heq as [? _]. }
    assert (Hnotdir : stat (files w) dest_package ≠ Some Dir).
    { intros Hdir. by destruct (Hdest _ Hdir). }
    unfold update_project_package. fold source_package dest_package.
    unfold mbind at 1. unfold M_bind at 1. unfold exists_.
    rewrite Hsrc. rewrite bool_decide_eq_true_2 by eauto. cbn [negb].
    unfold try_except.
    erewrite bind_run; cycle 1.
    { unfold copy2. cbn [files log]. rewrite Hsrc.
      assert (Htarget : match stat (files w) dest_package with
                        | Some Dir => dest_package // name source_package
                        | _ => dest_package
                        end = dest_package).
      { by destruct (stat (files w) dest_package) as [[?|]|]. }
      rewrite Htarget. rewrite decide_False by done.
      apply create_file_ok; cbn [files locked log].
      - done.
      - unfold dest_package. by rewrite parent_child.
      - done. }
    eexists. split; [reflexivity |]. by cbn [files trace set_files log put_out].
Qed.

(** X12: when the package is missing from the skills directory,
    [update_project_package] warns, returns [False] and issues no call that
    changes the tree. When it is there and the project's copy can be
    written, the function returns [True], the project's copy holds what the
    package holds, and no other entry changes. *)
Theorem update_project_package_copies (project_dir skills_dir : path) (w : world) :
  let source_package := skills_dir // "github-pages-deploy.skill" in
  let dest_package := project_dir // "github-pages-deploy.skill" in
  (stat (files w) source_package = None →
   update_project_package project_dir skills_dir w
   = (put_out [Lit "[WARNING] Package not found: "; ShowPath source_package] w,
      Ok false))
  ∧ (∀ d,
       stat (files w) source_package = Some (File d) →
       project_dir ≠ skills_dir →
       stat (files w) project_dir = Some Dir →
       (∀ n, stat (files w) dest_package = Some n → ∃ d', n = File d') →
       dest_package ∉ locked w →
       ∃ w',
         update_project_package project_dir skills_dir w = (w', Ok true)
         ∧ files w' = <[dest_package := File d]> (files w)
         ∧ trace w' = trace w ++ [Copy2 source_package dest_package]).
Proof. exact (update_project_package_run project_dir skills_dir w). Qed.

Lemma update_project_package_copies_witness :
  let source_package := sample_skills // "github-pages-deploy.skill" in
  let dest_package := ["work"; "game"; "github-pages-deploy.skill"] in
  let w := reinstall [] in
  ∃ w',
    update_project_package ["work"; "game"] sample_skills w = (w', Ok true)
    ∧ files w'
      = <[dest_package := File (Archive TarPlain [(["README.md"], File (Text "old"))])]>
          (files w)
    ∧ trace w' = trace w ++ [Copy2 source_package dest_package].
Proof.
  intros source_package dest_package w.
  apply (proj2 (update_project_package_copies ["work"; "game"] sample_skills w)).
  - by vm_compute.
  - apply (bool_decide_unpack _). by vm_compute.
  - by vm_compute.
  - intros n. vm_compute. intros [=].
  - apply (bool_decide_unpack _). by vm_compute.
Defined.

End SoftSteps.

(** ** The backup step, when the destination is there *)

Section BackupRuns.
Import SyncSkill.

(** In a tree every directory on the way to an entry is there. *)
Lemma tree_shaped_ancestors (fs : gmap path node) (p : path) (n : node) :
  tree_shaped fs = true → fs !! p = Some n →
  ∀ k, 1 ≤ k < length p → fs !! take k p = Some Dir.
Proof.
  intros Htree. revert n. induction p as [|c p IH] using rev_ind; intros n Hp k Hk.
  - simpl in Hk. lia.
  - rewrite length_app in Hk. simpl in Hk.
    assert (Hparent : stat fs p = Some Dir).
    { rewrite <- (parent_child p c). apply (tree_shaped_parent fs _ n); [done | done |].
      by destruct p. }
    rewrite take_app_le by lia.
    destruct (decide (k = length p)) as [-> | Hlt].
    + rewrite firstn_all. rewrite stat_not_root in Hparent; [done |].
      intros ->. simpl in Hk. lia.
    + apply (IH Dir); [| lia].
      rewrite stat_not_root in Hparent; [done |]. intros ->. simpl in Hk. lia.
Qed.

(** The run of [backup_skill] when the backup path is free. *)
Lemma backup_skill_run (dest_skill : path) (w : world) :
  let backup_path :=
    parent dest_skill
    // (name dest_skill +:+ "_backup_" +:+ Py.strftime (clock (process w))) in
  tree_shaped (files w) = true →
  stat (files w) dest_skill = Some Dir →
  stat (files w) backup_path = None →
  unlocked_below (locked w) backup_path →
  ∃ w',
    backup_skill dest_skill w = (w', Ok (Some backup_path))
    ∧ stat (files w') backup_path = Some Dir
    ∧ (∀ rel, rel ≠ [] →
         files w' !! (backup_path ++ rel) = files w !! (dest_skill ++ rel))
    ∧ (∀ q, ¬ backup_path `prefix_of` q → files w' !! q = files w !! q)
    ∧ trace w' = trace w ++ [Copytree dest_skill backup_path]
    ∧ locked w' = locked w.
Proof.
  intros backup_path Htree Hstat Hfree Hunlocked.
  assert (Hbroot : backup_path ≠ []) by apply child_not_root.
  assert (Hcopy := copytree_run dest_skill backup_path w Hstat Hfree).
  unfold backup_path at 1 2 in Hcopy. rewrite parent_child in Hcopy.
  fold backup_path in Hcopy.
  assert (Hdirs : ∀ k, 1 ≤ k ≤ length (parent dest_skill) →
                       files w !! take k (parent dest_skill) = Some Dir).
  { intros k Hk.
    destruct (decide (dest_skill = [])) as [Heq | Hroot].
    { rewrite Heq in Hk. simpl in Hk. lia. }
    rewrite stat_not_root in Hstat by done.
    pose proof (prefix_of_parent dest_skill) as [c Hc].
    assert (Hlen : length (parent dest_skill) < length dest_skill).
    { rewrite (path_split dest_skill Hroot) at 2. unfold child.
      rewrite length_app. simpl. lia. }
    replace (take k (parent dest_skill)) with (take k dest_skill).
    - apply (tree_shaped_ancestors _ _ Dir); [done | done | lia].
    - rewrite Hc at 1. by rewrite take_app_le by lia. }
  specialize (Hcopy Hdirs Hunlocked).
  destruct (backup_present dest_skill w) as (wc & r & Hcopy' & Hrun); [by eauto |].
  fold backup_path in Hcopy', Hrun. rewrite Hcopy in Hcopy'.
  injection Hcopy' as <- <-.
  eexists. split; [exact Hrun |].
  cbn [files trace locked set_files log put_out].
  split; [| split; [| split; [| done]]].
  - rewrite stat_not_root by done. rewrite lookup_written_out.
    + by rewrite lookup_insert_eq.
    + intros [rel n] He Heq. apply elem_of_below in He as [Hrel _].
      simpl in Heq. rewrite <- (app_nil_r backup_path) in Heq at 1.
      apply app_inv_head in Heq. by subst rel.
  - intros rel Hrel.
    destruct (files w !! (dest_skill ++ rel)) as [n|] eqn:Hlk.
    + apply lookup_written_in; [apply below_NoDup | by apply elem_of_below].
    + rewrite lookup_written_out.
      * rewrite lookup_insert_ne.
        -- by apply nothing_below_absent.
        -- intros Heq. rewrite <- (app_nil_r backup_path) in Heq at 1.
           apply app_inv_head in Heq. by subst rel.
      * intros [rel' n'] He Heq. simpl in Heq. apply app_inv_head in Heq. subst rel'.
        apply elem_of_below in He as [_ He]. congruence.
  - intros q Hq. rewrite lookup_written_out.
    + rewrite lookup_insert_ne; [done |]. by intros ->.
    + intros e _ ->. apply Hq. by apply prefix_app_r.
Qed.

(** X13: in a tree where the destination is a directory, the backup path of
    the current second is free and nothing at or below it is locked,
    [backup_skill] returns the backup path. Below it there is then exactly
    what is below the destination, and every entry outside the backup, the
    destination included, is as it was. *)
Theorem backup_is_an_exact_copy (dest_skill : path) (w : world) :
  let backup_path :=
    parent dest_skill
    // (name dest_skill +:+ "_backup_" +:+ Py.strftime (clock (process w))) in
  tree_shaped (files w) = true →
  stat (files w) dest_skill = Some Dir →
  stat (files w) backup_path = None →
  unlocked_below (locked w) backup_path →
  ∃ w',
    backup_skill dest_skill w = (w', Ok (Some backup_path))
    ∧ stat (files w') backup_path = Some Dir
    ∧ (∀ rel, rel ≠ [] →
         files w' !! (backup_path ++ rel) = files w !! (dest_skill ++ rel))
    ∧ (∀ q, ¬ backup_path `prefix_of` q → files w' !! q = files w !! q)
    ∧ trace w' = trace w ++ [Copytree dest_skill backup_path].
Proof.
  intros backup_path Htree Hstat Hfree Hunlocked.
  destruct (backup_skill_run dest_skill w Htree Hstat Hfree Hunlocked)
    as (w' & Hrun & Hdir & Hcopy & Hframe & Htrace & _).
  by exists w'.
Qed.

Lemma backup_is_an_exact_copy_witness :
  let dest := sample_skills // "github-pages-deploy" in
  let backup_path := sample_skills // "github-pages-deploy_backup_20260115_093007" in
  ∃ w',
    backup_skill dest installed_skill = (w', Ok (Some backup_path))
    ∧ stat (files w') backup_path = Some Dir
    ∧ (∀ rel, rel ≠ [] →
         files w' !! (backup_path ++ rel) = files installed_skill !! (dest ++ rel))
    ∧ (∀ q, ¬ backup_path `prefix_of` q → files w' !! q = files installed_skill !! q)
    ∧ trace w' = trace installed_skill ++ [Copytree dest backup_path].
Proof.
  intros dest backup_path.
  apply (backup_is_an_exact_copy dest installed_skill).
  - by vm_compute.
  - by vm_compute.
  - by vm_compute.
  - intros q Hq. by apply elem_of_empty in Hq.
Defined.

(** X14: when the backup path of the current second is taken, as after a
    backup made within the same second, [backup_skill] reports
    [FileExistsError], returns nothing and leaves the tree as it was. *)
Theorem backup_collision_is_soft (dest_skill : path) (w : world) :
  let backup_path :=
    parent dest_skill
    // (name dest_skill +:+ "_backup_" +:+ Py.strftime (clock (process w))) in
  stat (files w) dest_skill = Some Dir →
  is_Some (stat (files w) backup_path) →
  ∃ w',
    backup_skill dest_skill w = (w', Ok None)
    ∧ files w' = files w
    ∧ stdout w'
      = stdout w ++ [[Lit "[ERROR] Failed to create backup: ";
                      ShowExn (FileExistsError backup_path)]]
    ∧ trace w' = trace w ++ [Copytree dest_skill backup_path].
Proof.
  intros backup_path Hdest [n Htaken].
  destruct (backup_present dest_skill w) as (wc & r & Hcopy & Hrun); [by eauto |].
  fold backup_path in Hcopy, Hrun.
  unfold copytree in Hcopy. cbn [files log] in Hcopy.
  rewrite Hdest, Htaken in Hcopy. injection Hcopy as <- <-.
  eexists. split; [exact Hrun | done].
Qed.

Lemma backup_collision_is_soft_witness :
  let dest := sample_skills // "github-pages-deploy" in
  let backup_path := sample_skills // "github-pages-deploy_backup_20260115_093007" in
  let w := (backup_skill dest installed_skill).1 in
  ∃ w',
    backup_skill dest w = (w', Ok None)
    ∧ files w' = files w
    ∧ stdout w'
      = stdout w ++ [[Lit "[ERROR] Failed to create backup: ";
                      ShowExn (FileExistsError backup_path)]]
    ∧ trace w' = trace w ++ [Copytree dest backup_path].
Proof.
  intros dest backup_path w.
  apply (backup_collision_is_soft dest w).
  - by vm_compute.
  - vm_compute. by eexists.
Defined.

End BackupRuns.

(** ** The runs of the sync tool *)

Section Runs.
Import SyncSkill.

Lemma tame_of_catchable {A} (m : M A) : catchable m → tame m.
Proof. intros Hm w w' e Hrun. do 3 right. by eapply Hm. Qed.

Lemma tame_bind {A B} (m : M A) (k : A → M B) :
  tame m → (∀ a, tame (k a)) → tame (m ≫= k).
Proof.
  intros Hm Hk w w' e. unfold mbind, M_bind.
  destruct (m w) as [w1 [a|e1]] eqn:Hrun.
  - by apply Hk.
  - intros [= <- <-]. by eapply Hm.
Qed.

Lemma tame_when (b : bool) (body : M unit) : tame body → tame (when b body).
Proof. intros Hb. destruct b; [done |]. apply tame_of_catchable, catchable_ret. Qed.

Lemma tame_exit_0 {A} : tame (sys_exit (A := A) 0).
Proof. intros w w' e [= _ <-]. by left. Qed.

Lemma tame_exit_1 {A} : tame (sys_exit (A := A) 1).
Proof. intros w w' e [= _ <-]. right. by left. Qed.

Lemma tame_input (prompt : string) : tame (input prompt).
Proof.
  intros w w' e. unfold input.
  destruct (stdin (put_out [Lit prompt] w)) as [|[s|] rest]; intros [= _ <-].
  - by do 3 right.
  - right. right. by left.
Qed.

Lemma catchable_of_returns {A} (m : M A) :
  (∀ w, ∃ w' a, m w = (w', Ok a)) → catchable m.
Proof. intros Hm w w' e Hrun. destruct (Hm w) as (w1 & a & Hok). congruence. Qed.

Lemma catchable_backup_skill (dest_skill : path) : catchable (backup_skill dest_skill).
Proof. apply catchable_of_returns, backup_skill_returns. Qed.

Lemma catchable_sync_skill_files (source_skill dest_skill : path) :
  catchable (sync_skill_files source_skill dest_skill).
Proof. unfold sync_skill_files. catchable_script. Qed.

Lemma catchable_package_skill (skills_dir dest_skill : path) :
  catchable (package_skill skills_dir dest_skill).
Proof.
  apply catchable_of_returns. intros w.
  apply (soft_steps_return [] skills_dir dest_skill w).
Qed.

Lemma catchable_update_project_package (project_dir skills_dir : path) :
  catchable (update_project_package project_dir skills_dir).
Proof.
  apply catchable_of_returns. intros w.
  apply (soft_steps_return project_dir skills_dir [] w).
Qed.

Lemma catchable_show_summary (source_skill dest_skill : path)
    (success packaged updated_project : bool) :
  catchable (show_summary source_skill dest_skill success packaged updated_project).
Proof. unfold show_summary. catchable_script. Qed.

Lemma catchable_get_paths : catchable get_paths.
Proof. intros w w' e. rewrite get_paths_run. by intros [=]. Qed.

#[local] Hint Resolve catchable_backup_skill catchable_sync_skill_files
  catchable_package_skill catchable_update_project_package
  catchable_show_summary catchable_get_paths : catchable.

Lemma tame_main : tame main.
Proof.
  unfold main.
  repeat first
    [ progress intros
    | apply tame_bind
    | apply tame_when
    | apply tame_exit_0
    | apply tame_exit_1
    | apply tame_input
    | solve [apply tame_of_catchable; catchable_script]
    | match goal with
      | |- tame (match ?x with _ => _ end) => destruct x
      | |- tame (if ?b then _ else _) => destruct b
      | |- tame (let '(_, _) := ?x in _) => destruct x
      end ].
Qed.

(** X15: the exit status of the sync tool is 0 or 1, whatever the tree, the
    locks and the input. *)
Theorem run_status_is_0_or_1 (w : world) : (run w).2 = 0%Z ∨ (run w).2 = 1%Z.
Proof.
  unfold run. destruct (main w) as [w' [[]|e]] eqn:Hmain; [by left |].
  destruct (tame_main _ _ _ Hmain) as [-> | [-> | [-> | Hexc]]];
    [by left | by right | by left |].
  destruct e; try done; by right.
Qed.

(** Runs [main] up to its test of the source directory. *)
Ltac main_to_source_test w :=
  unfold main;
  do 3 (erewrite bind_run by reflexivity);
  erewrite bind_run by apply get_paths_run;
  cbv beta iota;
  change (project_dir_of (put_out _ _)) with (project_dir_of w);
  change (source_of (put_out _ _)) with (source_of w);
  change (dest_of (put_out _ _)) with (dest_of w);
  change (skills_of (put_out _ _)) with (skills_of w);
  do 3 (erewrite bind_run by reflexivity);
  erewrite bind_run by reflexivity;
  cbn [files put_out].

(** Runs [main] from there to its question, when the source is there. *)
Ltac main_to_question Hsrc :=
  rewrite (bool_decide_eq_true_2 _ Hsrc);
  do 3 (erewrite bind_run by reflexivity).

(** X16: when the source directory is missing, the tool says so and exits
    with status 1 before it asks anything: the input is not read, no call
    that changes the tree is issued and the files are as before. *)
Theorem run_without_source (w : world) :
  stat (files w) (source_of w) = None →
  ∃ w',
    run w = (w', 1%Z)
    ∧ main w = (w', Raise (SystemExit 1))
    ∧ stdout w'
      = stdout w ++ banner w
        ++ [[Lit "[ERROR] Source skill directory not found!"];
            [Lit "[ERROR] Make sure 'github-pages-deploy-skill' folder exists in your project."]]
    ∧ stdin w' = stdin w
    ∧ files w' = files w
    ∧ trace w' = trace w.
Proof.
  intros Habsent.
  assert (Hmain :
    main w
    = (say (banner w
            ++ [[Lit "[ERROR] Source skill directory not found!"];
                [Lit "[ERROR] Make sure 'github-pages-deploy-skill' folder exists in your project."]])
           w,
       Raise (SystemExit 1))).
  { main_to_source_test w. rewrite Habsent.
    rewrite bool_decide_eq_false_2 by (by intros [? ?]).
    by erewrite bind_raise by reflexivity. }
  eexists. split; [unfold run; by rewrite Hmain |].
  split; [exact Hmain |].
  split; [by rewrite stdout_say |].
  split; [done |]. split; [apply files_say | apply trace_say].
Qed.

Lemma run_without_source_witness :
  let w := sample_world sample_install [] [Typed "y"] in
  ∃ w',
    run w = (w', 1%Z)
    ∧ main w = (w', Raise (SystemExit 1))
    ∧ stdout w'
      = stdout w ++ banner w
        ++ [[Lit "[ERROR] Source skill directory not found!"];
            [Lit "[ERROR] Make sure 'github-pages-deploy-skill' folder exists in your project."]]
    ∧ stdin w' = stdin w
    ∧ files w' = files w
    ∧ trace w' = trace w.
Proof.
  intros w. apply (run_without_source w). by vm_compute.
Defined.

(** X17: at the question, the end of the input makes the tool exit with
    status 1 after a traceback on the error stream, and an interrupt makes
    it exit with status 0 after the line that the sync was cancelled. In
    both cases no call that changes the tree was issued. *)
Theorem run_without_answer (w : world) :
  is_Some (stat (files w) (source_of w)) →
  (stdin w = [] →
   ∃ w',
     run w = (w', 1%Z)
     ∧ stderr w' = stderr w ++ [[ShowTraceback EOFError]]
     ∧ files w' = files w
     ∧ trace w' = trace w)
  ∧ (∀ rest,
       stdin w = CtrlC :: rest →
       ∃ w',
         run w = (w', 0%Z)
         ∧ stdout w'
           = stdout w ++ greeting w
             ++ [[Lit (Py.nl +:+ Py.nl +:+ "[INFO] Sync cancelled by user.")]]
         ∧ stderr w' = stderr w
         ∧ files w' = files w
         ∧ trace w' = trace w).
Proof.
  intros Hsrc. split.
  - intros Hin. eexists. split.
    { unfold run. main_to_source_test w. main_to_question Hsrc.
      erewrite bind_raise
        by (unfold input; cbn [stdin put_out]; rewrite Hin; reflexivity).
      reflexivity. }
    by cbn [stderr files trace put_err put_out].
  - intros rest Hin. eexists. split.
    { unfold run. main_to_source_test w. main_to_question Hsrc.
      erewrite bind_raise
        by (unfold input; cbn [stdin put_out]; rewrite Hin; reflexivity).
      reflexivity. }
    cbn [stdout stderr files trace put_out set_stdin].
    split; [| done]. by rewrite <- !app_assoc.
Qed.

Lemma run_without_answer_witness :
  (∃ w',
     run (first_install []) = (w', 1%Z)
     ∧ stderr w' = stderr (first_install []) ++ [[ShowTraceback EOFError]]
     ∧ files w' = files (first_install [])
     ∧ trace w' = trace (first_install []))
  ∧ (∃ w',
       run (first_install [CtrlC]) = (w', 0%Z)
       ∧ stdout w'
         = stdout (first_install [CtrlC]) ++ greeting (first_install [CtrlC])
           ++ [[Lit (Py.nl +:+ Py.nl +:+ "[INFO] Sync cancelled by user.")]]
       ∧ stderr w' = stderr (first_install [CtrlC])
       ∧ files w' = files (first_install [CtrlC])
       ∧ trace w' = trace (first_install [CtrlC])).
Proof.
  split.
  - apply (proj1 (run_without_answer (first_install [])
                    ltac:(vm_compute; by eexists))).
    reflexivity.
  - apply (proj2 (run_without_answer (first_install [CtrlC])
                    ltac:(vm_compute; by eexists)) []).
    reflexivity.
Defined.

(** X18: whenever the sync step does not return [True], whether it returns
    [False] or raises, the tool exits with status 1 and stops there:
    [package_skill] and [update_project_package] are not called, so the
    trace and the files are those the sync step left. *)
Theorem run_stops_after_failed_sync (w : world) (s : string) (rest : list tty)
    (wb ws : world) (backup : option path) (r : result bool) :
  stdin w = Typed s :: rest →
  is_Some (stat (files w) (source_of w)) →
  affirmative s = true →
  backup_skill (dest_of w) (put_out step1 (asked w rest)) = (wb, Ok backup) →
  sync_skill_files (source_of w) (dest_of w) (put_out step2 wb) = (ws, r) →
  r ≠ Ok true →
  ∃ w',
    run w = (w', 1%Z)
    ∧ files w' = files ws
    ∧ trace w' = trace ws.
Proof.
  intros Hin Hsrc Haff Hbackup Hsync Hr.
  assert (Hmain :
    main w
    = match r with
      | Ok _ =>
          (put_out [Lit (Py.nl +:+ "[ERROR] Sync failed! Please check the error messages above.")]
                   ws,
           Raise (SystemExit 1))
      | Raise e => (ws, Raise e)
      end).
  { main_to_source_test w. main_to_question Hsrc.
    erewrite bind_run
      by (unfold input; cbn [stdin put_out]; rewrite Hin; reflexivity).
    unfold affirmative in Haff. rewrite Haff.
    do 2 (erewrite bind_run by reflexivity).
    erewrite bind_run by exact Hbackup.
    erewrite bind_run by reflexivity.
    destruct r as [[|]|e].
    - done.
    - erewrite bind_run by exact Hsync.
      by erewrite bind_raise by reflexivity.
    - by erewrite bind_raise by exact Hsync. }
  unfold run. rewrite Hmain.
  destruct r as [[|]|e]; [done | by eexists |].
  pose proof (catchable_sync_skill_files _ _ _ _ _ Hsync) as Hexc.
  destruct e; try done; by eexists.
Qed.

Lemma run_stops_after_failed_sync_witness :
  let w := sample_world (sample_project ++ [(["home"], File (Text "not a directory"))])
                        [] [Typed "yes"] in
  let wb := (backup_skill (dest_of w) (put_out step1 (asked w []))).1 in
  let ws := (sync_skill_files (source_of w) (dest_of w) (put_out step2 wb)).1 in
  ∃ w',
    run w = (w', 1%Z)
    ∧ files w' = files ws
    ∧ trace w' = trace ws.
Proof.
  intros w wb ws.
  apply (run_stops_after_failed_sync w "yes" [] wb ws None
           (Raise (NotADirectoryError sample_skills))).
  - reflexivity.
  - vm_compute. by eexists.
  - by vm_compute.
  - subst wb. apply run_eq. by vm_compute.
  - subst ws. apply run_eq. by vm_compute.
  - done.
Defined.

End Runs.

(** ** Packaging a directory of another name *)

Section PackageName.
Import SyncSkill.

Lemma bind_ok_inv {A B} (m : M A) (k : A → M B) (w w2 : world) (b : B) :
  (m ≫= k) w = (w2, Ok b) → ∃ w1 a, m w = (w1, Ok a) ∧ k a w1 = (w2, Ok b).
Proof.
  unfold mbind, M_bind. destruct (m w) as [w1 [a|e]]; [by eauto | done].
Qed.

Lemma unlink_keeps_others (p : path) (w w' : world) (r : result unit) :
  unlink p w = (w', r) → ∀ q, q ≠ p → files w' !! q = files w !! q.
Proof.
  intros Hrun q Hq. unfold unlink in Hrun.
  repeat (case_match; simplify_eq); simplify_eq; try done.
  cbn [files set_files log]. by rewrite lookup_delete_ne.
Qed.

Lemma create_file_keeps_others (p : path) (d : data) (w w' : world) (r : result unit) :
  create_file p d w = (w', r) → ∀ q, q ≠ p → files w' !! q = files w !! q.
Proof.
  intros Hrun q Hq. unfold create_file in Hrun.
  repeat (case_match; simplify_eq); simplify_eq; try done;
    cbn [files set_files]; by rewrite lookup_insert_ne.
Qed.

(** The loop of [package_skill] over entries below a destination that does
    not bear the fixed name stops at the first regular file. *)
Lemma package_loop_stops (pkg dest_skill : path) (items : list path) (w : world) :
  dest_skill ≠ [] →
  name dest_skill ≠ "github-pages-deploy" →
  (∀ item, item ∈ items → dest_skill `prefix_of` item) →
  (∃ item d, item ∈ items ∧ stat (files w) item = Some (File d)) →
  ∃ e,
    for_each items (λ item,
      regular ← is_file item;
      when regular
        (arcname ← path_relative_to item (parent dest_skill // "github-pages-deploy");
         tar_add pkg item arcname)) w
    = (w, Raise e).
Proof.
  intros Hroot Hname. induction items as [|item items IH]; intros Hbelow Hregular.
  - destruct Hregular as (item & d & Hin & _). by apply elem_of_nil in Hin.
  - cbn [for_each]. unfold mbind at 1. unfold M_bind at 1.
    unfold mbind at 1. unfold M_bind at 1. unfold is_file at 1.
    destruct (stat (files w) item) as [[d|]|] eqn:Hstat.
    + unfold when. unfold mbind at 1. unfold M_bind at 1.
      unfold path_relative_to.
      destruct (relative_to item (parent dest_skill // "github-pages-deploy"))
        as [rel|] eqn:Hrel; [| by eexists].
      exfalso. apply relative_to_Some in Hrel.
      destruct (Hbelow item) as [rel' Hitem]; [left |].
      rewrite Hitem in Hrel.
      assert (Hlen : length dest_skill
                     = length (parent dest_skill // "github-pages-deploy")).
      { rewrite (path_split dest_skill Hroot) at 1. unfold child.
        by rewrite !length_app. }
      assert (Heq : dest_skill = parent dest_skill // "github-pages-deploy").
      { apply (f_equal (take (length dest_skill))) in Hrel.
        rewrite take_app_length in Hrel. rewrite Hlen in Hrel at 1.
        by rewrite take_app_length in Hrel. }
      apply Hname. rewrite Heq. apply name_child.
    + unfold when at 1, mret at 1, M_ret at 1. apply IH.
      * intros i Hi. apply Hbelow. by right.
      * destruct Hregular as (i & d & Hin & Hi).
        apply elem_of_cons in Hin as [-> | Hin]; [congruence | by eauto].
    + unfold when at 1, mret at 1, M_ret at 1. apply IH.
      * intros i Hi. apply Hbelow. by right.
      * destruct Hregular as (i & d & Hin & Hi).
        apply elem_of_cons in Hin as [-> | Hin]; [congruence | by eauto].
Qed.

(** X19: [package_skill] computes the member names relative to
    [dest_skill.parent / "github-pages-deploy"], so it only packages a
    destination of that name: for a directory of another name with a regular
    file below it (and the archive not inside it), it returns [False]. *)
Theorem package_needs_the_fixed_name (skills_dir dest_skill : path) (w : world) :
  dest_skill ≠ [] →
  name dest_skill ≠ "github-pages-deploy" →
  stat (files w) dest_skill = Some Dir →
  ¬ dest_skill `prefix_of` skills_dir // "github-pages-deploy.skill" →
  (∃ rel d, rel ≠ [] ∧ files w !! (dest_skill ++ rel) = Some (File d)) →
  ∃ w', package_skill skills_dir dest_skill w = (w', Ok false).
Proof.
  intros Hroot Hname Hdir Hout (rel & d & Hrel & Hfile).
  set (pkg := skills_dir // "github-pages-deploy.skill") in *.
  unfold package_skill, try_except. fold pkg.
  match goal with |- context [match ?body w with _ => _ end] =>
    destruct (body w) as [w2 [b|e]] eqn:Hbody end.
  - exfalso.
    apply bind_ok_inv in Hbody as (w0 & old & Hexists & Hbody).
    injection Hexists as <- _.
    apply bind_ok_inv in Hbody as (wa & [] & Hremove & Hbody).
    apply bind_ok_inv in Hbody as (w1 & [] & Hopen & Hbody).
    apply bind_ok_inv in Hbody as (w1' & items & Hglob & Hbody).
    apply bind_ok_inv in Hbody as (w3 & [] & Hloop & _).
    assert (Hsame : ∀ q, q ≠ pkg → files w1 !! q = files w !! q).
    { intros q Hq.
      rewrite (create_file_keeps_others _ _ _ _ _ Hopen q Hq). cbn [files log].
      unfold when in Hremove. destruct old.
      - unfold mbind, M_bind in Hremove.
        destruct (unlink pkg w) as [wu [[]|eu]] eqn:Hunlink; [| done].
        injection Hremove as <-. cbn [files put_out].
        by apply (unlink_keeps_others _ _ _ _ Hunlink).
      - by injection Hremove as <-. }
    assert (Hne : ∀ r, dest_skill ++ r ≠ pkg).
    { intros r Heq. apply Hout. rewrite <- Heq. by apply prefix_app_r. }
    assert (Hdir1 : stat (files w1) dest_skill = Some Dir).
    { rewrite stat_not_root in * by done. rewrite Hsame; [done |].
      intros Heq. apply (Hne []). by rewrite app_nil_r. }
    unfold rglob in Hglob. rewrite Hdir1 in Hglob. injection Hglob as <- <-.
    destruct (package_loop_stops pkg dest_skill
                ((λ e : path * node, dest_skill ++ e.1) <$> below dest_skill (files w1))
                w1 Hroot Hname) as (e & Hstop).
    + intros item Hin. apply list_elem_of_fmap in Hin as (e & -> & _).
      by apply prefix_app_r.
    + exists (dest_skill ++ rel), d. split.
      * apply (list_elem_of_fmap_2 (λ e : path * node, dest_skill ++ e.1) _ (rel, File d)).
        apply elem_of_below. split; [done |]. by rewrite Hsame.
      * rewrite stat_not_root by (by destruct dest_skill). by rewrite Hsame.
    + rewrite Hstop in Hloop. discriminate Hloop.
  - assert (Hexc : is_Exception e = true).
    { revert Hbody. generalize w w2 e.
      change (catchable (
        old ← exists_ pkg;
        when old
          (unlink pkg;;
           print [Lit "[INFO] Removed old package: "; ShowPath pkg]);;
        tar_open pkg TarPlain;;
        items ← rglob dest_skill;
        for_each items (λ item,
          regular ← is_file item;
          when regular
            (arcname ← path_relative_to item (parent dest_skill // "github-pages-deploy");
             tar_add pkg item arcname));;
        print [Lit "[OK] Packaged skill to: "; ShowPath pkg];;
        st ← path_stat pkg;
        print [Lit "[OK] Package size: "; ShowKb st; Lit " KB"];;
        mret true)).
      catchable_script. }
    rewrite Hexc. by eexists.
Qed.

Lemma package_needs_the_fixed_name_witness :
  ∃ w', package_skill ["work"; "game"] sample_source (first_install [])
        = (w', Ok false).
Proof.
  apply (package_needs_the_fixed_name ["work"; "game"] sample_source (first_install [])).
  - done.
  - by vm_compute.
  - by vm_compute.
  - apply (bool_decide_unpack _). by vm_compute.
  - exists ["SKILL.md"], (Text "# deploy, revised"). split; [done | by vm_compute].
Defined.

End PackageName.

(** ** The locks and the process stay as they are *)

Lemma keeps_setup_ret {A} (a : A) : keeps_setup (mret a).
Proof. by intros w w' r [= <- _]. Qed.

Lemma keeps_setup_bind {A B} (m : M A) (k : A → M B) :
  keeps_setup m → (∀ a, keeps_setup (k a)) → keeps_setup (m ≫= k).
Proof.
  intros Hm Hk w w' r. unfold mbind, M_bind.
  destruct (m w) as [w1 [a|e]] eqn:Hrun.
  - intros Hka. destruct (Hm _ _ _ Hrun) as [<- <-]. by eapply Hk.
  - intros [= <- _]. by eapply Hm.
Qed.

Lemma keeps_setup_try_except {A} (body : M A) (handler : exn → M A) :
  keeps_setup body → (∀ e, keeps_setup (handler e)) →
  keeps_setup (try_except body handler).
Proof.
  intros Hb Hh w w' r. unfold try_except.
  destruct (body w) as [w1 [a|e]] eqn:Hrun.
  - intros [= <- _]. by eapply Hb.
  - destruct (is_Exception e).
    + intros Hhe. destruct (Hb _ _ _ Hrun) as [<- <-]. by eapply Hh.
    + intros [= <- _]. by eapply Hb.
Qed.

Lemma keeps_setup_when (b : bool) (body : M unit) :
  keeps_setup body → keeps_setup (when b body).
Proof. intros Hb. destruct b; [done | apply keeps_setup_ret]. Qed.

Lemma keeps_setup_for_each {A} (xs : list A) (body : A → M unit) :
  (∀ x, keeps_setup (body x)) → keeps_setup (for_each xs body).
Proof.
  intros Hb. induction xs as [|x xs IH]; simpl.
  - apply keeps_setup_ret.
  - by apply keeps_setup_bind.
Qed.

(** Settles a library call by its cases. *)
Ltac keeps_setup_call :=
  intros ? ? ? Hrun; cbv beta zeta in Hrun;
  repeat (case_match; simplify_eq); simplify_eq; done.

Lemma keeps_setup_print (l : list frag) : keeps_setup (print l).
Proof. unfold print. keeps_setup_call. Qed.

Lemma keeps_setup_exists (p : path) : keeps_setup (exists_ p).
Proof. unfold exists_. keeps_setup_call. Qed.

Lemma keeps_setup_is_file (p : path) : keeps_setup (is_file p).
Proof. unfold is_file. keeps_setup_call. Qed.

Lemma keeps_setup_unlink (p : path) : keeps_setup (unlink p).
Proof. unfold unlink. keeps_setup_call. Qed.

Lemma keeps_setup_create_file (p : path) (d : data) : keeps_setup (create_file p d).
Proof. unfold create_file. keeps_setup_call. Qed.

Lemma keeps_setup_tar_open (p : path) (mode : tar_mode) : keeps_setup (tar_open p mode).
Proof.
  intros w w' r Hrun. unfold tar_open in Hrun.
  by apply keeps_setup_create_file in Hrun.
Qed.

Lemma keeps_setup_tar_add (archive item arcname : path) :
  keeps_setup (tar_add archive item arcname).
Proof. unfold tar_add. keeps_setup_call. Qed.

Lemma keeps_setup_rglob (p : path) : keeps_setup (rglob p).
Proof. unfold rglob. keeps_setup_call. Qed.

Lemma keeps_setup_path_stat (p : path) : keeps_setup (path_stat p).
Proof. unfold path_stat. keeps_setup_call. Qed.

Lemma keeps_setup_path_relative_to (item base : path) :
  keeps_setup (path_relative_to item base).
Proof.
  unfold path_relative_to. destruct (relative_to item base).
  - apply keeps_setup_ret.
  - by intros w w' r [= <- _].
Qed.

Create HintDb keeps_setup.
#[local] Hint Resolve keeps_setup_ret keeps_setup_print keeps_setup_exists
  keeps_setup_is_file keeps_setup_unlink keeps_setup_create_file
  keeps_setup_tar_open keeps_setup_tar_add keeps_setup_rglob
  keeps_setup_path_stat keeps_setup_path_relative_to : keeps_setup.

Lemma keeps_setup_package_skill (skills_dir dest_skill : path) :
  keeps_setup (SyncSkill.package_skill skills_dir dest_skill).
Proof.
  unfold SyncSkill.package_skill.
  repeat first
    [ progress intros
    | apply keeps_setup_bind
    | apply keeps_setup_try_except
    | apply keeps_setup_when
    | apply keeps_setup_for_each
    | solve [auto with keeps_setup] ].
Qed.

(** ** A first installation, from the question to the summary *)

Section FirstInstall.
Import SyncSkill.

Lemma locked_say (ls : list (list frag)) (w : world) : locked (say ls w) = locked w.
Proof. revert w. induction ls as [|l ls IH]; intros w; simpl; [done | by rewrite IH]. Qed.

Lemma prefix_snoc_cases (p s : path) (c : string) :
  p `prefix_of` s // c → p `prefix_of` s ∨ p = s // c.
Proof.
  unfold child. intros [tl Htl]. destruct tl as [|x tl _] using rev_ind.
  - right. by rewrite app_nil_r in Htl.
  - left. rewrite app_assoc in Htl. apply app_inj_tail in Htl as [-> _].
    by apply prefix_app_r.
Qed.

Lemma files_put_out (l : list frag) (w : world) : files (put_out l w) = files w.
Proof. done. Qed.

Lemma locked_put_out (l : list frag) (w : world) : locked (put_out l w) = locked w.
Proof. done. Qed.

Lemma files_asked (w : world) (rest : list tty) : files (asked w rest) = files w.
Proof.
  unfold asked. generalize (files_say (greeting w) w).
  generalize (say (greeting w) w). by intros wq <-.
Qed.

Lemma locked_asked (w : world) (rest : list tty) : locked (asked w rest) = locked w.
Proof.
  unfold asked. generalize (locked_say (greeting w) w).
  generalize (say (greeting w) w). by intros wq <-.
Qed.

(** When the four steps succeed, [main] returns, and the files are those
    the last step left. *)
Lemma main_completes (w : world) (s : string) (rest : list tty)
    (wb : world) (backup : option path) (ws wp wu : world) :
  stdin w = Typed s :: rest →
  is_Some (stat (files w) (source_of w)) →
  affirmative s = true →
  backup_skill (dest_of w) (put_out step1 (asked w rest)) = (wb, Ok backup) →
  sync_skill_files (source_of w) (dest_of w) (put_out step2 wb) = (ws, Ok true) →
  package_skill (skills_of w) (dest_of w) (put_out step3 ws) = (wp, Ok true) →
  update_project_package (project_dir_of w) (skills_of w) (put_out step4 wp)
  = (wu, Ok true) →
  ∃ w', main w = (w', Ok tt) ∧ files w' = files wu.
Proof.
  intros Hin Hsrc Haff Hbackup Hsync Hpackage Hupdate.
  unfold main.
  do 3 (erewrite bind_run by reflexivity).
  erewrite bind_run by apply get_paths_run.
  cbv beta iota.
  change (project_dir_of (put_out _ _)) with (project_dir_of w).
  change (source_of (put_out _ _)) with (source_of w).
  change (dest_of (put_out _ _)) with (dest_of w).
  change (skills_of (put_out _ _)) with (skills_of w).
  do 3 (erewrite bind_run by reflexivity).
  erewrite bind_run by reflexivity.
  cbn [files put_out].
  rewrite (bool_decide_eq_true_2 _ Hsrc).
  do 3 (erewrite bind_run by reflexivity).
  erewrite bind_run
    by (unfold input; cbn [stdin put_out]; rewrite Hin; reflexivity).
  unfold affirmative in Haff. rewrite Haff.
  do 2 (erewrite bind_run by reflexivity).
  erewrite bind_run by exact Hbackup.
  erewrite bind_run by reflexivity.
  erewrite bind_run by exact Hsync.
  do 2 (erewrite bind_run by reflexivity).
  erewrite bind_run by exact Hpackage.
  erewrite bind_run by reflexivity.
  erewrite bind_run by exact Hupdate.
  unfold show_summary.
  repeat (erewrite bind_run by reflexivity).
  destruct backup; repeat (erewrite bind_run by reflexivity);
    (eexists; split; [reflexivity | done]).
Qed.

(** X20: a first installation. When the answer is a yes, the tree is a tree
    without locks, the source is a directory, nothing is installed yet, the
    way to the skills directory can be made, neither the source nor the
    destination lies inside the other and the two archive paths are free
    for a file, the tool exits with status 0 and leaves a destination that
    is a copy of the source, an uncompressed archive in the skills directory
    whose members are exactly the regular files of the source under their
    paths relative to it, and the same archive in the project directory. *)
Theorem first_install_end_to_end (w : world) (s : string) (rest : list tty) :
  let source := source_of w in
  let dest := dest_of w in
  let pkg := skills_of w // "github-pages-deploy.skill" in
  let copy := project_dir_of w // "github-pages-deploy.skill" in
  stdin w = Typed s :: rest →
  affirmative s = true →
  tree_shaped (files w) = true →
  locked w = ∅ →
  stat (files w) source = Some Dir →
  stat (files w) dest = None →
  can_make_dirs (files w) (locked w) (skills_of w) = true →
  ¬ dest `prefix_of` source →
  ¬ source `prefix_of` dest →
  stat (files w) pkg ≠ Some Dir →
  stat (files w) copy ≠ Some Dir →
  ¬ copy `prefix_of` skills_of w →
  project_dir_of w ≠ skills_of w →
  ∃ w' ms,
    run w = (w', 0%Z)
    ∧ stat (files w') dest = Some Dir
    ∧ (∀ rel, rel ≠ [] → files w' !! (dest ++ rel) = files w !! (source ++ rel))
    ∧ files w' !! pkg = Some (File (Archive TarPlain ms))
    ∧ files w' !! copy = Some (File (Archive TarPlain ms))
    ∧ (∀ arc n, (arc, n) ∈ ms
                ↔ arc ≠ [] ∧ is_regular n ∧ files w !! (source ++ arc) = Some n).
Proof.
  intros source dest pkg copy Hin Haff Htree Hlocks Hsrc Hdest Hcan Hds Hsd
    Hpkg Hcopy Hcopy_off Hdirs_differ.
  assert (Hparent : parent dest = skills_of w) by apply parent_child.
  assert (Hsroot : source ≠ []) by apply child_not_root.
  assert (Hdroot : dest ≠ []) by apply child_not_root.
  assert (Hproot : pkg ≠ []) by apply child_not_root.
  assert (Hcroot : copy ≠ []) by apply child_not_root.
  (* the backup step finds nothing to back up *)
  set (w1 := put_out step1 (asked w rest)).
  assert (Hfiles1 : files w1 = files w)
    by (unfold w1; rewrite files_put_out; apply files_asked).
  assert (Hlocked1 : locked w1 = locked w)
    by (unfold w1; rewrite locked_put_out; apply locked_asked).
  assert (Hbackup : backup_skill dest w1
                    = (put_out [Lit "[INFO] No existing skill found, skipping backup"] w1,
                       Ok None)).
  { apply backup_absent. by rewrite Hfiles1. }
  set (wb := put_out [Lit "[INFO] No existing skill found, skipping backup"] w1) in *.
  (* the sync step *)
  set (w2 := put_out step2 wb).
  assert (Hfiles2 : files w2 = files w)
    by (unfold w2, wb; rewrite !files_put_out; exact Hfiles1).
  assert (Hlocked2 : locked w2 = locked w)
    by (unfold w2, wb; rewrite !locked_put_out; exact Hlocked1).
  destruct (sync_skill_files_run source dest w2)
    as (ws & Hsync & Hsdest & Hsparent & Hscopy & Hskeep & _ & Hsoff & Hslocked & _).
  { rewrite Hfiles2. intros _ rel. by apply nothing_below_absent. }
  { by rewrite Hfiles2. }
  { rewrite Hfiles2, Hlocked2, Hparent. done. }
  { rewrite Hfiles2. intros d. by rewrite Hdest. }
  { rewrite Hlocked2, Hlocks. intros q Hq. by apply elem_of_empty in Hq. }
  { done. }
  { done. }
  rewrite Hfiles2 in Hscopy, Hskeep, Hsoff. rewrite Hparent in Hsparent, Hsoff.
  (* the package step *)
  set (w3 := put_out step3 ws).
  assert (Hdest_pkg : ∀ rel, dest ++ rel ≠ pkg)
    by (intros rel; apply dest_not_package).
  assert (Hpkg_dest : ¬ dest `prefix_of` pkg).
  { intros [rel Hrel]. by apply (Hdest_pkg rel). }
  assert (Hpkg_off : ¬ pkg `prefix_of` skills_of w).
  { intros Hpre. apply prefix_length in Hpre. unfold pkg, child in Hpre.
    rewrite length_app in Hpre. simpl in Hpre. lia. }
  destruct (package_skill_run (skills_of w) w3)
    as (wp & ms & Hpackage & Hpfiles & Hms & _ & _).
  { done. }
  { done. }
  { cbn [files w3 put_out]. rewrite stat_not_root in * by done.
    by rewrite Hsoff. }
  { cbn [locked w3 put_out]. rewrite Hslocked, Hlocked2, Hlocks.
    apply not_elem_of_empty. }
  fold dest pkg in Hpackage, Hpfiles, Hms. cbn [files w3 put_out] in Hpfiles, Hms.
  assert (Hplocked : locked wp = locked w).
  { destruct (keeps_setup_package_skill _ _ _ _ _ Hpackage) as [-> _].
    cbn [locked w3 put_out]. by rewrite Hslocked. }
  (* the update of the project's copy *)
  set (w4 := put_out step4 wp).
  assert (Hcopy_pkg : copy ≠ pkg).
  { unfold copy, pkg, child. intros Heq. by apply app_inj_tail in Heq as [? _]. }
  assert (Hcopy_dest : ¬ dest `prefix_of` copy).
  { intros Hpre. destruct (prefix_snoc_cases _ _ _ Hpre) as [Hd | Heq].
    - apply Hds. etrans; [exact Hd |]. unfold source, source_of. by apply prefix_app_r.
    - unfold dest, dest_of, child in Heq. by apply app_inj_tail in Heq as [_ [=]]. }
  assert (Hproject : stat (files w) (project_dir_of w) = Some Dir).
  { rewrite <- (parent_child (project_dir_of w) "github-pages-deploy-skill").
    rewrite stat_not_root in Hsrc by done.
    by apply (tree_shaped_parent _ _ Dir). }
  destruct (proj2 (update_project_package_run (project_dir_of w) (skills_of w) w4)
              (Archive TarPlain ms))
    as (wu & Hupdate & Hufiles & _).
  { cbn [files w4 put_out]. rewrite stat_not_root by done.
    fold pkg. by rewrite Hpfiles, lookup_insert_eq. }
  { done. }
  { cbn [files w4 put_out]. rewrite Hpfiles.
    destruct (decide (project_dir_of w = [])) as [-> | Hnot_root]; [done |].
    rewrite stat_insert_ne.
    - rewrite stat_not_root in * by done. apply Hskeep; [| done].
      intros Hpre. apply Hds. etrans; [exact Hpre |].
      unfold source, source_of. by apply prefix_app_r.
    - intros Heq. apply Hpkg. fold pkg. by rewrite <- Heq. }
  { fold copy. cbn [files w4 put_out]. rewrite Hpfiles.
    rewrite stat_insert_ne by done. rewrite stat_not_root by done.
    rewrite Hsoff by done. rewrite <- stat_not_root by done.
    intros n Hn. destruct n as [d|]; [by eexists | done]. }
  { fold copy. cbn [locked w4 put_out]. rewrite Hplocked, Hlocks.
    apply not_elem_of_empty. }
  fold pkg copy in Hufiles. cbn [files w4 put_out] in Hufiles.
  (* the run as a whole *)
  destruct (main_completes w s rest wb None ws wp wu Hin (ex_intro _ _ Hsrc) Haff
              Hbackup Hsync Hpackage Hupdate) as (w' & Hmain & Hfiles').
  exists w', ms. split; [unfold run; by rewrite Hmain |].
  rewrite Hfiles', Hufiles, Hpfiles.
  split; [| split; [| split; [| split]]].
  - rewrite stat_not_root by done.
    rewrite !lookup_insert_ne; [by rewrite <- stat_not_root | |].
    + intros Heq. apply (Hdest_pkg []). by rewrite app_nil_r.
    + intros Heq. apply Hcopy_dest. by rewrite Heq.
  - intros rel Hrel. rewrite !lookup_insert_ne; [by apply Hscopy | |].
    + by apply not_eq_sym.
    + intros Heq. apply Hcopy_dest. rewrite Heq. by apply prefix_app_r.
  - rewrite lookup_insert_ne by done. by rewrite lookup_insert_eq.
  - by rewrite lookup_insert_eq.
  - intros arc n. rewrite Hms. split.
    + intros (Harc & Hreg & Hlk). by rewrite <- Hscopy.
    + intros (Harc & Hreg & Hlk). by rewrite Hscopy.
Qed.

Lemma first_install_end_to_end_witness :
  let w := first_install [Typed "y"] in
  let source := source_of w in
  let dest := dest_of w in
  let pkg := skills_of w // "github-pages-deploy.skill" in
  let copy := project_dir_of w // "github-pages-deploy.skill" in
  ∃ w' ms,
    run w = (w', 0%Z)
    ∧ stat (files w') dest = Some Dir
    ∧ (∀ rel, rel ≠ [] → files w' !! (dest ++ rel) = files w !! (source ++ rel))
    ∧ files w' !! pkg = Some (File (Archive TarPlain ms))
    ∧ files w' !! copy = Some (File (Archive TarPlain ms))
    ∧ (∀ arc n, (arc, n) ∈ ms
                ↔ arc ≠ [] ∧ is_regular n ∧ files w !! (source ++ arc) = Some n).
Proof.
  intros w.
  apply (first_install_end_to_end w "y" []).
  - reflexivity.
  - by vm_compute.
  - by vm_compute.
  - reflexivity.
  - by vm_compute.
  - by vm_compute.
  - by vm_compute.
  - apply (bool_decide_unpack _). by vm_compute.
  - apply (bool_decide_unpack _). by vm_compute.
  - by vm_compute.
  - by vm_compute.
  - apply (bool_decide_unpack _). by vm_compute.
  - apply (bool_decide_unpack _). by vm_compute.
Defined.

End FirstInstall.

(** ** A new installation over an old one *)

Section Reinstall.
Import SyncSkill.

Lemma process_put_out (l : list frag) (w : world) :
  process (put_out l w) = process w.
Proof. done. Qed.

Lemma process_say (ls : list (list frag)) (w : world) : process (say ls w) = process w.
Proof. revert w. induction ls as [|l ls IH]; intros w; simpl; [done | by rewrite IH]. Qed.

Lemma process_asked (w : world) (rest : list tty) : process (asked w rest) = process w.
Proof.
  unfold asked. generalize (process_say (greeting w) w).
  generalize (say (greeting w) w). by intros wq <-.
Qed.

(** A backup is named neither as the skill nor as its archive. *)
Lemma backup_name_fresh (ts : string) :
  "github-pages-deploy" +:+ "_backup_" +:+ ts ≠ "github-pages-deploy"
  ∧ "github-pages-deploy" +:+ "_backup_" +:+ ts ≠ "github-pages-deploy.skill".
Proof. split; intros Heq; cbv [String.app] in Heq; by simplify_eq. Qed.

(** Two entries of one directory lie inside each other only when they are
    one entry. *)
Lemma sibling_prefix (p rel : path) (c c' : string) :
  p // c `prefix_of` p // c' ++ rel → c = c'.
Proof.
  unfold child. rewrite <- app_assoc. intros Hpre.
  apply prefix_app_inv in Hpre. simpl in Hpre.
  by apply prefix_cons_inv_1 in Hpre.
Qed.

Lemma can_make_dirs_of_dirs (fs : gmap path node) (lk : gset path) (p : path) :
  (∀ k, 1 ≤ k ≤ length p → fs !! take k p = Some Dir) →
  can_make_dirs fs lk p = true.
Proof.
  intros Hdirs. unfold can_make_dirs. apply forallb_forall.
  intros k Hk%in_seq. unfold passable. rewrite Hdirs; [done | lia].
Qed.

(** What exists has nothing absent above it. *)
Lemma absent_not_above (fs : gmap path node) (p q : path) (n : node) :
  tree_shaped fs = true → stat fs p = None → fs !! q = Some n →
  ¬ p `prefix_of` q.
Proof.
  intros Htree Hp Hq [rel ->]. by rewrite nothing_below_absent in Hq.
Qed.

(** X21: a new installation over an old one. When the answer is a yes, the
    tree is a tree without locks, the source and the destination are
    directories neither of which lies inside the other, the backup path of
    the current second is free, the two archive paths are free for a file and
    the project directory is not the skills directory, the tool exits with
    status 0. Afterwards the backup holds the old installation, entry by
    entry; the destination is a copy of the source; the archive in the skills
    directory has exactly the regular files of the source as its members,
    under their paths relative to it; and the project directory holds the
    same archive. *)
Theorem reinstall_end_to_end (w : world) (s : string) (rest : list tty) :
  let source := source_of w in
  let dest := dest_of w in
  let backup :=
    skills_of w
    // ("github-pages-deploy" +:+ "_backup_" +:+ Py.strftime (clock (process w))) in
  let pkg := skills_of w // "github-pages-deploy.skill" in
  let copy := project_dir_of w // "github-pages-deploy.skill" in
  stdin w = Typed s :: rest →
  affirmative s = true →
  tree_shaped (files w) = true →
  locked w = ∅ →
  stat (files w) source = Some Dir →
  stat (files w) dest = Some Dir →
  stat (files w) backup = None →
  ¬ dest `prefix_of` source →
  ¬ source `prefix_of` dest →
  stat (files w) pkg ≠ Some Dir →
  stat (files w) copy ≠ Some Dir →
  project_dir_of w ≠ skills_of w →
  ∃ w' ms,
    run w = (w', 0%Z)
    ∧ stat (files w') backup = Some Dir
    ∧ (∀ rel, rel ≠ [] → files w' !! (backup ++ rel) = files w !! (dest ++ rel))
    ∧ stat (files w') dest = Some Dir
    ∧ (∀ rel, rel ≠ [] → files w' !! (dest ++ rel) = files w !! (source ++ rel))
    ∧ files w' !! pkg = Some (File (Archive TarPlain ms))
    ∧ files w' !! copy = Some (File (Archive TarPlain ms))
    ∧ (∀ arc n, (arc, n) ∈ ms
                ↔ arc ≠ [] ∧ is_regular n ∧ files w !! (source ++ arc) = Some n).
Proof.
  intros source dest backup pkg copy Hin Haff Htree Hlocks Hsrc Hdest Hfree Hds Hsd
    Hpkg Hcopy Hdirs_differ.
  assert (Hparent : parent dest = skills_of w) by apply parent_child.
  assert (Hname : name dest = "github-pages-deploy") by apply name_child.
  assert (Hsroot : source ≠ []) by apply child_not_root.
  assert (Hdroot : dest ≠ []) by apply child_not_root.
  assert (Hbroot : backup ≠ []) by apply child_not_root.
  assert (Hproot : pkg ≠ []) by apply child_not_root.
  assert (Hcroot : copy ≠ []) by apply child_not_root.
  destruct (backup_name_fresh (Py.strftime (clock (process w)))) as [Hfresh1 Hfresh2].
  pose proof Hsrc as Hsrc'. pose proof Hdest as Hdest'.
  rewrite stat_not_root in Hsrc', Hdest' by done.
  (* where the paths lie *)
  assert (Hunlocked : ∀ p, unlocked_below (locked w) p).
  { intros p q Hq. rewrite Hlocks in Hq. by apply elem_of_empty in Hq. }
  assert (Hb_dest : ∀ rel, ¬ backup `prefix_of` dest ++ rel).
  { intros rel Hpre. by apply sibling_prefix in Hpre. }
  assert (Hdest_b : ∀ rel, ¬ dest `prefix_of` backup ++ rel).
  { intros rel Hpre. by apply sibling_prefix in Hpre. }
  assert (Hb_pkg : ¬ backup `prefix_of` pkg).
  { intros Hpre. rewrite <- (app_nil_r pkg) in Hpre. by apply sibling_prefix in Hpre. }
  assert (Hdest_pkg : ¬ dest `prefix_of` pkg).
  { intros [rel Hrel]. by apply (dest_not_package (skills_of w) rel). }
  assert (Hb_source : ∀ rel, ¬ backup `prefix_of` source ++ rel).
  { intros rel Hpre. destruct (prefix_app_cases _ _ _ Hpre) as [Hbs | Hsb].
    - by apply (absent_not_above _ _ _ _ Htree Hfree Hsrc').
    - destruct (prefix_snoc_cases _ _ _ Hsb) as [Hskills | Heq].
      + apply Hsd. etrans; [exact Hskills |]. by apply prefix_app_r.
      + fold backup in Heq. rewrite Heq, Hfree in Hsrc. done. }
  assert (Hproject : stat (files w) (project_dir_of w) = Some Dir).
  { rewrite <- (parent_child (project_dir_of w) "github-pages-deploy-skill").
    by apply (tree_shaped_parent _ _ Dir). }
  assert (Hb_project : ¬ backup `prefix_of` project_dir_of w).
  { intros Hpre. apply (Hb_source []). rewrite app_nil_r.
    etrans; [exact Hpre |]. by apply prefix_app_r. }
  assert (Hb_copy : ¬ backup `prefix_of` copy).
  { intros Hpre. destruct (prefix_snoc_cases _ _ _ Hpre) as [Hbp | Heq]; [done |].
    unfold backup, copy, child in Heq. by apply app_inj_tail in Heq as [_ ?]. }
  assert (Hdest_copy : ¬ dest `prefix_of` copy).
  { intros Hpre. destruct (prefix_snoc_cases _ _ _ Hpre) as [Hd | Heq].
    - apply Hds. etrans; [exact Hd |]. by apply prefix_app_r.
    - unfold dest, dest_of, child in Heq. by apply app_inj_tail in Heq as [_ [=]]. }
  assert (Hancestors : ∀ k, 1 ≤ k ≤ length (skills_of w) →
                            files w !! take k (skills_of w) = Some Dir).
  { intros k Hk. replace (take k (skills_of w)) with (take k dest).
    - apply (tree_shaped_ancestors _ _ Dir); [done | done |].
      unfold dest, dest_of, child. rewrite length_app. simpl. lia.
    - unfold dest, dest_of, child. by rewrite take_app_le by lia. }
  assert (Hcopy_skills : ¬ copy `prefix_of` skills_of w).
  { intros Hpre. apply Hcopy. rewrite stat_not_root by done.
    pose proof (prefix_length _ _ Hpre) as Hlen.
    rewrite <- (Hancestors (length copy)).
    - f_equal. destruct Hpre as [tl ->]. by rewrite take_app_length.
    - split; [| done]. unfold copy, child. rewrite length_app. simpl. lia. }
  assert (Hpkg_skills : ¬ pkg `prefix_of` skills_of w).
  { intros Hpre. apply prefix_length in Hpre. unfold pkg, child in Hpre.
    rewrite length_app in Hpre. simpl in Hpre. lia. }
  (* the backup step *)
  set (w1 := put_out step1 (asked w rest)).
  assert (Hfiles1 : files w1 = files w)
    by (unfold w1; rewrite files_put_out; apply files_asked).
  assert (Hlocked1 : locked w1 = locked w)
    by (unfold w1; rewrite locked_put_out; apply locked_asked).
  assert (Hprocess1 : process w1 = process w)
    by (unfold w1; rewrite process_put_out; apply process_asked).
  pose proof (backup_skill_run dest w1) as Hb. cbv zeta in Hb.
  rewrite Hparent, Hname, Hprocess1, Hfiles1, Hlocked1 in Hb. fold backup in Hb.
  destruct (Hb Htree Hdest Hfree (Hunlocked _))
    as (wb & Hbackup & Hbdir & Hbcopy & Hbframe & _ & Hblocked).
  clear Hb.
  (* the sync step *)
  set (w2 := put_out step2 wb).
  assert (Hfiles2 : files w2 = files wb) by apply files_put_out.
  assert (Hlocked2 : locked w2 = locked w)
    by (unfold w2; by rewrite locked_put_out).
  destruct (sync_skill_files_run source dest w2)
    as (ws & Hsync & Hsdest & Hsparent & Hscopy & Hskeep & _ & Hsoff & Hslocked & _).
  { rewrite Hfiles2, stat_not_root by done.
    rewrite Hbframe by (rewrite <- (app_nil_r dest); apply Hb_dest).
    by rewrite Hdest'. }
  { rewrite Hfiles2, stat_not_root by done.
    rewrite Hbframe by (rewrite <- (app_nil_r source); apply Hb_source).
    done. }
  { rewrite Hparent. apply can_make_dirs_of_dirs. intros k Hk.
    rewrite Hfiles2, Hbframe; [by apply Hancestors |].
    intros Hpre. apply prefix_length in Hpre.
    rewrite length_take in Hpre. unfold backup, child in Hpre.
    rewrite length_app in Hpre. simpl in Hpre. lia. }
  { intros d. rewrite Hfiles2, stat_not_root by done.
    rewrite Hbframe by (rewrite <- (app_nil_r dest); apply Hb_dest).
    by rewrite Hdest'. }
  { rewrite Hlocked2. apply Hunlocked. }
  { done. }
  { done. }
  rewrite Hfiles2 in Hscopy, Hskeep, Hsoff. rewrite Hparent in Hsparent, Hsoff.
  (* what the two steps kept *)
  assert (Hkept : ∀ q, ¬ backup `prefix_of` q → ¬ dest `prefix_of` q →
                       ¬ q `prefix_of` skills_of w → files ws !! q = files w !! q).
  { intros q Hq1 Hq2 Hq3. rewrite Hsoff by done. by apply Hbframe. }
  (* the package step *)
  set (w3 := put_out step3 ws).
  destruct (package_skill_run (skills_of w) w3)
    as (wp & ms & Hpackage & Hpfiles & Hms & _ & _).
  { done. }
  { done. }
  { cbn [files w3 put_out]. rewrite stat_not_root in * by done.
    by rewrite Hkept. }
  { cbn [locked w3 put_out]. rewrite Hslocked, Hlocked2, Hlocks.
    apply not_elem_of_empty. }
  fold dest pkg in Hpackage, Hpfiles, Hms. cbn [files w3 put_out] in Hpfiles, Hms.
  assert (Hplocked : locked wp = locked w).
  { destruct (keeps_setup_package_skill _ _ _ _ _ Hpackage) as [-> _].
    cbn [locked w3 put_out]. by rewrite Hslocked. }
  (* the update of the project's copy *)
  set (w4 := put_out step4 wp).
  assert (Hcopy_pkg : copy ≠ pkg).
  { unfold copy, pkg, child. intros Heq. by apply app_inj_tail in Heq as [? _]. }
  destruct (proj2 (update_project_package_run (project_dir_of w) (skills_of w) w4)
              (Archive TarPlain ms))
    as (wu & Hupdate & Hufiles & _).
  { cbn [files w4 put_out]. rewrite stat_not_root by done.
    fold pkg. by rewrite Hpfiles, lookup_insert_eq. }
  { done. }
  { cbn [files w4 put_out]. rewrite Hpfiles.
    destruct (decide (project_dir_of w = [])) as [-> | Hnot_root]; [done |].
    rewrite stat_insert_ne.
    - rewrite stat_not_root in * by done. apply Hskeep.
      + intros Hpre. apply Hds. etrans; [exact Hpre |]. by apply prefix_app_r.
      + by rewrite Hbframe.
    - intros Heq. apply Hpkg. fold pkg. by rewrite <- Heq. }
  { fold copy. cbn [files w4 put_out]. rewrite Hpfiles.
    rewrite stat_insert_ne by done. rewrite stat_not_root by done.
    rewrite Hkept by done. rewrite <- stat_not_root by done.
    intros n Hn. destruct n as [d|]; [by eexists | done]. }
  { fold copy. cbn [locked w4 put_out]. rewrite Hplocked, Hlocks.
    apply not_elem_of_empty. }
  fold pkg copy in Hufiles. cbn [files w4 put_out] in Hufiles.
  (* the run as a whole *)
  destruct (main_completes w s rest wb (Some backup) ws wp wu Hin (ex_intro _ _ Hsrc) Haff
              Hbackup Hsync Hpackage Hupdate) as (w' & Hmain & Hfiles').
  exists w', ms. split; [unfold run; by rewrite Hmain |].
  rewrite Hfiles', Hufiles, Hpfiles.
  assert (Hlater : ∀ q, q ≠ copy → q ≠ pkg →
    <[copy := File (Archive TarPlain ms)]>
      (<[pkg := File (Archive TarPlain ms)]> (files ws)) !! q = files ws !! q).
  { intros q Hq1 Hq2. by rewrite !lookup_insert_ne. }
  assert (Hb_rel : ∀ rel, backup ++ rel ≠ copy ∧ backup ++ rel ≠ pkg).
  { intros rel. split; intros Heq.
    - apply Hb_copy. rewrite <- Heq. by apply prefix_app_r.
    - apply Hb_pkg. rewrite <- Heq. by apply prefix_app_r. }
  assert (Hd_rel : ∀ rel, dest ++ rel ≠ copy ∧ dest ++ rel ≠ pkg).
  { intros rel. split; intros Heq.
    - apply Hdest_copy. rewrite <- Heq. by apply prefix_app_r.
    - apply Hdest_pkg. rewrite <- Heq. by apply prefix_app_r. }
  assert (Hb_kept : ∀ rel, files ws !! (backup ++ rel) = files wb !! (backup ++ rel)).
  { intros rel. apply Hsoff; [apply Hdest_b |].
    intros Hpre. apply prefix_length in Hpre.
    unfold backup, child in Hpre. rewrite !length_app in Hpre. simpl in Hpre. lia. }
  split; [| split; [| split; [| split; [| split; [| split]]]]].
  - rewrite stat_not_root by done. rewrite <- (app_nil_r backup).
    rewrite Hlater by apply Hb_rel. rewrite Hb_kept, app_nil_r.
    by rewrite <- stat_not_root.
  - intros rel Hrel. rewrite Hlater by apply Hb_rel.
    rewrite Hb_kept. by apply Hbcopy.
  - rewrite stat_not_root by done. rewrite <- (app_nil_r dest).
    rewrite Hlater by apply Hd_rel. rewrite app_nil_r.
    by rewrite <- stat_not_root.
  - intros rel Hrel. rewrite Hlater by apply Hd_rel.
    rewrite Hscopy by done. apply Hbframe, Hb_source.
  - rewrite lookup_insert_ne by done. by rewrite lookup_insert_eq.
  - by rewrite lookup_insert_eq.
  - intros arc n. rewrite Hms. split.
    + intros (Harc & Hreg & Hlk). rewrite Hscopy, Hbframe in Hlk by (done || apply Hb_source).
      done.
    + intros (Harc & Hreg & Hlk). rewrite Hscopy, Hbframe by (done || apply Hb_source).
      done.
Qed.

Lemma reinstall_end_to_end_witness :
  let w := reinstall [Typed "yes"] in
  let source := source_of w in
  let dest := dest_of w in
  let backup :=
    skills_of w
    // ("github-pages-deploy" +:+ "_backup_" +:+ Py.strftime (clock (process w))) in
  let pkg := skills_of w // "github-pages-deploy.skill" in
  let copy := project_dir_of w // "github-pages-deploy.skill" in
  backup = sample_skills // "github-pages-deploy_backup_20260115_093007"
  ∧ ∃ w' ms,
      run w = (w', 0%Z)
      ∧ stat (files w') backup = Some Dir
      ∧ (∀ rel, rel ≠ [] → files w' !! (backup ++ rel) = files w !! (dest ++ rel))
      ∧ stat (files w') dest = Some Dir
      ∧ (∀ rel, rel ≠ [] → files w' !! (dest ++ rel) = files w !! (source ++ rel))
      ∧ files w' !! pkg = Some (File (Archive TarPlain ms))
      ∧ files w' !! copy = Some (File (Archive TarPlain ms))
      ∧ (∀ arc n, (arc, n) ∈ ms
                  ↔ arc ≠ [] ∧ is_regular n ∧ files w !! (source ++ arc) = Some n).
Proof.
  intros w. split; [by vm_compute |].
  apply (reinstall_end_to_end w "yes" []).
  - reflexivity.
  - by vm_compute.
  - by vm_compute.
  - reflexivity.
  - by vm_compute.
  - by vm_compute.
  - by vm_compute.
  - apply (bool_decide_unpack _). by vm_compute.
  - apply (bool_decide_unpack _). by vm_compute.
  - by vm_compute.
  - by vm_compute.
  - apply (bool_decide_unpack _). by vm_compute.
Defined.

End Reinstall.

(** ** What the sync tool prints *)

(** Settles a library call, which prints nothing, by its cases. *)
Ltac quiet_call :=
  intros ? ? ? Hrun; cbv beta zeta in Hrun;
  repeat (case_match; simplify_eq); simplify_eq; done.

Lemma quiet_sys_exit {A} (code : Z) : quiet (sys_exit (A := A) code).
Proof. unfold sys_exit, raise. quiet_call. Qed.

Lemma quiet_datetime_now : quiet datetime_now.
Proof. unfold datetime_now. quiet_call. Qed.

Lemma quiet_path_home : quiet path_home.
Proof. unfold path_home. quiet_call. Qed.

Lemma quiet_path_file : quiet path_file.
Proof. unfold path_file. quiet_call. Qed.

Lemma quiet_exists (p : path) : quiet (exists_ p).
Proof. unfold exists_. quiet_call. Qed.

Lemma quiet_is_file (p : path) : quiet (is_file p).
Proof. unfold is_file. quiet_call. Qed.

Lemma quiet_mkdir_parents (p : path) : quiet (mkdir_parents p).
Proof. unfold mkdir_parents. quiet_call. Qed.

Lemma quiet_rmtree (p : path) : quiet (rmtree p).
Proof. unfold rmtree. quiet_call. Qed.

Lemma quiet_copytree (src dst : path) : quiet (copytree src dst).
Proof. unfold copytree. quiet_call. Qed.

Lemma quiet_unlink (p : path) : quiet (unlink p).
Proof. unfold unlink. quiet_call. Qed.

Lemma quiet_create_file (p : path) (d : data) : quiet (create_file p d).
Proof. unfold create_file. quiet_call. Qed.

Lemma quiet_tar_open (p : path) (mode : tar_mode) : quiet (tar_open p mode).
Proof.
  intros w w' r Hrun. unfold tar_open in Hrun.
  by apply quiet_create_file in Hrun.
Qed.

Lemma quiet_tar_add (archive item arcname : path) :
  quiet (tar_add archive item arcname).
Proof. unfold tar_add. quiet_call. Qed.

Lemma quiet_rglob (p : path) : quiet (rglob p).
Proof. unfold rglob. quiet_call. Qed.

Lemma quiet_path_stat (p : path) : quiet (path_stat p).
Proof. unfold path_stat. quiet_call. Qed.

Lemma quiet_path_relative_to (item base : path) : quiet (path_relative_to item base).
Proof.
  unfold path_relative_to. destruct (relative_to item base); by intros w w' r [= <- _].
Qed.

Lemma quiet_copy2 (src dst : path) : quiet (copy2 src dst).
Proof.
  intros w w' r Hrun. unfold copy2 in Hrun.
  repeat (case_match; simplify_eq); try done;
    match goal with
    | H : create_file _ _ _ = _ |- _ => by apply quiet_create_file in H
    end.
Qed.

Create HintDb quiet.
#[local] Hint Resolve quiet_sys_exit quiet_datetime_now quiet_path_home
  quiet_path_file quiet_exists quiet_is_file quiet_mkdir_parents quiet_rmtree
  quiet_copytree quiet_unlink quiet_create_file quiet_tar_open quiet_tar_add
  quiet_rglob quiet_path_stat quiet_path_relative_to quiet_copy2 : quiet.

Section Output.
Import SyncSkill.

Variable P : list frag → Prop.

Lemma says_only_quiet {A} (m : M A) : quiet m → says_only P m.
Proof.
  intros Hm w w' r Hrun. exists []. rewrite app_nil_r.
  split; [by eapply Hm | constructor].
Qed.

Lemma says_only_ret {A} (a : A) : says_only P (mret a).
Proof. apply says_only_quiet. by intros w w' r [= <- _]. Qed.

Lemma says_only_bind {A B} (m : M A) (k : A → M B) :
  says_only P m → (∀ a, says_only P (k a)) → says_only P (m ≫= k).
Proof.
  intros Hm Hk w w' r. unfold mbind, M_bind.
  destruct (m w) as [w1 [a|e]] eqn:Hrun.
  - intros Hka. destruct (Hm _ _ _ Hrun) as (ls1 & Hout1 & Hls1).
    destruct (Hk _ _ _ _ Hka) as (ls2 & Hout2 & Hls2).
    exists (ls1 ++ ls2). rewrite Hout2, Hout1, app_assoc.
    split; [done | by apply Forall_app].
  - intros [= <- _]. by eapply Hm.
Qed.

(** A call that always raises ends the script it starts. *)
Lemma says_only_stop {A B} (m : M A) (k : A → M B) :
  says_only P m → (∀ w, ∃ e, (m w).2 = Raise e) → says_only P (m ≫= k).
Proof.
  intros Hm Hraise w w' r. unfold mbind, M_bind.
  destruct (Hraise w) as [e He].
  destruct (m w) as [w1 r1] eqn:Hrun. simpl in He. subst r1.
  intros [= <- _]. by eapply Hm.
Qed.

Lemma says_only_try_except {A} (body : M A) (handler : exn → M A) :
  says_only P body → (∀ e, says_only P (handler e)) →
  says_only P (try_except body handler).
Proof.
  intros Hb Hh w w' r. unfold try_except.
  destruct (body w) as [w1 [a|e]] eqn:Hrun.
  - intros [= <- _]. by eapply Hb.
  - destruct (is_Exception e).
    + intros Hhe. destruct (Hb _ _ _ Hrun) as (ls1 & Hout1 & Hls1).
      destruct (Hh _ _ _ _ Hhe) as (ls2 & Hout2 & Hls2).
      exists (ls1 ++ ls2). rewrite Hout2, Hout1, app_assoc.
      split; [done | by apply Forall_app].
    + intros [= <- _]. by eapply Hb.
Qed.

Lemma says_only_when (b : bool) (body : M unit) :
  says_only P body → says_only P (when b body).
Proof. intros Hb. destruct b; [done | apply says_only_ret]. Qed.

Lemma says_only_for_each {A} (xs : list A) (body : A → M unit) :
  (∀ x, says_only P (body x)) → says_only P (for_each xs body).
Proof.
  intros Hb. induction xs as [|x xs IH]; simpl.
  - apply says_only_ret.
  - by apply says_only_bind.
Qed.

Lemma says_only_print (l : list frag) : P l → says_only P (print l).
Proof.
  intros Hl w w' r [= <- _]. exists [l]. split; [done | by constructor].
Qed.

Lemma says_only_input (prompt : string) :
  P [Lit prompt] → says_only P (input prompt).
Proof.
  intros Hl w w' r Hrun. exists [[Lit prompt]].
  split; [| by constructor].
  unfold input in Hrun. cbv zeta in Hrun.
  repeat (case_match; simplify_eq); by simplify_eq.
Qed.

End Output.

Section Status.
Import SyncSkill.

(** Settles a script whose lines are no status lines. *)
Ltac says_only_script :=
  repeat first
    [ progress intros
    | apply says_only_bind
    | apply says_only_try_except
    | apply says_only_when
    | apply says_only_for_each
    | apply says_only_ret
    | solve [apply says_only_quiet; auto with quiet]
    | solve [apply says_only_print; by intros rest [=]]
    | match goal with
      | |- says_only _ (match ?x with _ => _ end) => destruct x
      | |- says_only _ (if ?b then _ else _) => destruct b
      | |- says_only _ (let '(_, _) := ?x in _) => destruct x
      end ].

Lemma says_no_failure_backup_skill (dest_skill : path) :
  says_only no_failure (backup_skill dest_skill).
Proof. unfold backup_skill. says_only_script. Qed.

Lemma says_no_failure_sync_skill_files (source_skill dest_skill : path) :
  says_only no_failure (sync_skill_files source_skill dest_skill).
Proof. unfold sync_skill_files. says_only_script. Qed.

Lemma says_no_failure_package_skill (skills_dir dest_skill : path) :
  says_only no_failure (package_skill skills_dir dest_skill).
Proof. unfold package_skill. says_only_script. Qed.

Lemma says_no_failure_update_project_package (project_dir skills_dir : path) :
  says_only no_failure (update_project_package project_dir skills_dir).
Proof. unfold update_project_package. says_only_script. Qed.

Lemma says_no_failure_get_paths : says_only no_failure get_paths.
Proof. unfold get_paths. says_only_script. Qed.

(** The summary of a successful sync has no [FAILED] in it. *)
Lemma says_no_failure_show_summary (source_skill dest_skill : path)
    (packaged updated_project : bool) :
  says_only no_failure
    (show_summary source_skill dest_skill true packaged updated_project).
Proof.
  unfold show_summary.
  repeat first
    [ apply says_only_bind; [| intros ?]
    | apply says_only_when
    | solve [apply says_only_print; by intros rest [=]] ].
Qed.

Lemma says_no_failure_main : says_only no_failure main.
Proof.
  unfold main.
  repeat
    match goal with
    | |- says_only _ (sync_skill_files _ _ ≫= _) => fail 1
    | |- says_only _ (let '(_, _) := ?x in _) => destruct x
    | |- _ =>
        apply says_only_bind;
        [ first [ apply says_no_failure_get_paths
                | apply says_no_failure_backup_skill
                | apply says_only_input; by intros rest [=]
                | solve [says_only_script] ]
        | intros ? ]
    end.
  apply says_only_bind; [apply says_no_failure_sync_skill_files |].
  intros [|].
  - (* the sync step returned [True] *)
    repeat
      match goal with
      | |- says_only _ (_ ≫= _) =>
          apply says_only_bind;
          [ first [ apply says_no_failure_package_skill
                  | apply says_no_failure_update_project_package
                  | apply says_no_failure_show_summary
                  | solve [says_only_script] ]
          | intros ? ]
      end.
    says_only_script.
  - (* it returned [False]: [main] exits before the summary *)
    apply says_only_stop; [says_only_script |].
    intros w. by eexists.
Qed.

(** X22: the sync tool never reports a failed status. Whatever the tree, the
    locks and the input, every line it prints on the standard output that
    begins with the label [Status:] is the line [Status:      SUCCESS]: the
    summary is printed only after a sync step that returned [True], and no
    other call prints such a line. *)
Theorem summary_status_is_always_success (w : world) :
  ∃ ls,
    stdout (run w).1 = stdout w ++ ls
    ∧ ∀ rest, Lit "Status:      " :: rest ∈ ls → rest = [Lit "SUCCESS"].
Proof.
  destruct (main w) as [w1 r] eqn:Hmain.
  destruct (says_no_failure_main _ _ _ Hmain) as (ls & Hout & Hls).
  rewrite Forall_forall in Hls.
  assert (Hmore : ∀ l0 : list frag,
    (∀ rest, l0 ≠ Lit "Status:      " :: rest) →
    ∀ rest, Lit "Status:      " :: rest ∈ ls ++ [l0] → rest = [Lit "SUCCESS"]).
  { intros l0 Hl0 rest [Hin | Hin%list_elem_of_singleton]%elem_of_app.
    - by apply (Hls _ Hin).
    - by destruct (Hl0 rest). }
  unfold run. rewrite Hmain.
  destruct r as [[]|e]; [| destruct e];
    first
      [ (exists ls; split; [exact Hout |]; intros rest Hin; by apply (Hls _ Hin))
      | (eexists (ls ++ [_]); split;
         [ cbn [fst stdout put_out put_err]; by rewrite Hout, app_assoc
         | apply Hmore; by intros rest [=] ]) ].
Qed.

End Status.
